(** * SpeedTestEngine: a shallow embedding and its verified properties

    The engine of [src/unnamed/part_000] (class [SpeedTestEngine]) is
    embedded method by method.  JavaScript numbers are modelled as exact
    rationals ([Q]); results are therefore compared with [==].  The
    network, [Math.random] and the host platform are an explicit [World]
    that the methods consult; engine fields, the clock and everything the
    engine hands to its sinks live in a [State] threaded through a
    state-and-exception monad [M].

    The file has three parts: the model (data, primitives, methods), the
    vocabulary in which the properties are stated (predicates, example
    worlds, observers), and the proofs, grouped by method. *)

From Stdlib Require Import ZArith NArith PArith QArith Qround Qminmax Qabs.
From Stdlib Require Import List String Ascii Bool Lia Lqa Permutation.
From Stdlib Require Import DecimalString.
Import ListNotations.

Local Open Scope Q_scope.
Local Open Scope string_scope.
Local Open Scope list_scope.

(** ** JavaScript numbers and the [Math] object *)

Module JS.

Definition Qltb (x y : Q) : bool := negb (Qle_bool y x).

(** [Math.round x]: the integer nearest to [x], halves rounded up. *)
Definition Math_round (x : Q) : Z := Qfloor (x + (1 # 2)).

Definition Math_floor (x : Q) : Z := Qfloor x.

Definition Math_min (x y : Q) : Q := Qmin x y.
Definition Math_max (x y : Q) : Q := Qmax x y.
Definition Math_abs (x : Q) : Q := Qabs x.

(** The idiom [Math.round(x * 10) / 10]. *)
Definition round1 (x : Q) : Q := inject_Z (Math_round (x * 10)) / 10.

(** One draw of [Math.random()]: a rational of [[0, 1)] by construction. *)
Record Unit01 := { u_num : N; u_den : positive }.

Definition unit01 (u : Unit01) : Q :=
  (Z.of_N (u_num u) mod Z.pos (u_den u)) # u_den u.

(** Whether a number is an integer, and its integer part ([ToIntegerOrInfinity]
    on finite numbers truncates towards zero). *)
Definition is_integer (x : Q) : bool := Qeq_bool x (inject_Z (Qfloor x)).

Definition truncate (x : Q) : Z :=
  if Qle_bool 0 x then Qfloor x else Qceiling x.

(** Decimal rendering of integers inside template literals. *)
Definition string_of_Z (z : Z) : string := NilZero.string_of_int (Z.to_int z).
Definition string_of_nat (n : nat) : string := string_of_Z (Z.of_nat n).

End JS.
Import JS.

(** ** Data model ([src/speedTest.ts]) *)

Inductive Phase := idle | ping | download | upload | bufferbloat | packetLoss | complete.

Inductive Rating := A | B | C | D | F.

Record TestProgress := {
  phase : Phase;
  progress : Q;
  currentSpeed : Q;
  elapsedTime : Q
}.

Record TestServer := {
  id : string;
  name : string;
  location : string;
  host : string;
  distance : Q;
  latency : option Q
}.

Record GraphData := {
  time : Q;
  speed : Q;
  g_phase : string;
  g_ping : option Q
}.

Record TestConfig := {
  duration : Q;
  parallelConnections : Q;
  enableBufferbloat : bool;
  enableStressTest : bool
}.

(** A parsed JSON document, as [response.json()] yields it. *)
#[warnings="-register-all"]
Inductive Json :=
| JNull
| JBool (b : bool)
| JNum (q : Q)
| JStr (s : string)
| JArr (items : list Json)
| JObj (fields : list (string * Json)).

Record UserLocation := {
  city : Json;
  country : Json;
  ip : Json
}.

Record Bufferbloat := {
  rating : Rating;
  latencyIncrease : Q
}.

Record PacketLoss := {
  percentage : Q;
  sent : Q;
  received : Q
}.

Record SpeedTestResult := {
  r_id : string;
  timestamp : Z;
  downloadSpeed : Q;
  uploadSpeed : Q;
  r_ping : Q;
  jitter : Q;
  serverLocation : string;
  userLocation : UserLocation;
  testDuration : Q;
  r_bufferbloat : option Bufferbloat;
  r_packetLoss : option PacketLoss
}.

(** ** The network and the host platform *)

Inductive Method := GET | HEAD | POST.

(** The [signal] option of a request: none, [AbortSignal.timeout(ms)], or
    the signal of the engine's own [abortController]. *)
Inductive Signal := SigNone | SigTimeout (ms : Z) | SigController.

Record Request := {
  url : string;
  method : Method;
  mode : option string;
  cache : option string;
  bodyBytes : N;
  signal : Signal
}.

(** A streamed body: chunks, each arriving some microseconds after the
    previous read, then the end of the stream or a transport error. *)
Record Chunk := { c_delay : N; c_bytes : N }.

Inductive StreamEnd := Done (delay : N) | Errored (delay : N).

Record Stream := { chunks : list Chunk; ending : StreamEnd }.

(** What the far end answers.  [payload] is the body parsed as JSON, when
    it parses. *)
Record Answer := {
  ok : bool;
  status : nat;
  body : option Stream;
  payload : option Json
}.

(** How a request ends when nothing aborts it, after a positive number of
    microseconds. *)
Inductive NetOutcome :=
| Rejects (after : positive)
| Resolves (after : positive) (a : Answer).

(** What a statement can throw. *)
Inductive Exn :=
| TypeError (msg : string)
| RangeError (msg : string)
| Error (msg : string)
| TimeoutError
| AbortError
| NetworkError
| SyntaxError
| QuotaExceededError.

(** The environment of an engine: the network, the platform and the
    caller.  The two sinks are the caller's functions: called with an
    argument, each returns ([None]) or throws. *)
Record World := {
  net : nat -> NetOutcome;            (* by order of issue *)
  random : nat -> Unit01;             (* by order of draw *)
  epoch : Z;                          (* [Date.now()] at time origin, ms *)
  hasAbortSignalTimeout : bool;       (* is [AbortSignal.timeout] defined *)
  getRandomValuesQuota : N;           (* bytes [crypto.getRandomValues] accepts *)
  userAbortsAt : option Q;            (* when the caller invokes [abort()] *)
  progressSink : TestProgress -> option Exn;    (* what [onProgress] throws *)
  graphSink : list GraphData -> option Exn      (* what [onGraphUpdate] throws *)
}.

(** A response in the engine's hands: the answer, and when and why its
    request's signal fires, which also cuts the body stream. *)
Record Response := {
  answer : Answer;
  cutoff : option (Q * Exn)
}.

(** A request as issued: when it started and when its promise settles. *)
Record Issued := {
  request : Request;
  startedAt : Q;
  settlesAt : Q
}.

(** ** Engine state and the monad of its methods *)

Record State := {
  (* fields of the engine *)
  config : TestConfig;
  onProgress : bool;                       (* was a progress sink supplied *)
  onGraphUpdate : bool;                    (* was a graph sink supplied *)
  graphData : list GraphData;              (* in order of insertion *)
  abortController : option bool;           (* [Some aborted] once created *)
  (* the closure cell [receivedPackets] of [measurePacketLoss] *)
  receivedPackets : nat;
  (* the environment *)
  now : Q;                                 (* [performance.now()], ms *)
  netIx : nat;
  rndIx : nat;
  (* what was observed from outside, most recent first *)
  progressEvents : list TestProgress;      (* calls of [onProgress] *)
  graphUpdates : list (list GraphData);    (* calls of [onGraphUpdate] *)
  requests : list Issued                   (* requests put on the network *)
}.

Definition set_now (t : Q) (s : State) : State :=
  {| config := config s; onProgress := onProgress s; onGraphUpdate := onGraphUpdate s;
     graphData := graphData s; abortController := abortController s;
     receivedPackets := receivedPackets s; now := t; netIx := netIx s; rndIx := rndIx s;
     progressEvents := progressEvents s; graphUpdates := graphUpdates s;
     requests := requests s |}.

Definition set_graphData (g : list GraphData) (s : State) : State :=
  {| config := config s; onProgress := onProgress s; onGraphUpdate := onGraphUpdate s;
     graphData := g; abortController := abortController s;
     receivedPackets := receivedPackets s; now := now s; netIx := netIx s; rndIx := rndIx s;
     progressEvents := progressEvents s; graphUpdates := graphUpdates s;
     requests := requests s |}.

Definition set_abortController (c : option bool) (s : State) : State :=
  {| config := config s; onProgress := onProgress s; onGraphUpdate := onGraphUpdate s;
     graphData := graphData s; abortController := c;
     receivedPackets := receivedPackets s; now := now s; netIx := netIx s; rndIx := rndIx s;
     progressEvents := progressEvents s; graphUpdates := graphUpdates s;
     requests := requests s |}.

Definition set_receivedPackets (n : nat) (s : State) : State :=
  {| config := config s; onProgress := onProgress s; onGraphUpdate := onGraphUpdate s;
     graphData := graphData s; abortController := abortController s;
     receivedPackets := n; now := now s; netIx := netIx s; rndIx := rndIx s;
     progressEvents := progressEvents s; graphUpdates := graphUpdates s;
     requests := requests s |}.

Definition set_rndIx (n : nat) (s : State) : State :=
  {| config := config s; onProgress := onProgress s; onGraphUpdate := onGraphUpdate s;
     graphData := graphData s; abortController := abortController s;
     receivedPackets := receivedPackets s; now := now s; netIx := netIx s; rndIx := n;
     progressEvents := progressEvents s; graphUpdates := graphUpdates s;
     requests := requests s |}.

Definition push_progress (e : TestProgress) (s : State) : State :=
  {| config := config s; onProgress := onProgress s; onGraphUpdate := onGraphUpdate s;
     graphData := graphData s; abortController := abortController s;
     receivedPackets := receivedPackets s; now := now s; netIx := netIx s; rndIx := rndIx s;
     progressEvents := e :: progressEvents s; graphUpdates := graphUpdates s;
     requests := requests s |}.

Definition push_graphUpdate (g : list GraphData) (s : State) : State :=
  {| config := config s; onProgress := onProgress s; onGraphUpdate := onGraphUpdate s;
     graphData := graphData s; abortController := abortController s;
     receivedPackets := receivedPackets s; now := now s; netIx := netIx s; rndIx := rndIx s;
     progressEvents := progressEvents s; graphUpdates := g :: graphUpdates s;
     requests := requests s |}.

Definition push_request (r : Issued) (s : State) : State :=
  {| config := config s; onProgress := onProgress s; onGraphUpdate := onGraphUpdate s;
     graphData := graphData s; abortController := abortController s;
     receivedPackets := receivedPackets s; now := now s; netIx := S (netIx s); rndIx := rndIx s;
     progressEvents := progressEvents s; graphUpdates := graphUpdates s;
     requests := r :: requests s |}.

(** How a statement ends: normally with a value, or abruptly with a thrown
    exception. *)
Inductive Completion (T : Type) :=
| Normal (v : T)
| Throw (e : Exn).
Arguments Normal {T} v.
Arguments Throw {T} e.

Definition M (T : Type) : Type := State -> Completion T * State.

Definition ret {T} (v : T) : M T := fun s => (Normal v, s).

Definition throw {T} (e : Exn) : M T := fun s => (Throw e, s).

Definition bind {T U} (m : M T) (k : T -> M U) : M U :=
  fun s => match m s with
           | (Normal v, s') => k v s'
           | (Throw e, s') => (Throw e, s')
           end.

(** [try { m } catch (e) { h e }]. *)
Definition try_catch {T} (m : M T) (h : Exn -> M T) : M T :=
  fun s => match m s with
           | (Normal v, s') => (Normal v, s')
           | (Throw e, s') => h e s'
           end.

Definition gets {T} (f : State -> T) : M T := fun s => (Normal (f s), s).

Definition modify (f : State -> State) : M unit := fun s => (Normal tt, f s).

Declare Scope js_scope.
Delimit Scope js_scope with js.
Notation "x <- m ;; k" := (bind m (fun x => k))
  (at level 61, m at next level, right associativity) : js_scope.
Notation "m ;; k" := (bind m (fun _ => k))
  (at level 61, right associativity) : js_scope.
Notation "'when' c 'then' m" := (if c then m else ret tt)
  (at level 60, c at level 9) : js_scope.
Local Open Scope js_scope.

(** A promise: the moment it settles, and the reaction that runs then and
    yields its value or its rejection. *)
Record Promise (T : Type) := {
  settles : Q;
  reaction : M T
}.
Arguments settles {T} _.
Arguments reaction {T} _.

Definition message (e : Exn) : string :=
  match e with
  | TypeError m | RangeError m | Error m => m
  | TimeoutError => "signal timed out"
  | AbortError => "signal is aborted without reason"
  | NetworkError => "Failed to fetch"
  | SyntaxError => "Unexpected token"
  | QuotaExceededError => "The requested length exceeds 65,536 bytes"
  end.

(** Microseconds, as the world counts them, in milliseconds. *)
Definition us (d : N) : Q := Z.of_N d # 1000.

Definition Qlen {T} (l : list T) : Q := inject_Z (Z.of_nat (List.length l)).

Definition Qnat (n : nat) : Q := inject_Z (Z.of_nat n).

(** ** Constants and pure helpers of the engine *)

Definition servers : list TestServer :=
  [ {| id := "1"; name := "Cloudflare"; location := "Global CDN";
       host := "https://speed.cloudflare.com"; distance := 0; latency := None |};
    {| id := "2"; name := "Google"; location := "Global";
       host := "https://www.google.com"; distance := 0; latency := None |};
    {| id := "3"; name := "GitHub"; location := "Global CDN";
       host := "https://github.com"; distance := 0; latency := None |};
    {| id := "4"; name := "Fast.com"; location := "Netflix CDN";
       host := "https://fast.com"; distance := 0; latency := None |} ].

Definition defaultConfig : TestConfig :=
  {| duration := 10; parallelConnections := 4;
     enableBufferbloat := true; enableStressTest := false |}.

(** [new SpeedTestEngine(onProgress, onGraphUpdate, config)], on a platform
    whose clock reads [t] and that has seen [n] requests and [r] draws. *)
Definition constructor (onProgress onGraphUpdate : bool) (config : option TestConfig)
    (t : Q) (n r : nat) : State :=
  {| config := match config with Some c => c | None => defaultConfig end;
     onProgress := onProgress; onGraphUpdate := onGraphUpdate;
     graphData := []; abortController := None; receivedPackets := 0;
     now := t; netIx := n; rndIx := r;
     progressEvents := []; graphUpdates := []; requests := [] |}.

(** [{ ...server, latency, distance: latency }]. *)
Definition with_latency (server : TestServer) (l : Q) : TestServer :=
  {| id := id server; name := name server; location := location server;
     host := host server; distance := l; latency := Some l |}.

(** [current.latency! < best.latency!]; a comparison with [undefined] is
    false. *)
Definition latency_lt (current best : TestServer) : bool :=
  match latency current, latency best with
  | Some c, Some b => Qltb c b
  | _, _ => false
  end.

Definition classify (latencyIncrease : Q) : Rating :=
  if Qltb latencyIncrease 20 then A
  else if Qltb latencyIncrease 50 then B
  else if Qltb latencyIncrease 100 then C
  else if Qltb latencyIncrease 200 then D
  else F.

(** *** JSON values as JavaScript sees them *)

Definition truthy (v : Json) : bool :=
  match v with
  | JNull => false
  | JBool b => b
  | JNum q => negb (Qeq_bool q 0)
  | JStr s => negb (String.eqb s "")
  | JArr _ | JObj _ => true
  end.

(** The last binding of a key wins, as in [JSON.parse]. *)
Fixpoint field (key : string) (fields : list (string * Json)) : option Json :=
  match fields with
  | [] => None
  | (k, v) :: rest =>
      match field key rest with
      | Some v' => Some v'
      | None => if String.eqb k key then Some v else None
      end
  end.

(** [data.key]: [undefined] ([None]) where the property is absent, a
    [TypeError] on [null]. *)
Definition get (data : Json) (key : string) : M (option Json) :=
  match data with
  | JNull => throw (TypeError "Cannot read properties of null")
  | JObj fields => ret (field key fields)
  | _ => ret None
  end.

(** [v || fallback]. *)
Definition or_else (v : option Json) (fallback : string) : Json :=
  match v with
  | Some x => if truthy x then x else JStr fallback
  | None => JStr fallback
  end.

(** ** Language and platform primitives *)

Section Engine.

Variable w : World.

Definition performance_now : M Q := gets now.

Definition Date_now : M Z := gets (fun s => (epoch w + Qfloor (now s))%Z).

Definition Math_random : M Q :=
  fun s => (Normal (unit01 (random w (rndIx s))), set_rndIx (S (rndIx s)) s).

(** [AbortSignal.timeout(ms)]: a [TypeError] where the platform lacks it or
    the delay, truncated, is not an [unsigned long long] in range. *)
Definition AbortSignal_timeout (ms : Q) : M Signal :=
  if hasAbortSignalTimeout w then
    let n := truncate ms in
    if ((0 <=? n) && (n <=? 2 ^ 53 - 1))%Z then ret (SigTimeout n)
    else throw (TypeError "Value is outside the 'unsigned long long' value range")
  else throw (TypeError "AbortSignal.timeout is not a function").

(** [crypto.getRandomValues(new Uint8Array(size))]. *)
Definition crypto_getRandomValues (size : N) : M unit :=
  if (size <=? getRandomValuesQuota w)%N then ret tt else throw QuotaExceededError.

(** [Array(len)]: a [RangeError] unless [len] is an integer of
    [[0, 2^32 - 1]]. *)
Definition Array_ (len : Q) : M nat :=
  if is_integer len && Qle_bool 0 len && Qle_bool len (inject_Z (2 ^ 32 - 1))
  then ret (Z.to_nat (Qfloor len))
  else throw (RangeError "Invalid array length").

(** When, and why, a signal aborts the request that carries it.  Only
    the controller's signal reacts to [abort()]. *)
Definition fires (sig : Signal) (s : State) : option (Q * Exn) :=
  match sig with
  | SigNone => None
  | SigTimeout ms => Some (now s + inject_Z ms, TimeoutError)
  | SigController =>
      match abortController s with
      | Some true => Some (now s, AbortError)
      | Some false =>
          match userAbortsAt w with
          | Some t => Some (Qmax (now s) t, AbortError)
          | None => None
          end
      | None => None
      end
  end.

(** [fetch(url, options)] puts one request on the network and returns its
    promise.  The request settles as the world says, unless its signal
    fires first. *)
Definition fetch (req : Request) : M (Promise Response) :=
  fun s =>
    let cut := fires (signal req) s in
    let natural :=
      match net w (netIx s) with
      | Rejects d => {| settles := now s + us (Npos d); reaction := throw NetworkError |}
      | Resolves d a =>
          {| settles := now s + us (Npos d);
             reaction := ret {| answer := a; cutoff := cut |} |}
      end in
    let p :=
      match cut with
      | Some (c, why) =>
          if Qle_bool c (settles natural)
          then {| settles := c; reaction := throw why |}
          else natural
      | None => natural
      end in
    (Normal p,
     push_request {| request := req; startedAt := now s; settlesAt := settles p |} s).

(** [await p]: the caller resumes once [p] has settled. *)
Definition await {T} (p : Promise T) : M T :=
  modify (fun s => set_now (Qmax (now s) (settles p)) s) ;; reaction p.

Definition then_ {T U} (p : Promise T) (f : T -> M U) : Promise U :=
  {| settles := settles p; reaction := v <- reaction p ;; f v |}.

Definition catch_ {T} (p : Promise T) (g : Exn -> M T) : Promise T :=
  {| settles := settles p; reaction := try_catch (reaction p) g |}.

Definition finally_ {T} (p : Promise T) (h : M unit) : Promise T :=
  {| settles := settles p;
     reaction := fun s =>
       let (r, s1) := reaction p s in
       match h s1 with
       | (Normal _, s2) => (r, s2)
       | (Throw e, s2) => (Throw e, s2)
       end |}.

(** Calling an [async] function: its body runs on a clock of its own from
    the moment of the call, and the caller goes on at that same moment
    with the promise of the result.  At most one task of a fan-out writes
    to the sinks, so the logs stay in order of emission. *)
Definition spawn {T} (task : M T) : M (Promise T) :=
  fun s =>
    let (r, s1) := task s in
    (Normal {| settles := now s1; reaction := fun s2 => (r, s2) |},
     set_now (now s) s1).

(** *** [Promise.all] *)

Fixpoint insert_by_time {T} (x : nat * Promise T) (l : list (nat * Promise T))
  : list (nat * Promise T) :=
  match l with
  | [] => [x]
  | y :: l' =>
      if Qle_bool (settles (snd x)) (settles (snd y)) then x :: l
      else y :: insert_by_time x l'
  end.

(** Promises in the order in which they settle (first come first on
    ties), each with its index. *)
Definition by_time {T} (ps : list (Promise T)) : list (nat * Promise T) :=
  fold_right insert_by_time [] (combine (seq 0 (List.length ps)) ps).

(** The reactions run one by one, each at the moment its promise settles. *)
Fixpoint settle_each {T} (l : list (nat * Promise T)) (s : State)
  : list (nat * Completion T) * State :=
  match l with
  | [] => ([], s)
  | (i, p) :: l' =>
      let (r, s1) := reaction p (set_now (settles p) s) in
      let (rs, s2) := settle_each l' s1 in
      ((i, r) :: rs, s2)
  end.

Fixpoint first_rejection {T} (rs : list (nat * Completion T)) : option Exn :=
  match rs with
  | [] => None
  | (_, Throw e) :: _ => Some e
  | (_, Normal _) :: rs' => first_rejection rs'
  end.

Fixpoint value_at {T} (i : nat) (rs : list (nat * Completion T)) : list T :=
  match rs with
  | [] => []
  | (j, Normal v) :: rs' => if Nat.eqb i j then [v] else value_at i rs'
  | (_, Throw _) :: rs' => value_at i rs'
  end.

(** The moment [Promise.all] settles, given how the promises settle one
    after the other: with the first that rejects, or else at [latest]. *)
Fixpoint settled_at {T} (l : list (nat * Promise T)) (rs : list (nat * Completion T))
    (latest : Q) : Q :=
  match l, rs with
  | (_, p) :: l', (_, Throw _) :: _ => settles p
  | _ :: l', (_, Normal _) :: rs' => settled_at l' rs' latest
  | _, _ => latest
  end.

(** [await Promise.all(ps)], as the engine always writes it.  The caller
    resumes when the last of [ps] has settled, with their values in the
    order of [ps]; or as soon as one of them rejects, with that rejection.
    In that case the promises still pending are left to themselves: their
    reactions run when they settle, but nothing waits for them.  The state
    records what they do ahead of what the caller does next, so after a
    rejection the logs are no longer in order of emission. *)
Definition await_all {T} (ps : list (Promise T)) : M (list T) :=
  fun s =>
    let order := by_time ps in
    let (rs, s2) := settle_each order s in
    let latest := fold_left (fun t p => Qmax t (settles p)) ps (now s) in
    let s3 := set_now (Qmax (now s) (settled_at order rs latest)) s2 in
    match first_rejection rs with
    | Some e => (Throw e, s3)
    | None => (Normal (flat_map (fun i => value_at i rs) (seq 0 (List.length ps))), s3)
    end.

(** *** Arrays and loops *)

(** [l.reduce(f)], without an initial value. *)
Definition reduce {T} (f : T -> T -> T) (l : list T) : M T :=
  match l with
  | [] => throw (TypeError "Reduce of empty array with no initial value")
  | x :: l' => ret (fold_left f l' x)
  end.

(** [l.map(f)] with an effectful callback of element and index. *)
Fixpoint map_ {T U} (f : T -> nat -> M U) (l : list T) (i : nat) : M (list U) :=
  match l with
  | [] => ret []
  | x :: l' => y <- f x i ;; ys <- map_ f l' (S i) ;; ret (y :: ys)
  end.

(** [for (let i = 0; i < n; i++) body], over the state [acc] of the
    variables the body assigns. *)
Fixpoint for_ {T} (indices : list nat) (acc : T) (body : nat -> T -> M T) : M T :=
  match indices with
  | [] => ret acc
  | i :: rest => acc' <- body i acc ;; for_ rest acc' body
  end.

(** ** The methods of [class SpeedTestEngine] *)

(** [this.onProgress?.({...})]: the sink is called, and what it throws
    is thrown on. *)
Definition updateProgress (ph : Phase) (pr : Q) (speed : Q) : M unit :=
  sink <- gets onProgress ;;
  when sink then
    (t <- performance_now ;;
     let event := {| phase := ph; progress := Math_min pr 100;
                     currentSpeed := speed; elapsedTime := t |} in
     modify (push_progress event) ;;
     match progressSink w event with
     | Some thrown => throw thrown
     | None => ret tt
     end).

(** [this.graphData.push(g)] *)
Definition graphData_push (g : GraphData) : M unit :=
  modify (fun s => set_graphData (graphData s ++ [g]) s).

(** [this.onGraphUpdate?.(this.graphData)] *)
Definition onGraphUpdate_call : M unit :=
  sink <- gets onGraphUpdate ;;
  when sink then
    (series <- gets graphData ;;
     modify (push_graphUpdate series) ;;
     match graphSink w series with
     | Some thrown => throw thrown
     | None => ret tt
     end).

(** Waiting on the body stream for [d] microseconds, unless the signal of
    the request fires first. *)
Definition reader_wait (cut : option (Q * Exn)) (d : N) : M unit :=
  t <- performance_now ;;
  match cut with
  | Some (c, why) =>
      if Qle_bool c (t + us d)
      then modify (set_now (Qmax t c)) ;; throw why
      else modify (set_now (t + us d))
  | None => modify (set_now (t + us d))
  end.

Definition quickPing (url : string) : M Q :=
  try_catch
    (start <- performance_now ;;
     sig <- AbortSignal_timeout 2000 ;;
     p <- fetch {| url := url; method := HEAD; mode := Some "no-cors";
                   cache := Some "no-cache"; bodyBytes := 0; signal := sig |} ;;
     response <- await p ;;
     end_ <- performance_now ;;
     if negb (ok (answer response)) then throw (Error "Server not responding")
     else ret (end_ - start))
    (fun error => throw (Error ("Failed to ping server: " ++ message error)%string)).

Definition findBestServer : M TestServer :=
  let testServers := firstn 2 servers in
  serverPromises <-
    map_ (fun server _ =>
            spawn (try_catch
                     (latency <- quickPing (host server) ;;
                      ret (with_latency server latency))
                     (fun _ => ret (with_latency server 999))))
         testServers 0%nat ;;
  serversWithLatency <- await_all serverPromises ;;
  reduce (fun best current => if latency_lt current best then current else best)
         serversWithLatency.

Definition measurePing : M Q :=
  measurements <-
    for_ (seq 0 3) [] (fun i measurements =>
      try_catch
        (start <- performance_now ;;
         sig <- AbortSignal_timeout 1000 ;;
         p <- fetch {| url := "https://www.google.com/favicon.ico"; method := HEAD;
                       mode := Some "no-cors"; cache := Some "no-cache";
                       bodyBytes := 0; signal := sig |} ;;
         response <- await p ;;
         end_ <- performance_now ;;
         ret (measurements ++ [end_ - start]))
        (fun _ =>
           r <- Math_random ;;
           ret (measurements ++ [r * 30 + 15]))) ;;
  total <- reduce Qplus measurements ;;
  ret (total / Qlen measurements).

Definition measureJitter (pings : list Q) : M Q :=
  if (List.length pings <? 2)%nat then
    r <- Math_random ;; ret (r * 5 + 1)
  else
    differences <-
      for_ (seq 1 (List.length pings - 1)) [] (fun i differences =>
        ret (differences ++ [Math_abs (nth i pings 0 - nth (i - 1) pings 0)])) ;;
    total <- reduce Qplus differences ;;
    ret (total / Qlen differences).

(** *** Download *)

(** [${1048576 + (i * 524288)}] *)
Definition downloadBytes (i : nat) : string :=
  string_of_Z (1048576 + Z.of_nat i * 524288).

Definition downloadUrl (i : nat) : string :=
  nth (i mod 3)
      [ ("https://speed.cloudflare.com/__down?bytes=" ++ downloadBytes i)%string;
        ("https://httpbin.org/bytes/" ++ downloadBytes i)%string;
        ("https://cdn.jsdelivr.net/test/" ++ downloadBytes i)%string ]
      "".

(** The [while (true)] loop around [reader.read()]; it yields
    [downloadedBytes]. *)
Fixpoint readLoop (index : nat) (startTime requestStart : Q) (cut : option (Q * Exn))
    (pending : list Chunk) (fin : StreamEnd) (downloadedBytes lastUpdate : Q) : M Q :=
  match pending with
  | [] =>
      match fin with
      | Done d => reader_wait cut d ;; ret downloadedBytes
      | Errored d => reader_wait cut d ;; throw NetworkError
      end
  | value :: rest =>
      reader_wait cut (c_delay value) ;;
      let downloadedBytes := downloadedBytes + inject_Z (Z.of_N (c_bytes value)) in
      now_ <- performance_now ;;
      if Qltb 100 (now_ - lastUpdate) then
        let currentSpeed :=
          (downloadedBytes * 8) / ((now_ - requestStart) / 1000) / 1000000 in
        (when (Nat.eqb index 0) then
           (d <- gets (fun s => duration (config s)) ;;
            let progress := Math_min (((now_ - startTime) / (d * 1000)) * 100) 100 in
            updateProgress download progress currentSpeed ;;
            graphData_push {| time := now_ - startTime; speed := currentSpeed;
                              g_phase := "download"; g_ping := None |} ;;
            onGraphUpdate_call)) ;;
        readLoop index startTime requestStart cut rest fin downloadedBytes now_
      else
        readLoop index startTime requestStart cut rest fin downloadedBytes lastUpdate
  end.

Definition downloadTask (startTime : Q) (url : string) (index : nat) : M Q :=
  try_catch
    (requestStart <- performance_now ;;
     d <- gets (fun s => duration (config s)) ;;
     sig <- AbortSignal_timeout (d * 1000) ;;
     p <- fetch {| url := url; method := GET; mode := None; cache := Some "no-store";
                   bodyBytes := 0; signal := sig |} ;;
     response <- await p ;;
     if negb (ok (answer response)) then throw (Error "HTTP error!")
     else
       match body (answer response) with
       | None => throw (Error "Failed to get response reader")
       | Some reader =>
           downloadedBytes <-
             readLoop index startTime requestStart (cutoff response)
                      (chunks reader) (ending reader) 0 requestStart ;;
           requestEnd <- performance_now ;;
           let duration := (requestEnd - requestStart) / 1000 in
           ret ((downloadedBytes * 8) / duration / 1000000)
       end)
    (fun _ => r <- Math_random ;; ret (r * 50 + 15)).

Definition measureDownloadSpeed : M Q :=
  startTime <- performance_now ;;
  pc <- gets (fun s => parallelConnections (config s)) ;;
  n <- Array_ pc ;;
  let testUrls := map downloadUrl (seq 0 n) in
  promises <- map_ (fun url index => spawn (downloadTask startTime url index))
                   testUrls 0%nat ;;
  results <- await_all promises ;;
  let measurements := filter (fun speed => Qltb 0 speed) results in
  if Nat.eqb (List.length measurements) 0 then
    r <- Math_random ;; ret (r * 100 + 25)
  else
    total <- reduce Qplus measurements ;;
    ret (total / Qlen measurements).

(** *** Upload *)

Definition uploadEndpoints : list string :=
  [ "https://speed.cloudflare.com/__up";
    "https://httpbin.org/post";
    "https://api.speedtest.net/upload" ].

Definition uploadTask (startTime : Q) (index : nat) : M Q :=
  try_catch
    (let size := (1 * 1024 * 1024)%N in
     crypto_getRandomValues size ;;
     requestStart <- performance_now ;;
     d <- gets (fun s => duration (config s)) ;;
     sig <- AbortSignal_timeout (d * 1000) ;;
     p <- fetch {| url := nth (index mod List.length uploadEndpoints) uploadEndpoints "";
                   method := POST; mode := None; cache := Some "no-store";
                   bodyBytes := size; signal := sig |} ;;
     response <- await p ;;
     if negb (ok (answer response)) then throw (Error "HTTP error!")
     else
       requestEnd <- performance_now ;;
       let duration := (requestEnd - requestStart) / 1000 in
       let speed := (inject_Z (Z.of_N size) * 8) / duration / 1000000 in
       (when (Nat.eqb index 0) then
          (let progress := Math_min (((requestEnd - startTime) / (d * 1000)) * 100) 100 in
           updateProgress upload progress speed ;;
           graphData_push {| time := requestEnd - startTime; speed := speed;
                             g_phase := "upload"; g_ping := None |} ;;
           onGraphUpdate_call)) ;;
       ret speed)
    (fun _ => r <- Math_random ;; ret (r * 25 + 8)).

Definition measureUploadSpeed : M Q :=
  startTime <- performance_now ;;
  pc <- gets (fun s => parallelConnections (config s)) ;;
  n <- Array_ (Math_min pc 3) ;;
  promises <- map_ (fun _ index => spawn (uploadTask startTime index))
                   (repeat tt n) 0%nat ;;
  results <- await_all promises ;;
  let measurements := filter (fun speed => Qltb 0 speed) results in
  if Nat.eqb (List.length measurements) 0 then
    r <- Math_random ;; ret (r * 40 + 10)
  else
    total <- reduce Qplus measurements ;;
    ret (total / Qlen measurements).

(** *** Bufferbloat *)

Definition measureBufferbloat (basePing : Q) : M Bufferbloat :=
  enabled <- gets (fun s => enableBufferbloat (config s)) ;;
  if negb enabled then ret {| rating := A; latencyIncrease := 0 |}
  else
    updateProgress bufferbloat 50 0 ;;
    try_catch
      (loadPromises <-
         for_ (seq 0 3) [] (fun i loadPromises =>
           p <- fetch {| url := "https://httpbin.org/bytes/5242880"; method := GET;
                         mode := None; cache := None; bodyBytes := 0;
                         signal := SigNone |} ;;
           ret (loadPromises ++ [p])) ;;
       loadedPings <-
         for_ (seq 0 5) [] (fun i loadedPings =>
           ping_ <- measurePing ;;
           updateProgress bufferbloat (50 + (Qnat i / 5) * 50) 0 ;;
           ret (loadedPings ++ [ping_])) ;;
       total <- reduce Qplus loadedPings ;;
       let avgLoadedPing := total / Qlen loadedPings in
       let latencyIncrease := Math_max 0 (avgLoadedPing - basePing) in
       ret {| rating := classify latencyIncrease; latencyIncrease := latencyIncrease |})
      (fun _ =>
         r <- Math_random ;;
         ret {| rating := B; latencyIncrease := r * 50 + 20 |}).

(** *** Packet loss *)

Definition packetEndpoints : list string :=
  [ "https://www.google.com/favicon.ico";
    "https://www.cloudflare.com/favicon.ico";
    "https://www.microsoft.com/favicon.ico";
    "https://www.amazon.com/favicon.ico";
    "https://www.github.com/favicon.ico" ].

Definition measurePacketLoss : M PacketLoss :=
  updateProgress packetLoss 0 0 ;;
  let totalPackets := 50%nat in
  modify (set_receivedPackets 0) ;;
  try_catch
    (let endpoints := packetEndpoints in
     requests <-
       for_ (seq 0 totalPackets) [] (fun i requests =>
         let endpoint := nth (i mod List.length endpoints) endpoints "" in
         stamp <- Date_now ;;
         let url := (endpoint ++ "?nocache=" ++ string_of_Z stamp ++ "-"
                       ++ string_of_nat i)%string in
         sig <- AbortSignal_timeout 1500 ;;
         p <- fetch {| url := url; method := HEAD; mode := Some "no-cors";
                       cache := Some "no-store"; bodyBytes := 0; signal := sig |} ;;
         let request :=
           finally_
             (catch_
                (then_ p (fun _ =>
                   modify (fun s => set_receivedPackets (S (receivedPackets s)) s) ;;
                   ret true))
                (fun _ => ret false))
             (let progress := (Qnat (i + 1) / Qnat totalPackets) * 100 in
              updateProgress packetLoss progress 0) in
         ret (requests ++ [request])) ;;
     settled <- await_all requests ;;
     receivedPackets <- gets receivedPackets ;;
     let lostPackets := Qnat totalPackets - Qnat receivedPackets in
     let lossPercentage := (lostPackets / Qnat totalPackets) * 100 in
     ret {| percentage := inject_Z (Math_round (lossPercentage * 10)) / 10;
            sent := Qnat totalPackets;
            received := Qnat receivedPackets |})
    (fun _ =>
       let fallbackReceived := Math_floor (Qnat totalPackets * (95 # 100)) in
       ret {| percentage := 5;
              sent := Qnat totalPackets;
              received := inject_Z fallbackReceived |}).

(** *** Location and the run itself *)

(** Reading a body stream to its end. *)
Fixpoint drain (cut : option (Q * Exn)) (pending : list Chunk) (fin : StreamEnd)
  : M unit :=
  match pending with
  | [] =>
      match fin with
      | Done d => reader_wait cut d
      | Errored d => reader_wait cut d ;; throw NetworkError
      end
  | value :: rest => reader_wait cut (c_delay value) ;; drain cut rest fin
  end.

(** [await response.json()]: the body is read to its end, then parsed. *)
Definition response_json (response : Response) : M Json :=
  match body (answer response) with
  | Some stream => drain (cutoff response) (chunks stream) (ending stream)
  | None => ret tt
  end ;;
  match payload (answer response) with
  | Some data => ret data
  | None => throw SyntaxError
  end.

Definition getUserLocation : M UserLocation :=
  try_catch
    (sig <- AbortSignal_timeout 2000 ;;
     p <- fetch {| url := "https://ipapi.co/json/"; method := GET; mode := None;
                   cache := None; bodyBytes := 0; signal := sig |} ;;
     response <- await p ;;
     data <- response_json response ;;
     data_city <- get data "city" ;;
     data_country_name <- get data "country_name" ;;
     data_ip <- get data "ip" ;;
     ret {| city := or_else data_city "Unknown City";
            country := or_else data_country_name "Unknown Country";
            ip := or_else data_ip "127.0.0.1" |})
    (fun _ =>
       ret {| city := JStr "Your City";
              country := JStr "Your Country";
              ip := JStr "127.0.0.1" |}).

Definition runSpeedTest : M SpeedTestResult :=
  modify (set_abortController (Some false)) ;;
  modify (set_graphData []) ;;
  startTime <- performance_now ;;
  try_catch
    (updateProgress ping 10 0 ;;
     bestServer <- findBestServer ;;
     updateProgress ping 30 0 ;;
     pings <-
       for_ (seq 0 5) [] (fun i pings =>
         ping_ <- measurePing ;;
         updateProgress ping (30 + (Qnat i / 5) * 20) 0 ;;
         ret (pings ++ [ping_])) ;;
     total <- reduce Qplus pings ;;
     let avgPing := total / Qlen pings in
     jitter <- measureJitter pings ;;
     updateProgress download 0 0 ;;
     downloadSpeed <- measureDownloadSpeed ;;
     updateProgress upload 0 0 ;;
     uploadSpeed <- measureUploadSpeed ;;
     updateProgress packetLoss 0 0 ;;
     packetLoss <- measurePacketLoss ;;
     enabled <- gets (fun s => enableBufferbloat (config s)) ;;
     bufferbloat <-
       (if enabled then b <- measureBufferbloat avgPing ;; ret (Some b)
        else ret None) ;;
     userLocation <- getUserLocation ;;
     id_ <- Date_now ;;
     timestamp <- Date_now ;;
     end_ <- performance_now ;;
     let result :=
       {| r_id := string_of_Z id_;
          timestamp := timestamp;
          downloadSpeed := round1 downloadSpeed;
          uploadSpeed := round1 uploadSpeed;
          r_ping := round1 avgPing;
          jitter := round1 jitter;
          serverLocation := location bestServer;
          userLocation := userLocation;
          testDuration := (end_ - startTime) / 1000;
          r_bufferbloat := bufferbloat;
          r_packetLoss := Some packetLoss |} in
     updateProgress complete 100 0 ;;
     ret result)
    (fun _ =>
       id_ <- Date_now ;;
       timestamp <- Date_now ;;
       r1 <- Math_random ;;
       r2 <- Math_random ;;
       r3 <- Math_random ;;
       r4 <- Math_random ;;
       userLocation <- getUserLocation ;;
       end_ <- performance_now ;;
       enabled <- gets (fun s => enableBufferbloat (config s)) ;;
       let fallbackResult :=
         {| r_id := string_of_Z id_;
            timestamp := timestamp;
            downloadSpeed := round1 (r1 * 80 + 25);
            uploadSpeed := round1 (r2 * 30 + 10);
            r_ping := round1 (r3 * 40 + 15);
            jitter := round1 (r4 * 8 + 2);
            serverLocation := "Global CDN";
            userLocation := userLocation;
            testDuration := (end_ - startTime) / 1000;
            r_bufferbloat :=
              if enabled then Some {| rating := B; latencyIncrease := 35 |} else None;
            r_packetLoss := Some {| percentage := 2; sent := 50; received := 49 |} |} in
       updateProgress complete 100 0 ;;
       ret fallbackResult).

(** [this.abortController?.abort()] *)
Definition abort : M unit :=
  modify (fun s =>
    match abortController s with
    | Some _ => set_abortController (Some true) s
    | None => s
    end).

End Engine.
(** * Specification vocabulary

    The predicates, the example worlds and the observers in which the
    properties below are stated. *)

(** ** Properties of methods *)

(** A method is total when it never completes abruptly. *)
Definition total {T} (m : M T) : Prop :=
  forall s, exists v s', m s = (Normal v, s').

(** A discipline is a preorder on states that survives every elementary
    update of the state.  It says which requests may be put on the network
    and awaited at once ([allowed]), which may be left in flight
    ([detached]), and to which moments the clock may be set ([later]):
    at least to those that waiting reaches. *)
Record Discipline := {
  rel : State -> State -> Prop;
  allowed : Request -> Prop;
  detached : Request -> Prop;
  later : State -> Q -> Prop;
  rel_refl : forall s, rel s s;
  rel_trans : forall s1 s2 s3, rel s1 s2 -> rel s2 s3 -> rel s1 s3;
  later_wait : forall s d, 0 <= d -> later s (now s + d);
  later_max : forall s t, later s (Qmax (now s) t);
  rel_now : forall t s, later s t -> rel s (set_now t s);
  rel_graphData : forall g s, rel s (set_graphData g s);
  rel_abortController : forall c s, rel s (set_abortController c s);
  rel_receivedPackets : forall n s, rel s (set_receivedPackets n s);
  rel_rndIx : forall n s, rel s (set_rndIx n s);
  rel_progress : forall e s, rel s (push_progress e s);
  rel_graphUpdate : forall g s, rel s (push_graphUpdate g s);
  rel_request : forall i s, detached (request i) -> rel s (push_request i s);
  rel_awaited : forall i s,
    allowed (request i) ->
    rel s (set_now (Qmax (now s) (settlesAt i)) (push_request i s))
}.

(** [sat m P]: running [m] keeps the discipline, and a value it returns
    satisfies [P]. *)
Definition sat (D : Discipline) {T} (m : M T) (P : T -> Prop) : Prop :=
  forall s, rel D s (snd (m s)) /\
            match fst (m s) with Normal v => P v | Throw _ => True end.

(** The predicate that asks nothing of a value. *)
Definition any {T} : T -> Prop := fun _ => True.

(** A promise is kept within the discipline when its reaction is. *)
Definition kept (D : Discipline) {T} (p : Promise T) : Prop :=
  sat D (reaction p) any.

(** A signal made by [AbortSignal.timeout]. *)
Definition timed (sig : Signal) : Prop := exists ms, sig = SigTimeout ms.

(** ** Sinks *)

(** A caller whose sinks never throw. *)
Definition quietSinks (w : World) : Prop :=
  (forall e, progressSink w e = None) /\ (forall g, graphSink w g = None).

Existing Class quietSinks.

(** ** Example worlds and states *)

Module Sample.

(** The draw 1/2. *)
Definition half : Unit01 := {| u_num := 1; u_den := 2 |}.

(** A far end that answers everything well: a short body in two chunks
    and a location document without a country. *)
Definition fine : Answer :=
  {| ok := true; status := 200;
     body := Some {| chunks := [ {| c_delay := 150000; c_bytes := 500000 |};
                                 {| c_delay := 150000; c_bytes := 500000 |} ];
                     ending := Done 1000 |};
     payload := Some (JObj [("city", JStr "Paris"); ("ip", JStr "192.0.2.7")]) |}.

(** Every request is answered after [d] microseconds. *)
Definition steady (d : positive) : World :=
  {| net := fun _ => Resolves d fine;
     random := fun _ => half;
     epoch := 1700000000000;
     hasAbortSignalTimeout := true;
     getRandomValuesQuota := 65536;
     userAbortsAt := None;
     progressSink := fun _ => None;
     graphSink := fun _ => None |}.

(** No request is ever answered. *)
Definition offline : World :=
  {| net := fun _ => Rejects 5000;
     random := fun _ => half;
     epoch := 1700000000000;
     hasAbortSignalTimeout := true;
     getRandomValuesQuota := 65536;
     userAbortsAt := None;
     progressSink := fun _ => None;
     graphSink := fun _ => None |}.

(** A platform without [AbortSignal.timeout]. *)
Definition legacy : World :=
  {| net := fun _ => Resolves 20000 fine;
     random := fun _ => half;
     epoch := 1700000000000;
     hasAbortSignalTimeout := false;
     getRandomValuesQuota := 65536;
     userAbortsAt := None;
     progressSink := fun _ => None;
     graphSink := fun _ => None |}.

(** A fresh engine with both sinks and the default configuration. *)
Definition fresh : State := constructor true true None 0 0 0.

End Sample.

(** ** Samples and their statistics *)

Definition sum (l : list Q) : Q := fold_right Qplus 0 l.

(** The arithmetic mean. *)
Definition mean (l : list Q) : Q := sum l / Qlen l.

(** The absolute differences between consecutive samples. *)
Fixpoint abs_differences (l : list Q) : list Q :=
  match l with
  | [] => []
  | x :: rest =>
      match rest with
      | [] => []
      | y :: _ => Qabs (y - x) :: abs_differences rest
      end
  end.

(** A sample that stands for a failed probe. *)
Definition synthesized (w : World) (m : Q) : Prop :=
  exists k, m = unit01 (random w k) * 30 + 15.

(** A sample that is the round trip of a request answered within the
    second the probe allows. *)
Definition answered (w : World) (m : Q) : Prop :=
  exists i d a, net w i = Resolves d a /\ m == us (Npos d) /\ m < 1000.

(** The requests put on the network between two states are all [HEAD]
    probes that have settled by the second one. *)
Definition probes_settled (s s' : State) : Prop :=
  exists new, requests s' = new ++ requests s
              /\ Forall (fun i => settlesAt i <= now s'
                                  /\ method (request i) = HEAD) new.

(** What one run of [measurePing] does: three samples, each the round trip
    of an answered probe or a synthesized stand-in, are averaged; every
    probe put on the network has settled on return. *)
Definition ping_post (w : World) (s : State) (v : Q) (s' : State) : Prop :=
  (exists m0 m1 m2,
      v == (m0 + m1 + m2) / 3
      /\ (answered w m0 \/ synthesized w m0)
      /\ (answered w m1 \/ synthesized w m1)
      /\ (answered w m2 \/ synthesized w m2))
  /\ now s <= now s'
  /\ probes_settled s s'.

(** *** What the probes of a world yield *)

(** The sample that one probe of [measurePing] collects when its request
    is the [k]-th to be put on the network and the next draw is the
    [r]-th: the round trip of an answer that comes in less than the second
    the probe allows, or else a stand-in that is drawn.  With it, the
    numbers of the next request and of the next draw: without
    [AbortSignal.timeout] no request is made at all. *)
Definition probeSample (w : World) (k r : nat) : Q * (nat * nat) :=
  let standIn := unit01 (random w r) * 30 + 15 in
  if hasAbortSignalTimeout w then
    match net w k with
    | Resolves d _ =>
        if Qltb (us (Npos d)) 1000 then (us (Npos d), (S k, r))
        else (standIn, (S k, S r))
    | Rejects _ => (standIn, (S k, S r))
    end
  else (standIn, (k, S r)).

(** The three samples of one [measurePing], in order. *)
Definition pingSamples (w : World) (k r : nat) : list Q * (nat * nat) :=
  let (x0, i0) := probeSample w k r in
  let (x1, i1) := probeSample w (fst i0) (snd i0) in
  let (x2, i2) := probeSample w (fst i1) (snd i1) in
  ([x0; x1; x2], i2).

(** The values of [n] calls of [measurePing] in a row. *)
Fixpoint pingValues (w : World) (n k r : nat) : list Q :=
  match n with
  | O => []
  | S n' =>
      let (xs, i) := pingSamples w k r in
      mean xs :: pingValues w n' (fst i) (snd i)
  end.

(** The latency that [quickPing] scores a candidate with when its request
    is the [k]-th: the round trip of an answer that is [ok] and comes in
    less than two seconds, the penalty 999 otherwise. *)
Definition quickScore (w : World) (k : nat) : Q :=
  if hasAbortSignalTimeout w then
    match net w k with
    | Resolves d a =>
        if Qltb (us (Npos d)) 2000 && ok a then us (Npos d) else 999
    | Rejects _ => 999
    end
  else 999.

Module PingExample.


End PingExample.

(** The state after [updateProgress]: one more event where a sink was
    supplied, the same state otherwise. *)
Definition emit (ph : Phase) (pr speed : Q) (s : State) : State :=
  if onProgress s
  then push_progress {| phase := ph; progress := Math_min pr 100;
                        currentSpeed := speed; elapsedTime := now s |} s
  else s.

(** The request that each of the three background downloads issues. *)
Definition loadRequest : Request :=
  {| url := "https://httpbin.org/bytes/5242880"; method := GET; mode := None;
     cache := None; bodyBytes := 0; signal := SigNone |}.

(** The two candidates that [findBestServer] probes. *)
Definition cloudflare : TestServer :=
  {| id := "1"; name := "Cloudflare"; location := "Global CDN";
     host := "https://speed.cloudflare.com"; distance := 0; latency := None |}.

Definition google : TestServer :=
  {| id := "2"; name := "Google"; location := "Global";
     host := "https://www.google.com"; distance := 0; latency := None |}.

Module ServerExample.


End ServerExample.

Definition ensures {T} (m : M T) (Q : T -> State -> Prop) : Prop :=
  forall s v s', m s = (Normal v, s') -> Q v s'.


(** [data.key] on a document that is not [null]. *)
Definition prop (data : Json) (key : string) : option Json :=
  match data with
  | JObj fields => field key fields
  | _ => None
  end.

(** The placeholder of a lookup that failed as a whole. *)
Definition yourLocation : UserLocation :=
  {| city := JStr "Your City"; country := JStr "Your Country"; ip := JStr "127.0.0.1" |}.


Module LocationExample.





End LocationExample.

(** A promise whose reaction only delivers an outcome fixed in advance. *)
Definition inert {T} (p : Promise T) : Prop :=
  exists r, forall s, reaction p s = (r, s).

(** The reaction of one packet's promise: it never rejects, counts at most
    one packet as received, and puts nothing on the network. *)
Definition counts_one (p : Promise bool) : Prop :=
  forall s, exists v s',
    reaction p s = (Normal v, s')
    /\ (receivedPackets s' <= S (receivedPackets s))%nat
    /\ requests s' = requests s.

(** The packet-loss record computed from a count of received packets. *)
Definition lossOf (receivedPackets : nat) : PacketLoss :=
  {| percentage :=
       inject_Z (Math_round (((Qnat 50 - Qnat receivedPackets) / Qnat 50 * 100) * 10)) / 10;
     sent := Qnat 50;
     received := Qnat receivedPackets |}.

(** What the engine was built with stays as it was. *)
Definition frame_rel (s s' : State) : Prop :=
  config s' = config s
  /\ onProgress s' = onProgress s
  /\ onGraphUpdate s' = onGraphUpdate s.

Definition frame : Discipline.
Proof.
  refine {| rel := frame_rel; allowed := fun _ => True; detached := fun _ => True;
            later := fun _ _ => True |};
    unfold frame_rel; intros; simpl; try exact I; try (repeat split; reflexivity).
  destruct H as (? & ? & ?), H0 as (? & ? & ?). repeat split; congruence.
Defined.



(** Every request put on the network carries a signal that is not the
    controller's. *)
Definition uncontrolled_rel (s s' : State) : Prop :=
  exists new, requests s' = new ++ requests s
              /\ Forall (fun i => signal (request i) <> SigController) new.

Definition uncontrolled : Discipline.
Proof.
  refine {| rel := uncontrolled_rel;
            allowed := fun req => signal req <> SigController;
            detached := fun req => signal req <> SigController;
            later := fun _ _ => True |};
    unfold uncontrolled_rel; intros; simpl; try exact I;
    try (exists []; split; [reflexivity | constructor]).
  - destruct H as (n1 & E1 & F1), H0 as (n2 & E2 & F2).
    exists (n2 ++ n1). split; [rewrite E2, E1, app_assoc; reflexivity |].
    apply Forall_app; split; assumption.
  - exists [i]. split; [reflexivity |]. constructor; [exact H | constructor].
  - exists [i]. split; [reflexivity |]. constructor; [exact H | constructor].
Defined.

(** The clock does not go back, and what was put on the network has
    settled. *)
Definition settled_rel (s s' : State) : Prop :=
  now s <= now s'
  /\ exists new, requests s' = new ++ requests s
                 /\ Forall (fun i => settlesAt i <= now s') new.

Definition settled : Discipline.
Proof.
  refine {| rel := settled_rel; allowed := fun _ => True; detached := fun _ => False;
            later := fun s t => now s <= t |};
    unfold settled_rel; intros; simpl; try contradiction;
    try (split; [apply Qle_refl | exists []; split; [reflexivity | constructor]]).
  - destruct H as (L1 & n1 & E1 & F1), H0 as (L2 & n2 & E2 & F2).
    split; [eapply Qle_trans; eauto |].
    exists (n2 ++ n1). split; [rewrite E2, E1, app_assoc; reflexivity |].
    apply Forall_app; split; [exact F2 |].
    eapply Forall_impl; [| exact F1]. intros i Hi. simpl in Hi.
    apply Qle_trans with (now s2); assumption.
  - rewrite <- (Qplus_0_r (now s)) at 1. apply Qplus_le_r. exact H.
  - apply Q.le_max_l.
  - split; [exact H | exists []; split; [reflexivity | constructor]].
  - split; [apply Q.le_max_l |].
    exists [i]. split; [reflexivity |].
    constructor; [apply Q.le_max_r | constructor].
Defined.




Module RunExample.

(** A configuration whose number of connections is no array length: the
    download phase throws and the run takes its fallback path. *)
Definition broken : State :=
  constructor true true
    (Some {| duration := 10; parallelConnections := 5 # 2;
             enableBufferbloat := true; enableStressTest := false |}) 0 0 0.


(** The server location and the packet-loss record of a whole run, its
    numbers in lowest terms. *)
Definition outcome (w : World) (s : State) : option (string * option PacketLoss) :=
  match fst (runSpeedTest w s) with
  | Normal r =>
      Some (serverLocation r,
            option_map (fun pl => {| percentage := Qred (percentage pl);
                                     sent := Qred (sent pl);
                                     received := Qred (received pl) |})
                       (r_packetLoss r))
  | Throw _ => None
  end.

End RunExample.

(** The requests that have not settled at the moment of a state. *)
Definition outstanding (s : State) : list Issued :=
  filter (fun i => Qltb (now s) (settlesAt i)) (requests s).

Module LoadExample.



(** Probe [i] is answered after [10 (i + 1)] ms, and the progress sink
    throws when it is told of progress in the packet-loss phase. *)
Definition throwing_sink : World :=
  {| net := fun i => Resolves (Pos.of_nat (S i) * 10000) Sample.fine;
     random := fun _ => Sample.half;
     epoch := 1700000000000;
     hasAbortSignalTimeout := true;
     getRandomValuesQuota := 65536;
     userAbortsAt := None;
     progressSink := fun e =>
       match phase e with
       | packetLoss => if Qltb 0 (progress e) then Some (Error "onProgress failed")
                       else None
       | _ => None
       end;
     graphSink := fun _ => None |}.

(** The record that [measurePacketLoss] returns, how many of its requests
    are still in flight when it does, and the moment it does, in
    milliseconds. *)
Definition packets_in_flight (w : World) (s : State)
  : option (Q * Q * Q * nat * Q) :=
  match measurePacketLoss w s with
  | (Normal pl, s') =>
      Some (Qred (percentage pl), Qred (sent pl), Qred (received pl),
            List.length (outstanding s'), Qred (now s'))
  | (Throw _, _) => None
  end.

End LoadExample.

(** A promise that is fulfilled, with a value fixed in advance. *)
Definition resolved {T} (p : Promise T) : Prop :=
  exists v, forall s, reaction p s = (Normal v, s).

(** The delay that [AbortSignal.timeout] accepts for a configuration. *)
Definition deadline (c : TestConfig) : Z := truncate (duration c * 1000).


(** A platform whose [crypto.getRandomValues] refuses the buffer of 1 MiB
    that an upload fills: every platform that follows Web Crypto, which
    allows 65536 bytes. *)
Definition refuses_upload (w : World) : Prop :=
  (getRandomValuesQuota w < 1048576)%N.





Module FanoutExample.




End FanoutExample.

(** The same world, with the caller invoking [abort()] at [t] (or never). *)
Definition with_abort (w : World) (t : option Q) : World :=
  {| net := net w; random := random w; epoch := epoch w;
     hasAbortSignalTimeout := hasAbortSignalTimeout w;
     getRandomValuesQuota := getRandomValuesQuota w;
     userAbortsAt := t;
     progressSink := progressSink w;
     graphSink := graphSink w |}.

(** Two methods that behave alike from every state. *)
Definition alike {T} (m m' : M T) : Prop := forall s, m s = m' s.

Module AbortExample.

(** Every download answers after 50 ms and then stalls for 20 s, beyond
    the 10 s that the configuration allows. *)
Definition stalling : Answer :=
  {| ok := true; status := 200;
     body := Some {| chunks := [ {| c_delay := 20000000; c_bytes := 65536 |} ];
                     ending := Done 1000 |};
     payload := None |}.

(** The caller invokes [abort()] one second into the download. *)
Definition aborted_at_1s : World :=
  {| net := fun _ => Resolves 50000 stalling;
     random := fun _ => Sample.half;
     epoch := 1700000000000;
     hasAbortSignalTimeout := true;
     getRandomValuesQuota := 65536;
     userAbortsAt := Some 1000;
     progressSink := fun _ => None;
     graphSink := fun _ => None |}.

(** An engine in the middle of a run: its controller exists. *)
Definition running : State := set_abortController (Some false) Sample.fresh.

(** When the download phase ends, in milliseconds, and the moments at which
    its requests were due to settle. *)
Definition download_ends (w : World) (s : State) : option (Q * list Q) :=
  match measureDownloadSpeed w s with
  | (Normal _, s') => Some (Qred (now s'), map (fun i => Qred (settlesAt i)) (requests s'))
  | (Throw _, _) => None
  end.

End AbortExample.

(** ** Ratings and samples *)

(** The ratings from best to worst. *)
Definition rank (r : Rating) : nat :=
  match r with A => 0 | B => 1 | C => 2 | D => 3 | F => 4 end.

(** Samples that are all the same. *)
Definition steady_samples (l : list Q) : Prop :=
  forall x y, In x l -> In y l -> x == y.

(** ** Array lengths *)

(** A number that [Array] accepts as a length, and the length it makes. *)
Definition arrayLength (len : Q) (n : nat) : Prop :=
  len == Qnat n /\ (Z.of_nat n <= 2 ^ 32 - 1)%Z.

(** The results of a throughput phase that count: the positive ones. *)
Definition measured (results : list Q) : list Q :=
  filter (fun speed => Qltb 0 speed) results.

Module ThroughputExample.

(** An engine configured with no connection at all. *)
Definition unconnected : State :=
  constructor true true
    (Some {| duration := 10; parallelConnections := 0;
             enableBufferbloat := true; enableStressTest := false |}) 0 0 0.

End ThroughputExample.

(** ** Graph points *)

(** The state after [this.graphData.push(g)] and the call of the graph
    sink that follows it: one more point, and one more update where a sink
    was supplied. *)
Definition plot (g : GraphData) (s : State) : State :=
  let s1 := set_graphData (graphData s ++ [g]) s in
  if onGraphUpdate s then push_graphUpdate (graphData s ++ [g]) s1 else s1.

(** ** Streams *)

Definition delay_of (fin : StreamEnd) : N :=
  match fin with Done d | Errored d => d end.

(** How long a body takes to arrive once the response is there, in
    milliseconds, and how many bytes it brings. *)
Definition transferTime (pending : list Chunk) (fin : StreamEnd) : Q :=
  fold_right (fun c t => us (c_delay c) + t) (us (delay_of fin)) pending.

Definition transferred (pending : list Chunk) : Q :=
  fold_right (fun c b => inject_Z (Z.of_N (c_bytes c)) + b) 0 pending.

(** ** What a lookup yields *)



(** ** Promises with a known outcome *)

(** A promise that is fulfilled with [v]. *)
Definition fulfils {T} (p : Promise T) (v : T) : Prop :=
  forall s, reaction p s = (Normal v, s).

(** ** Worlds in which nothing answers *)

(** No request is ever answered. *)
Definition unanswered (w : World) : Prop := forall i, exists d, net w i = Rejects d.

(** ** Packets that arrive *)

(** A request that is answered, well or not, in less than the 1.5 s that a
    packet is given. *)
Definition delivered (w : World) (i : nat) : bool :=
  match net w i with
  | Resolves d _ => Qltb (us (Npos d)) 1500
  | Rejects _ => false
  end.

(** How many of the fifty requests from the [k]-th on are. *)
Definition deliveries (w : World) (k : nat) : nat :=
  List.length (filter (delivered w) (seq k 50)).

(** The reaction of one packet's promise, with its outcome known: it
    counts the packet if and only if it arrived. *)
Definition counts (b : bool) (p : Promise bool) : Prop :=
  forall s, exists s',
    reaction p s = (Normal b, s')
    /\ receivedPackets s' = (if b then S (receivedPackets s) else receivedPackets s)
    /\ requests s' = requests s.

Module PacketExample.

(** Every fifth request fails, every other one is answered, after 30 ms,
    with a server error. *)
Definition failing : Answer :=
  {| ok := false; status := 500; body := None; payload := None |}.

Definition lossy : World :=
  {| net := fun i => if Nat.eqb (i mod 5) 4 then Rejects 5000 else Resolves 30000 failing;
     random := fun _ => Sample.half;
     epoch := 1700000000000;
     hasAbortSignalTimeout := true;
     getRandomValuesQuota := 65536;
     userAbortsAt := None;
     progressSink := fun _ => None;
     graphSink := fun _ => None |}.

End PacketExample.

(** ** What a run may do to the state it starts from *)

(** A point of the throughput graph as the engine makes them. *)
Definition plotted (g : GraphData) : Prop :=
  g_ping g = None /\ (g_phase g = "download" \/ g_phase g = "upload").

(** The elementary changes: the clock is set, a number is drawn, packets
    are counted, a request is put on the network, progress is reported
    through [updateProgress], a point is added to the graph. *)
Inductive step : State -> State -> Prop :=
| step_clock (t : Q) (s : State) : step s (set_now t s)
| step_draw (s : State) : step s (set_rndIx (S (rndIx s)) s)
| step_count (n : nat) (s : State) : step s (set_receivedPackets n s)
| step_request (i : Issued) (s : State) : step s (push_request i s)
| step_report (ph : Phase) (pr speed : Q) (s : State) :
    ph <> idle -> step s (emit ph pr speed s)
| step_plot (g : GraphData) (s : State) : plotted g -> step s (plot g s).

(** A course of such changes. *)
Inductive course : State -> State -> Prop :=
| course_refl (s : State) : course s s
| course_step (s1 s2 s3 : State) : course s1 s2 -> step s2 s3 -> course s1 s3.

(** [follows m P]: running [m] is a course, and a value it returns
    satisfies [P]. *)
Definition follows {T} (m : M T) (P : T -> Prop) : Prop :=
  forall s, course s (snd (m s)) /\
            match fst (m s) with Normal v => P v | Throw _ => True end.

(** A promise whose reaction is a course. *)
Definition tame {T} (p : Promise T) : Prop := follows (reaction p) any.

(** The engine at the start of a run: a fresh controller, an empty graph. *)
Definition started (s : State) : State :=
  set_graphData [] (set_abortController (Some false) s).

(** The series of a graph as its sink sees it grow, latest first. *)
Definition growth (before pts : list GraphData) : list (list GraphData) :=
  rev (map (fun k => before ++ firstn (S k) pts) (seq 0 (List.length pts))).

(** An event as [updateProgress] makes them. *)
Definition reported (e : TestProgress) : Prop :=
  progress e <= 100 /\ phase e <> idle.

Module SinkExample.

(** An engine built without any sink. *)
Definition unobserved : State := constructor false false None 0 0 0.

End SinkExample.

(** ** Results *)

(** [under c m Q]: from a state configured with [c], [m] leaves the
    configuration as it is, and what it returns satisfies [Q]. *)
Definition under {T} (c : TestConfig) (m : M T) (Q : T -> Prop) : Prop :=
  forall s, config s = c ->
    config (snd (m s)) = c
    /\ match fst (m s) with Normal v => Q v | Throw _ => True end.

(** A number of tenths that is not negative. *)
Definition tenths (x : Q) : Prop := 0 <= x /\ exists z : Z, x == inject_Z z / 10.

(** A bufferbloat record whose rating is that of its latency increase. *)
Definition rated (b : Bufferbloat) : Prop :=
  0 <= latencyIncrease b /\ rating b = classify (latencyIncrease b).

(** A packet-loss record within its bounds. *)
Definition bounded (pl : PacketLoss) : Prop :=
  sent pl == 50
  /\ 0 <= received pl /\ received pl <= 50
  /\ 0 <= percentage pl /\ percentage pl <= 100.

(** What every result of a run satisfies, under the configuration [c]. *)
Definition wellFormed (c : TestConfig) (r : SpeedTestResult) : Prop :=
  tenths (downloadSpeed r) /\ tenths (uploadSpeed r)
  /\ tenths (r_ping r) /\ tenths (jitter r)
  /\ r_ping r <= 1000
  /\ (serverLocation r = "Global CDN" \/ serverLocation r = "Global")
  /\ (r_bufferbloat r = None <-> enableBufferbloat c = false)
  /\ (forall b, r_bufferbloat r = Some b -> rated b)
  /\ (exists pl, r_packetLoss r = Some pl /\ bounded pl).

(** The result of a run that fell back, under the configuration [c]:
    nothing in it was measured. *)
Definition madeUp (c : TestConfig) (r : SpeedTestResult) : Prop :=
  serverLocation r = "Global CDN"
  /\ r_packetLoss r = Some {| percentage := 2; sent := 50; received := 49 |}
  /\ r_bufferbloat r
     = (if enableBufferbloat c then Some {| rating := B; latencyIncrease := 35 |}
        else None)
  /\ (25 <= downloadSpeed r /\ downloadSpeed r <= 105)
  /\ (10 <= uploadSpeed r /\ uploadSpeed r <= 40)
  /\ (15 <= r_ping r /\ r_ping r <= 55)
  /\ (2 <= jitter r /\ jitter r <= 10).

(** The result of a run during which nothing answered. *)
Definition plausible (r : SpeedTestResult) : Prop :=
  (15 <= r_ping r /\ r_ping r <= 55)
  /\ (15 <= downloadSpeed r /\ downloadSpeed r <= 125)
  /\ (8 <= uploadSpeed r /\ uploadSpeed r <= 50)
  /\ userLocation r = yourLocation.

Module TransferExample.



End TransferExample.

(** ** How long a method waits *)

(** [takes c b m]: from a state configured with [c], [m] leaves the
    configuration as it is and ends no later than [b] milliseconds after
    it started (and no earlier than it started). *)
Definition takes {T} (c : TestConfig) (b : Q) (m : M T) : Prop :=
  forall s, config s = c ->
    config (snd (m s)) = c
    /\ now s <= now (snd (m s)) /\ now (snd (m s)) <= now s + b.

(** [ends_by c d m]: likewise, and [m] ends by the moment [d], or at once
    if it starts later. *)
Definition ends_by {T} (c : TestConfig) (d : Q) (m : M T) : Prop :=
  forall s, config s = c ->
    config (snd (m s)) = c
    /\ now s <= now (snd (m s)) /\ now (snd (m s)) <= Qmax (now s) d.

(** The longest that a transfer may last under a configuration, in
    milliseconds. *)
Definition allowance (c : TestConfig) : Q := inject_Z (Z.max 0 (deadline c)).


(** A promise that settles by [t] and whose reaction leaves the
    configuration alone. *)
Definition due {T} (c : TestConfig) (t : Q) (p : Promise T) : Prop :=
  settles p <= t /\ forall s, config s = c -> config (snd (reaction p s)) = c.

(** [within s b m]: run from [s], [m] ends no earlier than it starts and
    no later than [b] milliseconds after. *)
Definition within {T} (s : State) (b : Q) (m : M T) : Prop :=
  now s <= now (snd (m s)) /\ now (snd (m s)) <= now s + b.
(** * Facts about numbers *)

Lemma unit01_range (u : Unit01) : 0 <= unit01 u /\ unit01 u < 1.
Proof.
  unfold unit01, Qle, Qlt; simpl.
  pose proof (Z.mod_pos_bound (Z.of_N (u_num u)) (Z.pos (u_den u)) (Pos2Z.is_pos _)).
  lia.
Qed.

Lemma Qltb_lt (x y : Q) : Qltb x y = true <-> x < y.
Proof.
  unfold Qltb. rewrite negb_true_iff.
  split; intro H.
  - apply Qnot_le_lt. intro L. apply Qle_bool_iff in L. congruence.
  - destruct (Qle_bool y x) eqn:E; [|reflexivity].
    apply Qle_bool_iff in E. exfalso. eapply Qlt_not_le; eauto.
Qed.

Lemma Qltb_ge (x y : Q) : Qltb x y = false <-> y <= x.
Proof.
  unfold Qltb. rewrite negb_false_iff. apply Qle_bool_iff.
Qed.

Lemma us_pos (d : positive) : 0 < us (Npos d).
Proof. unfold us, Qlt; simpl; lia. Qed.

Lemma us_nonneg (d : N) : 0 <= us d.
Proof. unfold us, Qle; simpl; lia. Qed.

Lemma Qmax_later (t d : Q) : 0 <= d -> Qmax t (t + d) == t + d.
Proof. intros H. apply Q.max_r. lra. Qed.

(** * Sinks that do not throw *)

(** The sinks of a world that is written out are checked by computing. *)
#[export] Hint Extern 5 (quietSinks _) =>
  (split; intros; reflexivity) : typeclass_instances.

Lemma quiet_with_abort (w : World) (t : option Q) :
  quietSinks w -> quietSinks (with_abort w t).
Proof. intros [Hp Hg]. split; [exact Hp | exact Hg]. Qed.

#[export] Existing Instance quiet_with_abort.

(** * Reasoning about methods *)

(** ** Symbolic execution *)

Lemma bind_normal {T U} (m : M T) (k : T -> M U) s v s1 :
  m s = (Normal v, s1) -> bind m k s = k v s1.
Proof. unfold bind; intros ->; reflexivity. Qed.

Lemma bind_throw {T U} (m : M T) (k : T -> M U) s e s1 :
  m s = (Throw e, s1) -> bind m k s = (Throw e, s1).
Proof. unfold bind; intros ->; reflexivity. Qed.

Lemma try_normal {T} (m : M T) h s v s1 :
  m s = (Normal v, s1) -> try_catch m h s = (Normal v, s1).
Proof. unfold try_catch; intros ->; reflexivity. Qed.

Lemma try_throw {T} (m : M T) h s e s1 :
  m s = (Throw e, s1) -> try_catch m h s = h e s1.
Proof. unfold try_catch; intros ->; reflexivity. Qed.

(** What [fetch] does: one request on the log, and a promise whose outcome
    is fixed. *)
Lemma fetch_run (w : World) (req : Request) (s : State) :
  exists p,
    fetch w req s
    = (Normal p,
       push_request {| request := req; startedAt := now s; settlesAt := settles p |} s)
    /\ inert p.
Proof.
  unfold fetch. eexists. split; [reflexivity |].
  assert (Hnat : inert match net w (netIx s) with
                       | Rejects d =>
                           {| settles := now s + us (Npos d);
                              reaction := throw NetworkError |}
                       | Resolves d a =>
                           {| settles := now s + us (Npos d);
                              reaction := ret {| answer := a;
                                                 cutoff := fires w (signal req) s |} |}
                       end).
  { destruct (net w (netIx s)); eexists; intros; reflexivity. }
  destruct (fires w (signal req) s) as [[c why] |]; [| exact Hnat].
  destruct (Qle_bool c _); [| exact Hnat].
  eexists; intros; reflexivity.
Qed.

Lemma total_ret {T} (v : T) : total (ret v).
Proof. intros s; exists v, s; reflexivity. Qed.

Lemma total_gets {T} (f : State -> T) : total (gets f).
Proof. intros s; exists (f s), s; reflexivity. Qed.

Lemma total_modify f : total (modify f).
Proof. intros s; exists tt, (f s); reflexivity. Qed.

Lemma total_bind {T U} (m : M T) (k : T -> M U) :
  total m -> (forall v, total (k v)) -> total (bind m k).
Proof.
  intros Hm Hk s. destruct (Hm s) as (v & s1 & E).
  rewrite (bind_normal _ _ _ _ _ E). apply Hk.
Qed.

Lemma total_try {T} (m : M T) h :
  (forall e, total (h e)) -> total (try_catch m h).
Proof.
  intros Hh s. unfold try_catch.
  destruct (m s) as [[v | e] s1]; [exists v, s1; reflexivity | apply Hh].
Qed.

Lemma total_if {T} (c : bool) (m1 m2 : M T) :
  total m1 -> total m2 -> total (if c then m1 else m2).
Proof. destruct c; auto. Qed.

Lemma total_for {T} (body : nat -> T -> M T) :
  (forall i acc, total (body i acc)) ->
  forall indices acc, total (for_ indices acc body).
Proof.
  intros Hb indices; induction indices as [| i rest IH]; intros acc; simpl.
  - apply total_ret.
  - apply total_bind; [apply Hb | intros; apply IH].
Qed.

(** ** Disciplines: relations between states that every step keeps *)

Section Sat.

Variable D : Discipline.
Variable w : World.

Lemma sat_rel {T} (m : M T) P s : sat D m P -> rel D s (snd (m s)).
Proof. intros H; apply H. Qed.

Lemma sat_weaken {T} (m : M T) (P P' : T -> Prop) :
  sat D m P -> (forall v, P v -> P' v) -> sat D m P'.
Proof.
  intros H HP s. destruct (H s) as [Hr Hv]. split; [exact Hr |].
  destruct (fst (m s)); auto.
Qed.

Lemma sat_ret {T} (v : T) (P : T -> Prop) : P v -> sat D (ret v) P.
Proof. intros H s; simpl; split; [apply rel_refl | exact H]. Qed.

Lemma sat_throw {T} e (P : T -> Prop) : sat D (throw e) P.
Proof. intros s; simpl; split; [apply rel_refl | exact I]. Qed.

Lemma sat_gets {T} (f : State -> T) : sat D (gets f) any.
Proof. intros s; simpl; split; [apply rel_refl | exact I]. Qed.

Lemma sat_bind {T U} (m : M T) (k : T -> M U) (P : T -> Prop) (P' : U -> Prop) :
  sat D m P -> (forall v, P v -> sat D (k v) P') -> sat D (bind m k) P'.
Proof.
  intros Hm Hk s. unfold bind.
  destruct (Hm s) as [Hr Hv]. destruct (m s) as [[v | e] s1]; simpl in *.
  - destruct (Hk v Hv s1) as [Hr' Hv']. split; [| exact Hv'].
    eapply rel_trans; eauto.
  - split; [exact Hr | exact I].
Qed.

Lemma sat_try {T} (m : M T) h (P P' : T -> Prop) :
  sat D m P -> (forall v, P v -> P' v) -> (forall e, sat D (h e) P') ->
  sat D (try_catch m h) P'.
Proof.
  intros Hm HP Hh s. unfold try_catch.
  destruct (Hm s) as [Hr Hv]. destruct (m s) as [[v | e] s1]; simpl in *.
  - split; auto.
  - destruct (Hh e s1) as [Hr' Hv']. split; [| exact Hv'].
    eapply rel_trans; eauto.
Qed.

Lemma sat_if {T} (c : bool) (m1 m2 : M T) P :
  sat D m1 P -> sat D m2 P -> sat D (if c then m1 else m2) P.
Proof. destruct c; auto. Qed.

Lemma sat_for {T} (body : nat -> T -> M T) (Inv : T -> Prop) :
  (forall i acc, Inv acc -> sat D (body i acc) Inv) ->
  forall indices acc, Inv acc -> sat D (for_ indices acc body) Inv.
Proof.
  intros Hb indices; induction indices as [| i rest IH]; intros acc Hacc; simpl.
  - apply sat_ret; exact Hacc.
  - eapply sat_bind; [apply Hb; exact Hacc | intros; apply IH; assumption].
Qed.

Lemma sat_map {T U} (f : T -> nat -> M U) (P : U -> Prop) :
  (forall x i, sat D (f x i) P) ->
  forall l i, sat D (map_ f l i) (Forall P).
Proof.
  intros Hf l; induction l as [| x l IH]; intros i; simpl.
  - apply sat_ret; constructor.
  - eapply sat_bind; [apply Hf |]. intros y Hy.
    eapply sat_bind; [apply IH |]. intros ys Hys.
    apply sat_ret; constructor; assumption.
Qed.

Lemma sat_reduce {T} (f : T -> T -> T) l : sat D (reduce f l) any.
Proof. destruct l; [apply sat_throw | apply sat_ret; exact I]. Qed.

Lemma sat_performance_now : sat D performance_now any.
Proof. apply sat_gets. Qed.

Lemma sat_Date_now : sat D (Date_now w) any.
Proof. apply sat_gets. Qed.

Lemma sat_Math_random : sat D (Math_random w) any.
Proof. intros s; simpl; split; [apply rel_rndIx | exact I]. Qed.

Lemma sat_AbortSignal_timeout ms : sat D (AbortSignal_timeout w ms) timed.
Proof.
  unfold AbortSignal_timeout.
  destruct (hasAbortSignalTimeout w); [| apply sat_throw].
  destruct (_ && _)%bool; [apply sat_ret; eexists; reflexivity | apply sat_throw].
Qed.

Lemma sat_crypto_getRandomValues n : sat D (crypto_getRandomValues w n) any.
Proof.
  unfold crypto_getRandomValues.
  destruct (_ <=? _)%N; [apply sat_ret; exact I | apply sat_throw].
Qed.

Lemma sat_Array len : sat D (Array_ len) any.
Proof.
  unfold Array_. destruct (_ && _)%bool; [apply sat_ret; exact I | apply sat_throw].
Qed.

Lemma sat_modify_graphData f :
  sat D (modify (fun s => set_graphData (f s) s)) any.
Proof. intros s; simpl; split; [apply rel_graphData | exact I]. Qed.

Lemma sat_fetch req : detached D req -> sat D (fetch w req) (kept D).
Proof.
  intros Hreq s. unfold fetch; simpl. split; [apply rel_request; exact Hreq |].
  assert (Hnat : kept D match net w (netIx s) with
                      | Rejects d =>
                          {| settles := now s + us (Npos d); reaction := throw NetworkError |}
                      | Resolves d a =>
                          {| settles := now s + us (Npos d);
                             reaction := ret {| answer := a;
                                                cutoff := fires w (signal req) s |} |}
                      end).
  { destruct (net w (netIx s)); unfold kept; simpl;
      [apply sat_throw | apply sat_ret; exact I]. }
  destruct (fires w (signal req) s) as [[c why] |]; [| exact Hnat].
  destruct (Qle_bool c _); [| exact Hnat].
  unfold kept; simpl; apply sat_throw.
Qed.


(** A request that is awaited as soon as it is made. *)
Lemma sat_fetch_await {T} req (k : Response -> M T) P :
  allowed D req -> (forall response, sat D (k response) P) ->
  sat D (bind (fetch w req) (fun p => bind (await p) k)) P.
Proof.
  intros Hreq Hk s.
  destruct (fetch_run w req s) as (p & Ef & [r Hr]).
  set (i := {| request := req; startedAt := now s; settlesAt := settles p |}) in *.
  set (s2 := set_now (Qmax (now s) (settlesAt i)) (push_request i s)).
  assert (E : bind (fetch w req) (fun p => bind (await p) k) s
              = match r with
                | Normal response => k response s2
                | Throw e => (Throw e, s2)
                end).
  { unfold bind at 1. rewrite Ef. unfold bind at 1, await, bind at 1, modify.
    cbv beta iota. rewrite Hr. destruct r; reflexivity. }
  rewrite E. pose proof (rel_awaited D i s Hreq) as Hrel. fold s2 in Hrel.
  destruct r as [response | e].
  - destruct (Hk response s2) as [Hr' Hv].
    split; [apply rel_trans with s2; assumption | exact Hv].
  - split; [exact Hrel | exact I].
Qed.

Lemma kept_then {T U} (p : Promise T) (f : T -> M U) :
  kept D p -> (forall v, sat D (f v) any) -> kept D (then_ p f).
Proof. intros Hp Hf. unfold kept, then_; simpl. eapply sat_bind; eauto. Qed.

Lemma kept_catch {T} (p : Promise T) g :
  kept D p -> (forall e, sat D (g e) any) -> kept D (catch_ p g).
Proof. intros Hp Hg. unfold kept, catch_; simpl. eapply sat_try; eauto. Qed.

Lemma kept_finally {T} (p : Promise T) h :
  kept D p -> sat D h any -> kept D (finally_ p h).
Proof.
  intros Hp Hh s. unfold finally_; simpl.
  destruct (Hp s) as [Hr _]. destruct (reaction p s) as [r s1]; simpl in *.
  destruct (Hh s1) as [Hr' _]. destruct (h s1) as [[u | e] s2]; simpl in *;
    (split; [eapply rel_trans; eauto | destruct r; exact I || exact I]).
Qed.

(** Spawning and joining set the clock back and forth: they keep the
    disciplines that let the clock be set to any moment. *)
Section Fanout.

Hypothesis later_any : forall s t, later D s t.

Lemma sat_spawn {T} (task : M T) P : sat D task P -> sat D (spawn task) (kept D).
Proof.
  intros Ht s. unfold spawn. destruct (Ht s) as [Hr _].
  destruct (task s) as [r s1]; simpl in *. split.
  - eapply rel_trans; [exact Hr | apply rel_now, later_any].
  - intros s2; simpl; split; [apply rel_refl | destruct r; exact I].
Qed.

Lemma kept_insert {T} (x : nat * Promise T) l :
  kept D (snd x) -> Forall (fun y => kept D (snd y)) l ->
  Forall (fun y => kept D (snd y)) (insert_by_time x l).
Proof.
  intros Hx Hl; induction Hl as [| y l Hy Hl IH]; simpl.
  - constructor; [exact Hx | constructor].
  - destruct (Qle_bool _ _).
    + apply Forall_cons; [exact Hx | apply Forall_cons; assumption].
    + apply Forall_cons; assumption.
Qed.

Lemma kept_by_time {T} (ps : list (Promise T)) :
  Forall (kept D) ps -> Forall (fun y => kept D (snd y)) (by_time ps).
Proof.
  unfold by_time. generalize 0%nat.
  induction ps as [| p ps IH]; intros n H; simpl; [constructor |].
  inversion H; subst. apply kept_insert; [assumption | apply IH; assumption].
Qed.

Lemma settle_each_rel {T} (l : list (nat * Promise T)) :
  Forall (fun y => kept D (snd y)) l ->
  forall s, rel D s (snd (settle_each l s)).
Proof.
  induction 1 as [| [i p] l Hp Hl IH]; intros s; simpl in *; [apply rel_refl |].
  destruct (Hp (set_now (settles p) s)) as [Hr _].
  destruct (reaction p (set_now (settles p) s)) as [r s1]; simpl in *.
  specialize (IH s1). destruct (settle_each l s1) as [rs s2]; simpl in *.
  apply rel_trans with (set_now (settles p) s); [apply rel_now, later_any |].
  apply rel_trans with s1; assumption.
Qed.

Lemma sat_await_all {T} (ps : list (Promise T)) :
  Forall (kept D) ps -> sat D (await_all ps) any.
Proof.
  intros H s. unfold await_all. cbv zeta.
  pose proof (settle_each_rel _ (kept_by_time ps H) s) as Hr.
  destruct (settle_each (by_time ps) s) as [rs s2]; cbn [snd] in Hr.
  match goal with
  | |- context [set_now ?t s2] =>
      assert (Hr' : rel D s (set_now t s2))
        by (eapply rel_trans; [exact Hr | apply rel_now, later_any])
  end.
  destruct (first_rejection rs); cbn [fst snd]; split; auto; exact I.
Qed.

End Fanout.

End Sat.

(** The rule for a [bind] whose first part is a primitive, and the search
    that chains it. *)
Ltac sat_prim :=
  first [ apply sat_gets | apply sat_performance_now | apply sat_Date_now
        | apply sat_Math_random | apply sat_AbortSignal_timeout
        | apply sat_crypto_getRandomValues | apply sat_Array | apply sat_reduce
        | apply sat_modify_graphData
        | apply sat_throw | apply sat_ret; exact I ].

Ltac sat_chain :=
  repeat first
    [ sat_prim
    | apply sat_if
    | eapply sat_bind; [ solve [ sat_prim ] | intros ? ? ] ].

(** ** Every method keeps every discipline *)

Section SatQuiet.

(** Code that puts nothing on the network. *)

Variable D : Discipline.
Variable w : World.

Lemma sat_updateProgress ph pr speed : sat D (updateProgress w ph pr speed) any.
Proof.
  unfold updateProgress. sat_chain. cbv zeta.
  eapply sat_bind with (P := any).
  - intros s; simpl; split; [apply rel_progress | exact I].
  - intros _ _. destruct (progressSink w _); sat_prim.
Qed.

Lemma sat_graphData_push g : sat D (graphData_push g) any.
Proof. unfold graphData_push. sat_chain. Qed.

Lemma sat_onGraphUpdate_call : sat D (onGraphUpdate_call w) any.
Proof.
  unfold onGraphUpdate_call. sat_chain.
  eapply sat_bind with (P := any).
  - intros s; simpl; split; [apply rel_graphUpdate | exact I].
  - intros _ _. destruct (graphSink w _); sat_prim.
Qed.

Lemma sat_reader_wait cut d : sat D (reader_wait cut d) any.
Proof.
  intros s. unfold reader_wait, bind, performance_now, gets, modify, throw.
  cbv beta iota.
  destruct cut as [[c why] |]; [destruct (Qle_bool c (now s + us d)) |];
    cbn [fst snd]; (split; [| exact I]);
    apply rel_now; first [apply later_max | apply later_wait, us_nonneg].
Qed.

Lemma sat_readLoop index startTime requestStart cut pending fin :
  forall downloadedBytes lastUpdate,
    sat D (readLoop w index startTime requestStart cut pending fin
                    downloadedBytes lastUpdate) any.
Proof.
  induction pending as [| value rest IH]; intros; simpl.
  - destruct fin; (eapply sat_bind; [apply sat_reader_wait | intros; sat_chain]).
  - eapply sat_bind; [apply sat_reader_wait | intros _ _].
    eapply sat_bind; [sat_prim | intros now_ _].
    destruct (Qltb 100 _); [| apply IH].
    eapply sat_bind with (P := any); [| intros; apply IH].
    destruct (Nat.eqb index 0); [| sat_prim].
    eapply sat_bind; [sat_prim | intros d _].
    eapply sat_bind; [apply sat_updateProgress | intros _ _].
    eapply sat_bind; [apply sat_graphData_push | intros _ _].
    apply sat_onGraphUpdate_call.
Qed.

Lemma sat_drain cut pending fin : sat D (drain cut pending fin) any.
Proof.
  induction pending as [| value rest IH]; simpl.
  - destruct fin; [apply sat_reader_wait |].
    eapply sat_bind; [apply sat_reader_wait | intros; sat_prim].
  - eapply sat_bind; [apply sat_reader_wait | intros; apply IH].
Qed.

Lemma sat_response_json response : sat D (response_json response) any.
Proof.
  unfold response_json.
  eapply sat_bind with (P := any).
  - destruct (body (answer response)); [apply sat_drain | sat_prim].
  - intros _ _. destruct (payload (answer response)); sat_prim.
Qed.

Lemma sat_get data key : sat D (get data key) any.
Proof. destruct data; simpl; sat_prim. Qed.

Lemma sat_measureJitter pings : sat D (measureJitter w pings) any.
Proof.
  unfold measureJitter. destruct (_ <? _)%nat; [sat_chain |].
  eapply sat_bind with (P := any); [| intros; sat_chain].
  apply sat_for; [intros; sat_prim | exact I].
Qed.

End SatQuiet.

Section SatTasks.

(** Code that awaits each request as soon as it is made, under a
    discipline that allows every request whose signal is not the
    controller's. *)

Variable D : Discipline.
Variable w : World.
Hypothesis allowed_uncontrolled :
  forall req, signal req <> SigController -> allowed D req.

Lemma timed_uncontrolled sig : timed sig -> sig <> SigController.
Proof. intros [ms ->]; discriminate. Qed.

Lemma allowed_timed u m mo ca b sig :
  timed sig ->
  allowed D {| url := u; method := m; mode := mo; cache := ca; bodyBytes := b;
               signal := sig |}.
Proof. intros H. apply allowed_uncontrolled, timed_uncontrolled, H. Qed.

Lemma sat_quickPing url_ : sat D (quickPing w url_) any.
Proof.
  unfold quickPing. apply sat_try with (P := any); [| auto | intros; sat_prim].
  eapply sat_bind; [sat_prim | intros start _].
  eapply sat_bind; [sat_prim | intros sig Hsig].
  apply sat_fetch_await; [apply allowed_timed, Hsig | intros response].
  sat_chain.
Qed.

Lemma sat_measurePing : sat D (measurePing w) any.
Proof.
  unfold measurePing.
  eapply sat_bind with (P := any); [| intros; sat_chain].
  apply sat_for; [| exact I]. intros i acc _.
  apply sat_try with (P := any); [| auto | intros; sat_chain].
  eapply sat_bind; [sat_prim | intros start _].
  eapply sat_bind; [sat_prim | intros sig Hsig].
  apply sat_fetch_await; [apply allowed_timed, Hsig | intros response].
  sat_chain.
Qed.

Lemma sat_downloadTask startTime url_ index :
  sat D (downloadTask w startTime url_ index) any.
Proof.
  unfold downloadTask. apply sat_try with (P := any); [| auto | intros; sat_chain].
  eapply sat_bind; [sat_prim | intros requestStart _].
  eapply sat_bind; [sat_prim | intros d _].
  eapply sat_bind; [sat_prim | intros sig Hsig].
  apply sat_fetch_await; [apply allowed_timed, Hsig | intros response].
  destruct (negb _); [sat_prim |].
  destruct (body (answer response)); [| sat_prim].
  eapply sat_bind; [apply sat_readLoop | intros; sat_chain].
Qed.

Lemma sat_uploadTask startTime index : sat D (uploadTask w startTime index) any.
Proof.
  unfold uploadTask. apply sat_try with (P := any); [| auto | intros; sat_chain].
  eapply sat_bind; [sat_prim | intros _ _].
  eapply sat_bind; [sat_prim | intros requestStart _].
  eapply sat_bind; [sat_prim | intros d _].
  eapply sat_bind; [sat_prim | intros sig Hsig].
  apply sat_fetch_await; [apply allowed_timed, Hsig | intros response].
  destruct (negb _); [sat_prim |].
  eapply sat_bind; [sat_prim | intros requestEnd _].
  eapply sat_bind with (P := any); [| intros; sat_prim].
  destruct (Nat.eqb index 0); [| sat_prim].
  eapply sat_bind; [apply sat_updateProgress | intros _ _].
  eapply sat_bind; [apply sat_graphData_push | intros _ _].
  apply sat_onGraphUpdate_call.
Qed.

Lemma sat_getUserLocation : sat D (getUserLocation w) any.
Proof.
  unfold getUserLocation. apply sat_try with (P := any); [| auto | intros; sat_prim].
  eapply sat_bind; [sat_prim | intros sig Hsig].
  apply sat_fetch_await; [apply allowed_timed, Hsig | intros response].
  eapply sat_bind; [apply sat_response_json | intros data _].
  eapply sat_bind; [apply sat_get | intros c _].
  eapply sat_bind; [apply sat_get | intros c' _].
  eapply sat_bind; [apply sat_get | intros c'' _].
  sat_prim.
Qed.

End SatTasks.

Section SatPhases.

(** The phases, which also leave requests in flight and join tasks: under
    a discipline that lets them, and lets the clock be set to any moment. *)

Variable D : Discipline.
Variable w : World.
Hypothesis allowed_uncontrolled :
  forall req, signal req <> SigController -> allowed D req.
Hypothesis detached_uncontrolled :
  forall req, signal req <> SigController -> detached D req.
Hypothesis later_any : forall s t, later D s t.

Lemma sat_findBestServer : sat D (findBestServer w) any.
Proof.
  unfold findBestServer.
  eapply sat_bind.
  { apply sat_map with (P := kept D). intros server i.
    eapply sat_spawn with (P := any); [exact later_any |].
    apply sat_try with (P := any); [| auto | intros; sat_prim].
    eapply sat_bind; [apply sat_quickPing; exact allowed_uncontrolled | intros; sat_prim]. }
  intros ps Hps.
  eapply sat_bind; [apply sat_await_all; [exact later_any | exact Hps] | intros; sat_prim].
Qed.

Lemma sat_measureDownloadSpeed : sat D (measureDownloadSpeed w) any.
Proof.
  unfold measureDownloadSpeed.
  eapply sat_bind; [sat_prim | intros startTime _].
  eapply sat_bind; [sat_prim | intros pc _].
  eapply sat_bind; [sat_prim | intros n _].
  eapply sat_bind.
  { apply sat_map with (P := kept D). intros url_ i.
    eapply sat_spawn; [exact later_any | apply sat_downloadTask; exact allowed_uncontrolled]. }
  intros ps Hps.
  eapply sat_bind; [apply sat_await_all; [exact later_any | exact Hps] | intros results _].
  sat_chain.
Qed.

Lemma sat_measureUploadSpeed : sat D (measureUploadSpeed w) any.
Proof.
  unfold measureUploadSpeed.
  eapply sat_bind; [sat_prim | intros startTime _].
  eapply sat_bind; [sat_prim | intros pc _].
  eapply sat_bind; [sat_prim | intros n _].
  eapply sat_bind.
  { apply sat_map with (P := kept D). intros u i.
    eapply sat_spawn; [exact later_any | apply sat_uploadTask; exact allowed_uncontrolled]. }
  intros ps Hps.
  eapply sat_bind; [apply sat_await_all; [exact later_any | exact Hps] | intros results _].
  sat_chain.
Qed.

Lemma sat_measureBufferbloat basePing : sat D (measureBufferbloat w basePing) any.
Proof.
  unfold measureBufferbloat.
  eapply sat_bind; [sat_prim | intros enabled _].
  destruct (negb enabled); [sat_prim |].
  eapply sat_bind; [apply sat_updateProgress | intros _ _].
  apply sat_try with (P := any); [| auto | intros; sat_chain].
  eapply sat_bind with (P := any).
  { apply sat_for; [| exact I]. intros i acc _.
    eapply sat_bind with (P := any); [| intros; sat_prim].
    eapply sat_weaken; [apply sat_fetch | intros; exact I].
    apply detached_uncontrolled; discriminate. }
  intros loadPromises _.
  eapply sat_bind with (P := any); [| intros; sat_chain].
  apply sat_for; [| exact I]. intros i acc _.
  eapply sat_bind; [apply sat_measurePing; exact allowed_uncontrolled | intros ping_ _].
  eapply sat_bind; [apply sat_updateProgress | intros; sat_prim].
Qed.

Lemma sat_measurePacketLoss : sat D (measurePacketLoss w) any.
Proof.
  unfold measurePacketLoss.
  eapply sat_bind; [apply sat_updateProgress | intros _ _].
  eapply sat_bind with (P := any).
  { intros s; simpl; split; [apply rel_receivedPackets | exact I]. }
  intros _ _.
  apply sat_try with (P := any); [| auto | intros; sat_prim].
  eapply sat_bind with (P := Forall (kept D)).
  { apply sat_for; [| constructor]. intros i acc Hacc.
    eapply sat_bind; [sat_prim | intros stamp _].
    eapply sat_bind; [sat_prim | intros sig Hsig].
    eapply sat_bind;
        [apply sat_fetch, detached_uncontrolled, timed_uncontrolled, Hsig
        | intros p Hp].
    apply sat_ret. apply Forall_app; split; [exact Hacc |].
    constructor; [| constructor].
    apply kept_finally; [| apply sat_updateProgress].
    apply kept_catch; [| intros; sat_prim].
    apply kept_then; [exact Hp |]. intros _.
    eapply sat_bind with (P := any); [| intros; sat_prim].
    intros s; simpl; split; [apply rel_receivedPackets | exact I]. }
  intros requests_ Hreqs.
  eapply sat_bind; [apply sat_await_all; [exact later_any | exact Hreqs] | intros settled _].
  sat_chain.
Qed.

Lemma sat_runSpeedTest : sat D (runSpeedTest w) any.
Proof.
  unfold runSpeedTest.
  eapply sat_bind with (P := any).
  { intros s; simpl; split; [apply rel_abortController | exact I]. }
  intros _ _.
  eapply sat_bind with (P := any).
  { intros s; simpl; split; [apply rel_graphData | exact I]. }
  intros _ _.
  eapply sat_bind; [sat_prim | intros startTime _].
  apply sat_try with (P := any); [| auto |].
  - eapply sat_bind; [apply sat_updateProgress | intros _ _].
    eapply sat_bind; [apply sat_findBestServer | intros bestServer _].
    eapply sat_bind; [apply sat_updateProgress | intros _ _].
    eapply sat_bind with (P := any).
    { apply sat_for; [| exact I]. intros i acc _.
      eapply sat_bind; [apply sat_measurePing; exact allowed_uncontrolled | intros ping_ _].
      eapply sat_bind; [apply sat_updateProgress | intros; sat_prim]. }
    intros pings _.
    eapply sat_bind; [sat_prim | intros total_ _].
    eapply sat_bind; [apply sat_measureJitter | intros jitter_ _].
    eapply sat_bind; [apply sat_updateProgress | intros _ _].
    eapply sat_bind; [apply sat_measureDownloadSpeed | intros downloadSpeed_ _].
    eapply sat_bind; [apply sat_updateProgress | intros _ _].
    eapply sat_bind; [apply sat_measureUploadSpeed | intros uploadSpeed_ _].
    eapply sat_bind; [apply sat_updateProgress | intros _ _].
    eapply sat_bind; [apply sat_measurePacketLoss | intros packetLoss_ _].
    eapply sat_bind; [sat_prim | intros enabled _].
    eapply sat_bind with (P := any).
    { destruct enabled; [| sat_prim].
      eapply sat_bind; [apply sat_measureBufferbloat | intros; sat_prim]. }
    intros bufferbloat_ _.
    eapply sat_bind; [apply sat_getUserLocation; exact allowed_uncontrolled | intros userLocation_ _].
    eapply sat_bind; [sat_prim | intros id_ _].
    eapply sat_bind; [sat_prim | intros timestamp_ _].
    eapply sat_bind; [sat_prim | intros end_ _].
    eapply sat_bind; [apply sat_updateProgress | intros; sat_prim].
  - intros e.
    eapply sat_bind; [sat_prim | intros id_ _].
    eapply sat_bind; [sat_prim | intros timestamp_ _].
    eapply sat_bind; [sat_prim | intros r1 _].
    eapply sat_bind; [sat_prim | intros r2 _].
    eapply sat_bind; [sat_prim | intros r3 _].
    eapply sat_bind; [sat_prim | intros r4 _].
    eapply sat_bind; [apply sat_getUserLocation; exact allowed_uncontrolled | intros userLocation_ _].
    eapply sat_bind; [sat_prim | intros end_ _].
    eapply sat_bind; [sat_prim | intros enabled _].
    eapply sat_bind; [apply sat_updateProgress | intros; sat_prim].
Qed.

End SatPhases.

(** * Jitter *)

Lemma fold_left_Qplus (l : list Q) (a : Q) : fold_left Qplus l a == a + sum l.
Proof.
  revert a; induction l as [| x l IH]; intros a; simpl.
  - unfold sum; simpl; ring.
  - rewrite IH. unfold sum; simpl. ring.
Qed.

Lemma reduce_Qplus (x : Q) (l : list Q) (s : State) :
  exists t, reduce Qplus (x :: l) s = (Normal t, s) /\ t == sum (x :: l).
Proof.
  exists (fold_left Qplus l x). split; [reflexivity |].
  rewrite fold_left_Qplus. unfold sum; simpl; ring.
Qed.

(** A loop whose body only appends to its accumulator. *)
Lemma for_append {T} (g : nat -> T) (indices : list nat) (acc : list T) (s : State) :
  for_ indices acc (fun i a => ret (a ++ [g i])) s = (Normal (acc ++ map g indices), s).
Proof.
  revert acc; induction indices as [| i rest IH]; intros acc; simpl.
  - rewrite app_nil_r; reflexivity.
  - unfold bind at 1; simpl. rewrite IH, <- app_assoc; reflexivity.
Qed.

Lemma differences_by_index (x : Q) (l : list Q) :
  map (fun i => Math_abs (nth i (x :: l) 0 - nth (i - 1) (x :: l) 0))
      (seq 1 (List.length l))
  = abs_differences (x :: l).
Proof.
  revert x; induction l as [| y l IH]; intros x; [reflexivity |].
  change (abs_differences (x :: y :: l))
    with (Qabs (y - x) :: abs_differences (y :: l)).
  cbn [List.length seq map]. apply f_equal2; [reflexivity |].
  rewrite <- IH, <- seq_shift, map_map.
  apply map_ext_in. intros i Hi. apply in_seq in Hi.
  destruct i as [| j]; [lia |].
  replace (S (S j) - 1)%nat with (S j) by lia.
  replace (S j - 1)%nat with j by lia.
  reflexivity.
Qed.

Lemma abs_differences_length (l : list Q) :
  List.length (abs_differences l) = (List.length l - 1)%nat.
Proof.
  induction l as [| x l IH]; [reflexivity |].
  destruct l as [| y l]; [reflexivity |].
  cbn [abs_differences List.length] in *. rewrite IH. lia.
Qed.

(** With two samples or more, [measureJitter] touches nothing and returns
    the mean of the absolute consecutive differences. *)
Lemma measureJitter_mean (w : World) (pings : list Q) (s : State) :
  (2 <= List.length pings)%nat ->
  exists v, measureJitter w pings s = (Normal v, s)
            /\ v == mean (abs_differences pings).
Proof.
  intros Hlen. unfold measureJitter.
  destruct (Nat.ltb_spec (List.length pings) 2) as [Hlt | _]; [lia |].
  destruct pings as [| x l]; [simpl in Hlen; lia |].
  erewrite bind_normal by apply for_append.
  cbn [List.length app]. replace (S (List.length l) - 1)%nat with (List.length l) by lia.
  rewrite differences_by_index.
  destruct l as [| y l]; [simpl in Hlen; lia |].
  change (abs_differences (x :: y :: l))
    with (Qabs (y - x) :: abs_differences (y :: l)).
  destruct (reduce_Qplus (Qabs (y - x)) (abs_differences (y :: l)) s) as (t & Et & Ht).
  rewrite (bind_normal _ _ _ _ _ Et).
  eexists; split; [reflexivity |].
  unfold mean. rewrite Ht. reflexivity.
Qed.

(** With fewer than two samples, it draws once and returns a value of
    [[1, 6)]. *)
Lemma measureJitter_synthesized (w : World) (pings : list Q) (s : State) :
  (List.length pings < 2)%nat ->
  exists v, measureJitter w pings s = (Normal v, set_rndIx (S (rndIx s)) s)
            /\ 1 <= v /\ v < 6.
Proof.
  intros Hlen. unfold measureJitter.
  destruct (Nat.ltb_spec (List.length pings) 2) as [_ | Hge]; [| lia].
  eexists; split; [reflexivity |].
  destruct (unit01_range (random w (rndIx s))) as [H0 H1]. split; lra.
Qed.

(** C5. For a list of at least two ping samples [measureJitter] returns the
    arithmetic mean of the absolute differences between consecutive
    samples, so that [[10; 15; 5]] gives 7.5; for a shorter list it does
    not throw and returns a synthesized value of [[1, 6)]. *)
Theorem measureJitter_spec (w : World) (pings : list Q) (s : State) :
  ((2 <= List.length pings)%nat ->
   exists v, measureJitter w pings s = (Normal v, s)
             /\ v == mean (abs_differences pings))
  /\ ((List.length pings < 2)%nat ->
      exists v s', measureJitter w pings s = (Normal v, s') /\ 1 <= v /\ v < 6)
  /\ (exists v, measureJitter w [10; 15; 5] s = (Normal v, s) /\ v == 7.5).
Proof.
  split; [apply measureJitter_mean |]. split.
  - intros H. destruct (measureJitter_synthesized w pings s H) as (v & E & Hv).
    exists v; eexists; split; [exact E | exact Hv].
  - destruct (measureJitter_mean w [10; 15; 5] s) as (v & E & Hv); [simpl; lia |].
    exists v; split; [exact E |]. rewrite Hv. reflexivity.
Qed.

Lemma measureJitter_spec_witness :
  (exists v, measureJitter Sample.offline [10; 15; 5] Sample.fresh
             = (Normal v, Sample.fresh)
             /\ v == mean (abs_differences [10; 15; 5]))
  /\ (exists v s', measureJitter Sample.offline [12] Sample.fresh = (Normal v, s')
                   /\ 1 <= v /\ v < 6).
Proof.
  split.
  - apply (proj1 (measureJitter_spec Sample.offline [10; 15; 5] Sample.fresh)).
    simpl; lia.
  - apply (proj1 (proj2 (measureJitter_spec Sample.offline [12] Sample.fresh))).
    simpl; lia.
Defined.

(** * Latency probes *)

(** One step of symbolic execution: the monad's operations and the
    state's projections, and nothing of the arithmetic. *)
Ltac run :=
  cbv beta iota zeta delta
      [bind try_catch ret throw gets modify performance_now Date_now Math_random
       await fetch fires
       set_now set_graphData set_abortController set_receivedPackets set_rndIx
       push_progress push_graphUpdate push_request];
  cbn [fst snd
       config onProgress onGraphUpdate graphData abortController receivedPackets
       now netIx rndIx progressEvents graphUpdates requests
       settles reaction request startedAt settlesAt
       url method mode cache bodyBytes signal answer cutoff].

Lemma synthesized_range (w : World) (m : Q) : synthesized w m -> 15 <= m /\ m < 45.
Proof.
  intros [k ->]. destruct (unit01_range (random w k)) as [H0 H1]. split; lra.
Qed.

Lemma timeout_1000 (w : World) :
  hasAbortSignalTimeout w = true ->
  AbortSignal_timeout w 1000 = ret (SigTimeout 1000).
Proof. unfold AbortSignal_timeout. intros ->. reflexivity. Qed.

Lemma timeout_none (w : World) (ms : Q) :
  hasAbortSignalTimeout w = false ->
  exists e, AbortSignal_timeout w ms = throw e.
Proof. unfold AbortSignal_timeout. intros ->. eexists; reflexivity. Qed.

Lemma probes_settled_refl (s : State) : probes_settled s s.
Proof. exists []; split; [reflexivity | constructor]. Qed.

Lemma probes_settled_trans (s1 s2 s3 : State) :
  probes_settled s1 s2 -> probes_settled s2 s3 -> now s2 <= now s3 ->
  probes_settled s1 s3.
Proof.
  intros (n1 & E1 & F1) (n2 & E2 & F2) Hle.
  exists (n2 ++ n1). split; [rewrite E2, E1, app_assoc; reflexivity |].
  apply Forall_app; split; [exact F2 |].
  eapply Forall_impl; [| exact F1]. intros i [Hi Hm]. split; [| exact Hm].
  eapply Qle_trans; eauto.
Qed.

Lemma measurePing_post (w : World) (s : State) :
  exists v s', measurePing w s = (Normal v, s') /\ ping_post w s v s'.
Proof.
  unfold measurePing.
  match goal with |- context [for_ _ _ ?F] => set (body := F) end.
  assert (Hbody : forall i acc s0, exists x s1,
             body i acc s0 = (Normal (acc ++ [x]), s1)
             /\ (answered w x \/ synthesized w x)
             /\ now s0 <= now s1 /\ probes_settled s0 s1).
  { intros i acc s0. unfold body.
    destruct (hasAbortSignalTimeout w) eqn:Hsup.
    - rewrite (timeout_1000 w Hsup). run.
      assert (Hlate : forall d, now s0 <= Qmax (now s0) (now s0 + us (N.pos d))).
      { intros d. apply Q.le_max_l. }
      assert (Hcut : now s0 <= Qmax (now s0) (now s0 + inject_Z 1000)).
      { apply Q.le_max_l. }
      destruct (net w (netIx s0)) as [d | d a] eqn:Hnet; run;
        destruct (Qle_bool (now s0 + inject_Z 1000) (now s0 + us (N.pos d))) eqn:Hcmp;
        run.
      + do 2 eexists. split; [reflexivity |]. split; [right; eexists; reflexivity |].
        split; [exact Hcut |].
        eexists [_]; split; [reflexivity |]. constructor; [| constructor].
        run. split; [apply Q.le_max_r | reflexivity].
      + do 2 eexists. split; [reflexivity |]. split; [right; eexists; reflexivity |].
        split; [apply Hlate |].
        eexists [_]; split; [reflexivity |]. constructor; [| constructor].
        run. split; [apply Q.le_max_r | reflexivity].
      + do 2 eexists. split; [reflexivity |]. split; [right; eexists; reflexivity |].
        split; [exact Hcut |].
        eexists [_]; split; [reflexivity |]. constructor; [| constructor].
        run. split; [apply Q.le_max_r | reflexivity].
      + do 2 eexists. split; [reflexivity |]. split.
        { left. exists (netIx s0), d, a. split; [exact Hnet |].
          assert (Hlt : now s0 + us (N.pos d) < now s0 + inject_Z 1000).
          { apply Qnot_le_lt. intros L. apply Qle_bool_iff in L. congruence. }
          rewrite Qmax_later by apply us_nonneg.
          split; [ring |]. setoid_replace (now s0 + us (N.pos d) - now s0)
                             with (us (N.pos d)) by ring.
          change (inject_Z 1000) with 1000 in Hlt. lra. }
        split; [apply Hlate |].
        eexists [_]; split; [reflexivity |]. constructor; [| constructor].
        run. split; [apply Q.le_max_r | reflexivity].
    - destruct (timeout_none w 1000 Hsup) as [e ->]. run.
      do 2 eexists. split; [reflexivity |]. split; [right; eexists; reflexivity |].
      split; [apply Qle_refl | exists []; split; [reflexivity | constructor]]. }
  clearbody body. cbn [for_ seq].
  destruct (Hbody 0%nat [] s) as (m0 & s1 & E1 & K1 & L1 & P1).
  destruct (Hbody 1%nat ([] ++ [m0]) s1) as (m1 & s2 & E2 & K2 & L2 & P2).
  destruct (Hbody 2%nat (([] ++ [m0]) ++ [m1]) s2) as (m2 & s3 & E3 & K3 & L3 & P3).
  unfold bind at 1. unfold bind at 1. rewrite E1.
  unfold bind at 1. rewrite E2.
  unfold bind at 1. rewrite E3.
  cbn [ret app]. unfold bind, reduce, ret; cbn [fold_left].
  do 2 eexists. split; [reflexivity |].
  split; [| split].
  - exists m0, m1, m2. split; [| auto]. reflexivity.
  - eapply Qle_trans; [exact L1 |]. eapply Qle_trans; eauto.
  - eapply probes_settled_trans; [| exact P3 | exact L3].
    eapply probes_settled_trans; eauto.
Qed.

(** Whether the timeout of a request fires before its answer. *)
Lemma cut_first (t a b : Q) : Qle_bool (t + a) (t + b) = Qle_bool a b.
Proof.
  destruct (Qle_bool a b) eqn:E.
  - apply Qle_bool_iff. apply Qle_bool_iff in E. lra.
  - destruct (Qle_bool (t + a) (t + b)) eqn:E'; [| reflexivity].
    apply Qle_bool_iff in E'. assert (L : a <= b) by lra.
    apply Qle_bool_iff in L. congruence.
Qed.

Lemma mean3 (m0 m1 m2 x0 x1 x2 : Q) :
  m0 == x0 -> m1 == x1 -> m2 == x2 ->
  (m0 + m1 + m2) / Qlen [m0; m1; m2] == mean [x0; x1; x2].
Proof.
  intros H0 H1 H2. unfold mean, sum, Qlen. cbn [fold_right List.length].
  change (inject_Z (Z.of_nat 3)) with 3. rewrite H0, H1, H2. field.
Qed.

(** [measurePing], exactly: the mean of the three samples that the world
    yields for its probes. *)
Lemma measurePing_exact (w : World) (s : State) :
  exists v s',
    measurePing w s = (Normal v, s')
    /\ v == mean (fst (pingSamples w (netIx s) (rndIx s)))
    /\ (netIx s', rndIx s') = snd (pingSamples w (netIx s) (rndIx s)).
Proof.
  unfold measurePing.
  match goal with |- context [for_ _ _ ?F] => set (body := F) end.
  assert (Hbody : forall i acc s0, exists x s1,
             body i acc s0 = (Normal (acc ++ [x]), s1)
             /\ x == fst (probeSample w (netIx s0) (rndIx s0))
             /\ (netIx s1, rndIx s1) = snd (probeSample w (netIx s0) (rndIx s0))).
  { intros i acc s0. unfold body, probeSample. cbv zeta.
    destruct (hasAbortSignalTimeout w) eqn:Hsup.
    - rewrite (timeout_1000 w Hsup). run.
      destruct (net w (netIx s0)) as [d | d a] eqn:Hnet; run;
        rewrite ?cut_first; unfold Qltb;
        change (inject_Z 1000) with 1000;
        destruct (Qle_bool 1000 (us (N.pos d))) eqn:Hcmp; run; cbn [negb];
        do 2 eexists; (split; [reflexivity |]); split;
        try reflexivity.
      cbn [fst]. rewrite Qmax_later by apply us_nonneg. ring.
    - destruct (timeout_none w 1000 Hsup) as [e ->]. run.
      do 2 eexists. split; [reflexivity |]. split; reflexivity. }
  clearbody body. cbn [for_ seq].
  destruct (Hbody 0%nat [] s) as (m0 & s1 & E1 & K1 & I1).
  destruct (Hbody 1%nat ([] ++ [m0]) s1) as (m1 & s2 & E2 & K2 & I2).
  destruct (Hbody 2%nat (([] ++ [m0]) ++ [m1]) s2) as (m2 & s3 & E3 & K3 & I3).
  unfold bind at 1. unfold bind at 1. rewrite E1.
  unfold bind at 1. rewrite E2.
  unfold bind at 1. rewrite E3.
  cbn [ret app]. unfold bind, reduce, ret; cbn [fold_left].
  do 2 eexists. split; [reflexivity |].
  unfold pingSamples.
  destruct (probeSample w (netIx s) (rndIx s)) as [x0 [k0 r0]].
  cbn [fst snd] in *. injection I1 as Hk1 Hr1. rewrite Hk1, Hr1 in *.
  destruct (probeSample w k0 r0) as [x1 [k1 r1]].
  cbn [fst snd] in *. injection I2 as Hk2 Hr2. rewrite Hk2, Hr2 in *.
  destruct (probeSample w k1 r1) as [x2 [k2 r2]].
  cbn [fst snd] in *. injection I3 as Hk3 Hr3.
  split; [apply mean3; assumption | rewrite Hk3, Hr3; reflexivity].
Qed.





(** * Progress events *)

(** [updateProgress] in one step: the event is recorded where there is a
    sink, and what the sink throws on it is thrown. *)
Lemma updateProgress_eq (w : World) (ph : Phase) (pr speed : Q) (s : State) :
  updateProgress w ph pr speed s
  = (match (if onProgress s
            then progressSink w {| phase := ph; progress := Math_min pr 100;
                                   currentSpeed := speed; elapsedTime := now s |}
            else None) with
     | Some e => Throw e
     | None => Normal tt
     end,
     emit ph pr speed s).
Proof.
  unfold updateProgress, emit, bind at 1, gets. cbv beta iota.
  destruct (onProgress s); [| reflexivity].
  unfold bind at 1, performance_now, gets. cbv beta iota zeta.
  unfold bind at 1, modify. cbv beta iota.
  destruct (progressSink w _); reflexivity.
Qed.

Lemma updateProgress_state (w : World) (ph : Phase) (pr speed : Q) (s : State) :
  snd (updateProgress w ph pr speed s) = emit ph pr speed s.
Proof. rewrite updateProgress_eq. reflexivity. Qed.

Lemma updateProgress_run {w : World} {Hq : quietSinks w}
    (ph : Phase) (pr speed : Q) (s : State) :
  updateProgress w ph pr speed s = (Normal tt, emit ph pr speed s).
Proof.
  rewrite updateProgress_eq. rewrite (proj1 Hq). destruct (onProgress s); reflexivity.
Qed.


Lemma emit_now ph pr speed s : now (emit ph pr speed s) = now s.
Proof. unfold emit; destruct (onProgress s); reflexivity. Qed.

Lemma emit_requests ph pr speed s : requests (emit ph pr speed s) = requests s.
Proof. unfold emit; destruct (onProgress s); reflexivity. Qed.

Lemma emit_netIx ph pr speed s : netIx (emit ph pr speed s) = netIx s.
Proof. unfold emit; destruct (onProgress s); reflexivity. Qed.

Lemma emit_rndIx ph pr speed s : rndIx (emit ph pr speed s) = rndIx s.
Proof. unfold emit; destruct (onProgress s); reflexivity. Qed.

Lemma emit_config ph pr speed s : config (emit ph pr speed s) = config s.
Proof. unfold emit; destruct (onProgress s); reflexivity. Qed.

Lemma emit_onProgress ph pr speed s : onProgress (emit ph pr speed s) = onProgress s.
Proof. unfold emit; destruct (onProgress s) eqn:E; [exact E | exact E]. Qed.

Lemma emit_receivedPackets ph pr speed s :
  receivedPackets (emit ph pr speed s) = receivedPackets s.
Proof. unfold emit; destruct (onProgress s); reflexivity. Qed.


Lemma total_updateProgress {w : World} {Hq : quietSinks w} ph pr speed :
  total (updateProgress w ph pr speed).
Proof. intros s; do 2 eexists; apply updateProgress_run. Qed.

(** * Bufferbloat *)

Lemma ping_then_emit (w : World) (s : State) (v : Q) (s' : State) ph pr speed :
  ping_post w s v s' ->
  probes_settled s (emit ph pr speed s') /\ now s <= now (emit ph pr speed s').
Proof.
  intros (_ & Hle & new & E & F). rewrite emit_now. split; [| exact Hle].
  exists new. rewrite emit_requests, emit_now. split; assumption.
Qed.

Ltac ping_step w p s' E P :=
  match goal with
  | |- context [measurePing w ?st] =>
      destruct (measurePing_post w st) as (p & s' & E & P);
      rewrite E; cbv beta iota; rewrite ?updateProgress_run; cbv beta iota
  end.

(** A loop of latency measurements, each followed by a progress report:
    its values are those the world yields for its probes, in order. *)
Lemma ping_loop {w : World} {Hq : quietSinks w} (ph : Phase) (f : nat -> Q) :
  forall indices acc s,
    exists vs s',
      for_ indices acc
           (fun i acc => ping_ <- measurePing w ;;
                         updateProgress w ph (f i) 0 ;;
                         ret (acc ++ [ping_])) s
      = (Normal (acc ++ vs), s')
      /\ Forall2 Qeq vs (pingValues w (List.length indices) (netIx s) (rndIx s)).
Proof.
  induction indices as [| i rest IH]; intros acc s.
  - exists [], s. cbn. rewrite app_nil_r. split; [reflexivity | constructor].
  - cbn [for_ List.length pingValues].
    destruct (measurePing_exact w s) as (v & s1 & E & Hv & Hi).
    unfold bind at 1. unfold bind at 1. rewrite E. cbv beta iota.
    rewrite (bind_normal _ _ _ _ _ (updateProgress_run _ _ _ _)). unfold ret at 1.
    destruct (IH (acc ++ [v]) (emit ph (f i) 0 s1)) as (vs & s' & E' & Hvs).
    rewrite E'. exists (v :: vs), s'. split; [rewrite <- app_assoc; reflexivity |].
    rewrite emit_netIx, emit_rndIx in Hvs.
    destruct (pingSamples w (netIx s) (rndIx s)) as [xs [k r]].
    cbn [fst snd] in *. injection Hi as Hk Hr. rewrite Hk, Hr in Hvs.
    constructor; assumption.
Qed.

Lemma pingValues_length (w : World) (n k r : nat) :
  List.length (pingValues w n k r) = n.
Proof.
  revert k r. induction n as [| n IH]; intros k r; cbn [pingValues]; [reflexivity |].
  destruct (pingSamples w k r) as [xs i]. cbn [List.length]. rewrite IH. reflexivity.
Qed.

Lemma mean_eqv (l l' : list Q) : Forall2 Qeq l l' -> mean l == mean l'.
Proof.
  intros H. unfold mean.
  assert (Hs : sum l == sum l').
  { induction H as [| x y l l' Hxy _ IH]; [reflexivity |].
    unfold sum in *. cbn [fold_right]. rewrite Hxy, IH. reflexivity. }
  assert (Hl : Qlen l = Qlen l').
  { unfold Qlen. rewrite (Forall2_length H). reflexivity. }
  rewrite Hs, Hl. reflexivity.
Qed.

Lemma classify_eqv (x y : Q) : x == y -> classify x = classify y.
Proof.
  intros H. unfold classify, Qltb.
  assert (E : forall c, Qle_bool c x = Qle_bool c y).
  { intros c. destruct (Qle_bool c y) eqn:Ey.
    - apply Qle_bool_iff. apply Qle_bool_iff in Ey. rewrite H. exact Ey.
    - destruct (Qle_bool c x) eqn:Ex; [| reflexivity].
      apply Qle_bool_iff in Ex. rewrite H in Ex. apply Qle_bool_iff in Ex. congruence. }
  rewrite !E. reflexivity.
Qed.

(** [measureBufferbloat], exactly, where it is enabled and the sinks do
    not throw: the increase of the mean of five latency measurements, made
    after the three requests of the background load, over the base. *)
Lemma measureBufferbloat_exact {w : World} {Hq : quietSinks w} (basePing : Q) (s : State) :
  enableBufferbloat (config s) = true ->
  exists b s',
    measureBufferbloat w basePing s = (Normal b, s')
    /\ latencyIncrease b
       == Qmax 0 (mean (pingValues w 5 (3 + netIx s) (rndIx s)) - basePing)
    /\ rating b = classify (latencyIncrease b).
Proof.
  intros Hen. unfold measureBufferbloat.
  unfold bind at 1, gets; cbv beta iota. rewrite Hen. cbn [negb].
  rewrite (bind_normal _ _ _ _ _ (updateProgress_run _ _ _ _)).
  match goal with
  | |- context [for_ (seq 0 5) [] ?F] => set (LOOP := for_ (seq 0 5) [] F)
  end.
  cbn [for_ seq]. run.
  match goal with
  | |- context [LOOP ?st] =>
      destruct (ping_loop bufferbloat (fun i => 50 + Qnat i / 5 * 50) (seq 0 5) [] st)
        as (vs & s' & E & Hvs)
  end.
  fold LOOP in E. rewrite E. cbn [app].
  cbn [netIx rndIx List.length seq] in Hvs. rewrite emit_netIx, emit_rndIx in Hvs.
  assert (Hlen : List.length vs = 5%nat).
  { rewrite (Forall2_length Hvs). apply pingValues_length. }
  destruct vs as [| v0 vs]; [discriminate Hlen |].
  cbn [reduce]. run. do 2 eexists. split; [reflexivity |].
  cbn [latencyIncrease rating]. split; [| reflexivity].
  unfold Math_max.
  assert (Hm : fold_left Qplus vs v0 / Qlen (v0 :: vs)
               == mean (pingValues w 5 (3 + netIx s) (rndIx s))).
  { rewrite <- (mean_eqv _ _ Hvs). unfold mean. rewrite fold_left_Qplus.
    unfold sum. cbn [fold_right]. reflexivity. }
  rewrite Hm. reflexivity.
Qed.

Lemma measureBufferbloat_enabled (w : World) {Hq : quietSinks w}
    (basePing : Q) (s : State) :
  enableBufferbloat (config s) = true ->
  exists p0 p1 p2 p3 p4 s',
    let increase := Math_max 0 ((p0 + p1 + p2 + p3 + p4) / 5 - basePing) in
    measureBufferbloat w basePing s
    = (Normal {| rating := classify increase; latencyIncrease := increase |}, s')
    /\ Forall (fun p => exists si si', measurePing w si = (Normal p, si'))
              [p0; p1; p2; p3; p4]
    /\ exists probes load,
        requests s' = probes ++ load ++ requests s
        /\ Forall (fun i => settlesAt i <= now s' /\ method (request i) = HEAD) probes
        /\ map request load = [loadRequest; loadRequest; loadRequest]
        /\ map startedAt load = [now s; now s; now s].
Proof.
  intros Hen. unfold measureBufferbloat.
  unfold bind at 1, gets; cbv beta iota. rewrite Hen. cbn [negb].
  rewrite (bind_normal _ _ _ _ _ (updateProgress_run _ _ _ _)).
  cbn [for_ seq]. run.
  match goal with
  | |- context [measurePing w ?st] => remember st as s1 eqn:Hs1
  end.
  assert (Hload : exists load,
             requests s1 = load ++ requests s
             /\ map request load = [loadRequest; loadRequest; loadRequest]
             /\ map startedAt load = [now s; now s; now s]).
  { subst s1; cbn [requests]. eexists [_; _; _]. rewrite emit_requests, emit_now.
    split; [reflexivity | split; reflexivity]. }
  clear Hs1.
  ping_step w p0 t0 E0 P0. ping_step w p1 t1 E1 P1. ping_step w p2 t2 E2 P2.
  ping_step w p3 t3 E3 P3. ping_step w p4 t4 E4 P4.
  cbn [app reduce fold_left]. cbv beta iota delta [ret].
  exists p0, p1, p2, p3, p4. eexists. cbv zeta.
  split; [reflexivity |]. split.
  - repeat (apply Forall_cons; [do 2 eexists; eassumption |]). apply Forall_nil.
  - destruct Hload as (load & Hreq & Hload).
    destruct (ping_then_emit _ _ _ _ bufferbloat (50 + Qnat 0 / 5 * 50) 0 P0) as [Q0 L0].
    destruct (ping_then_emit _ _ _ _ bufferbloat (50 + Qnat 1 / 5 * 50) 0 P1) as [Q1 L1].
    destruct (ping_then_emit _ _ _ _ bufferbloat (50 + Qnat 2 / 5 * 50) 0 P2) as [Q2 L2].
    destruct (ping_then_emit _ _ _ _ bufferbloat (50 + Qnat 3 / 5 * 50) 0 P3) as [Q3 L3].
    destruct (ping_then_emit _ _ _ _ bufferbloat (50 + Qnat 4 / 5 * 50) 0 P4) as [Q4 L4].
    pose proof (probes_settled_trans _ _ _ Q0 Q1 L1) as Q01.
    pose proof (probes_settled_trans _ _ _ Q01 Q2 L2) as Q02.
    pose proof (probes_settled_trans _ _ _ Q02 Q3 L3) as Q03.
    pose proof (probes_settled_trans _ _ _ Q03 Q4 L4) as (probes & Hp & Fp).
    exists probes, load. rewrite Hp, Hreq. split; [reflexivity |].
    split; [exact Fp | exact Hload].
Qed.

Lemma classify_buckets (i : Q) :
  (i < 20 -> classify i = A)
  /\ (20 <= i -> i < 50 -> classify i = B)
  /\ (50 <= i -> i < 100 -> classify i = C)
  /\ (100 <= i -> i < 200 -> classify i = D)
  /\ (200 <= i -> classify i = F).
Proof.
  unfold classify.
  destruct (Qltb i 20) eqn:E20; [apply Qltb_lt in E20 | apply Qltb_ge in E20];
  destruct (Qltb i 50) eqn:E50; [apply Qltb_lt in E50 | apply Qltb_ge in E50 |
                                 apply Qltb_lt in E50 | apply Qltb_ge in E50];
  destruct (Qltb i 100) eqn:E100;
    try (apply Qltb_lt in E100); try (apply Qltb_ge in E100);
  destruct (Qltb i 200) eqn:E200;
    try (apply Qltb_lt in E200); try (apply Qltb_ge in E200);
  repeat split; intros; try reflexivity; exfalso; lra.
Qed.

(** C4. Disabled by configuration, [measureBufferbloat] returns rating A
    with increase 0 and leaves the state as it was (no probe, no event).
    Enabled, and with sinks that do not throw (the non-error path), it
    returns [max(0, avgLoadedPing - basePing)], where [avgLoadedPing] is
    the mean of the five [measurePing] values of this call: those that
    the world yields for the probes that follow the three requests of the
    background load.  The rating is that of the fixed buckets [< 20],
    [< 50], [< 100], [< 200], else F; a base of 20 under a loaded mean of
    85 gives 65 and C. *)
Theorem measureBufferbloat_spec (w : World) (basePing : Q) (s : State) :
  (enableBufferbloat (config s) = false ->
   measureBufferbloat w basePing s
   = (Normal {| rating := A; latencyIncrease := 0 |}, s))
  /\ (enableBufferbloat (config s) = true -> quietSinks w ->
      exists b s',
        measureBufferbloat w basePing s = (Normal b, s')
        /\ latencyIncrease b
           == Qmax 0 (mean (pingValues w 5 (3 + netIx s) (rndIx s)) - basePing)
        /\ (latencyIncrease b < 20 -> rating b = A)
        /\ (20 <= latencyIncrease b -> latencyIncrease b < 50 -> rating b = B)
        /\ (50 <= latencyIncrease b -> latencyIncrease b < 100 -> rating b = C)
        /\ (100 <= latencyIncrease b -> latencyIncrease b < 200 -> rating b = D)
        /\ (200 <= latencyIncrease b -> rating b = F)
        /\ (basePing == 20 -> mean (pingValues w 5 (3 + netIx s) (rndIx s)) == 85 ->
            latencyIncrease b == 65 /\ rating b = C)).
Proof.
  split.
  - intros Hoff. unfold measureBufferbloat, bind, gets. rewrite Hoff. reflexivity.
  - intros Hon Hq.
    destruct (measureBufferbloat_exact basePing s Hon) as (b & s' & E & Hinc & Hr).
    exists b, s'. split; [exact E |]. split; [exact Hinc |].
    destruct (classify_buckets (latencyIncrease b)) as (HA & HB & HC & HD & HF).
    rewrite Hr.
    repeat (split; [assumption |]).
    intros Hbase H85.
    assert (H65 : latencyIncrease b == 65).
    { rewrite Hinc, H85, Hbase. reflexivity. }
    split; [exact H65 |]. apply HC; rewrite H65; lra.
Qed.

Lemma measureBufferbloat_spec_witness :
  (exists b s',
      measureBufferbloat (Sample.steady 85000) 20 Sample.fresh = (Normal b, s')
      /\ mean (pingValues (Sample.steady 85000) 5 3 0) == 85
      /\ latencyIncrease b == 65 /\ rating b = C)
  /\ measureBufferbloat Sample.offline 20
       (constructor true true
          (Some {| duration := 10; parallelConnections := 4;
                   enableBufferbloat := false; enableStressTest := false |}) 0 0 0)
     = (Normal {| rating := A; latencyIncrease := 0 |},
        constructor true true
          (Some {| duration := 10; parallelConnections := 4;
                   enableBufferbloat := false; enableStressTest := false |}) 0 0 0).
Proof.
  split.
  - destruct (proj2 (measureBufferbloat_spec (Sample.steady 85000) 20 Sample.fresh)
                    eq_refl (conj (fun _ => eq_refl) (fun _ => eq_refl)))
      as (b & s' & E & Hinc & _ & _ & _ & _ & _ & Hex).
    exists b, s'. split; [exact E |].
    assert (H85 : mean (pingValues (Sample.steady 85000) 5 3 0) == 85)
      by (vm_compute; reflexivity).
    split; [exact H85 |]. apply Hex; [reflexivity | exact H85].
  - apply (proj1 (measureBufferbloat_spec Sample.offline 20 _)). reflexivity.
Defined.

(** * Server selection *)

Lemma testServers_are : firstn 2 servers = [cloudflare; google].
Proof. reflexivity. Qed.

(** Two promises of known values, joined: the values come back in the
    order of the promises, whichever settles first. *)
Lemma await_all_pair {T U} (v0 v1 : T) (t0 t1 : Q) (k : list T -> M U) (s : State) :
  exists t,
    bind (await_all [ {| settles := t0; reaction := fun s2 => (Normal v0, s2) |};
                      {| settles := t1; reaction := fun s2 => (Normal v1, s2) |} ]) k s
    = k [v0; v1] (set_now t s).
Proof.
  unfold bind at 1, await_all. cbv zeta. unfold by_time.
  cbn [List.length seq combine fold_right insert_by_time snd settles reaction].
  destruct (Qle_bool t0 t1); cbn [settle_each reaction settles first_rejection
                                  flat_map value_at Nat.eqb app seq List.length];
    eexists; reflexivity.
Qed.

(** The timeout of two seconds, which the platform takes where it has
    [AbortSignal.timeout]. *)
Lemma timeout_two_seconds (w : World) :
  hasAbortSignalTimeout w = true ->
  AbortSignal_timeout w 2000 = ret (SigTimeout 2000).
Proof. unfold AbortSignal_timeout. intros ->. reflexivity. Qed.

(** The task of one candidate, exactly: it returns the candidate with the
    score that the world yields for its request. *)
Lemma candidate_task (w : World) (server : TestServer) (s : State) :
  exists l s1,
    try_catch (latency <- quickPing w (host server) ;; ret (with_latency server latency))
              (fun _ => ret (with_latency server 999)) s
    = (Normal (with_latency server l), s1)
    /\ l == quickScore w (netIx s)
    /\ netIx s1 = (if hasAbortSignalTimeout w then S (netIx s) else netIx s).
Proof.
  unfold quickPing, quickScore.
  destruct (hasAbortSignalTimeout w) eqn:Hsup.
  - rewrite (timeout_two_seconds w Hsup). run.
    destruct (net w (netIx s)) as [d | d a] eqn:Hnet; run;
      rewrite ?cut_first; unfold Qltb;
      change (inject_Z 2000) with 2000;
      destruct (Qle_bool 2000 (us (N.pos d))) eqn:Hcmp; run; cbn [negb andb];
      try (do 2 eexists; split; [reflexivity |]; split; reflexivity).
    destruct (ok a); cbn [negb]; do 2 eexists; (split; [reflexivity |]);
      (split; [| reflexivity]); [| reflexivity].
    rewrite Qmax_later by apply us_nonneg. ring.
  - destruct (timeout_none w 2000 Hsup) as [e ->]. run.
    do 2 eexists. split; [reflexivity |]. split; reflexivity.
Qed.

Lemma quickScore_legacy (w : World) (k : nat) :
  hasAbortSignalTimeout w = false -> quickScore w k = 999.
Proof. unfold quickScore. intros ->. reflexivity. Qed.


(** [findBestServer], exactly: the two candidates are scored through the
    next two requests, and the second is chosen when its score is strictly
    the lesser. *)
Lemma findBestServer_run (w : World) (s : State) :
  exists l0 l1 s',
    findBestServer w s
    = (Normal (if Qltb l1 l0 then with_latency google l1 else with_latency cloudflare l0),
       s')
    /\ l0 == quickScore w (netIx s)
    /\ l1 == quickScore w (S (netIx s)).
Proof.
  unfold findBestServer. rewrite testServers_are. cbn [map_].
  destruct (candidate_task w cloudflare s) as (l0 & s1 & E0 & A0 & I0).
  destruct (candidate_task w google (set_now (now s) s1)) as (l1 & s2 & E1 & A1 & _).
  exists l0, l1.
  unfold bind at 1. unfold bind at 1. unfold spawn at 1.
  rewrite E0. cbv beta iota.
  unfold bind at 1. unfold bind at 1. unfold spawn at 1.
  rewrite E1. cbv beta iota.
  unfold bind at 1, ret at 1. cbv beta iota.
  unfold ret at 1. cbv beta iota. unfold ret at 1. cbv beta iota.
  match goal with
  | |- context [bind (await_all _) _ ?st] =>
      destruct (await_all_pair (with_latency cloudflare l0) (with_latency google l1)
                  (now s1) (now s2)
                  (reduce (fun best current : TestServer =>
                             if latency_lt current best then current else best))
                  st) as (t & Et)
  end.
  eexists. split; [etransitivity; [exact Et |]; reflexivity |].
  split; [exact A0 |]. rewrite A1. cbn [netIx set_now]. rewrite I0.
  destruct (hasAbortSignalTimeout w) eqn:Hsup; [reflexivity |].
  rewrite !quickScore_legacy by exact Hsup. reflexivity.
Qed.



(** * What a method ensures when it returns *)

Lemma ensures_bind {T U} (m : M T) (k : T -> M U) Q :
  (forall x, ensures (k x) Q) -> ensures (bind m k) Q.
Proof.
  intros Hk s v s'. unfold bind.
  destruct (m s) as [[x | e] s1]; [apply Hk | discriminate].
Qed.

Lemma ensures_bind_val {T U} (m : M T) (k : T -> M U) (P : T -> Prop) Q :
  ensures m (fun v _ => P v) -> (forall x, P x -> ensures (k x) Q) ->
  ensures (bind m k) Q.
Proof.
  intros Hm Hk s v s'. unfold bind.
  destruct (m s) as [[x | e] s1] eqn:E; [| discriminate].
  apply Hk. exact (Hm s x s1 E).
Qed.

Lemma ensures_try {T} (m : M T) h Q :
  ensures m Q -> (forall e, ensures (h e) Q) -> ensures (try_catch m h) Q.
Proof.
  intros Hm Hh s v s'. unfold try_catch.
  destruct (m s) as [[x | e] s1] eqn:E.
  - intros H; injection H as <- <-. exact (Hm s x s1 E).
  - apply Hh.
Qed.

Lemma ensures_ret {T} (v : T) (Q : T -> State -> Prop) :
  (forall s, Q v s) -> ensures (ret v) Q.
Proof. intros H s v' s' E; injection E as <- <-. apply H. Qed.

Lemma ensures_if {T} (c : bool) (m1 m2 : M T) Q :
  ensures m1 Q -> ensures m2 Q -> ensures (if c then m1 else m2) Q.
Proof. destruct c; auto. Qed.

(** * Documents *)

Lemma get_normal (data : Json) (key : string) :
  ensures (get data key) (fun v _ => v = prop data key).
Proof.
  intros s v s' E. destruct data; simpl in E; try discriminate;
    injection E as <- _; reflexivity.
Qed.


Lemma total_getUserLocation (w : World) : total (getUserLocation w).
Proof. apply total_try. intros e. apply total_ret. Qed.




(** ** Reading a body *)

(** Waiting for less than what is left before the signal fires. *)
Lemma reader_wait_ok (c : Q) (why : Exn) (d : N) (s : State) :
  now s + us d < c ->
  reader_wait (Some (c, why)) d s = (Normal tt, set_now (now s + us d) s).
Proof.
  intros H. unfold reader_wait. run.
  destruct (Qle_bool c (now s + us d)) eqn:E; [| reflexivity].
  apply Qle_bool_iff in E. exfalso. lra.
Qed.


Lemma transferTime_nonneg (pending : list Chunk) (fin : StreamEnd) :
  0 <= transferTime pending fin.
Proof.
  induction pending as [| x l IH]; unfold transferTime in *; cbn [fold_right].
  - apply us_nonneg.
  - pose proof (us_nonneg (c_delay x)). lra.
Qed.



(** * Location *)




(** * Packet loss *)

Lemma timeout_1500 (w : World) :
  hasAbortSignalTimeout w = true ->
  AbortSignal_timeout w 1500 = ret (SigTimeout 1500).
Proof. unfold AbortSignal_timeout. intros ->. reflexivity. Qed.

Lemma packet_counts_one {w : World} {Hq : quietSinks w}
    (p : Promise Response) (pr : Q) :
  inert p ->
  counts_one
    (finally_
       (catch_
          (then_ p (fun _ =>
             modify (fun s => set_receivedPackets (S (receivedPackets s)) s) ;;
             ret true))
          (fun _ => ret false))
       (updateProgress w packetLoss pr 0)).
Proof.
  intros [r Hr] s. unfold finally_, catch_, then_; cbn [reaction].
  unfold try_catch, bind at 1. rewrite Hr.
  destruct r as [resp | e]; run; rewrite updateProgress_run;
    do 2 eexists; (split; [reflexivity |]);
    rewrite emit_receivedPackets, emit_requests; cbn [receivedPackets requests];
    split; auto.
Qed.

Lemma by_time_Forall {T} (P : Promise T -> Prop) (ps : list (Promise T)) :
  Forall P ps -> Forall (fun y => P (snd y)) (by_time ps).
Proof.
  unfold by_time. generalize 0%nat.
  induction ps as [| p ps IH]; intros n H; simpl; [constructor |].
  inversion H as [| ? ? Hp Hps]; subst.
  specialize (IH (S n) Hps). revert IH.
  generalize (fold_right insert_by_time [] (combine (seq (S n) (List.length ps)) ps)).
  intros l Hl. induction Hl as [| y l Hy Hl IHl]; simpl.
  - constructor; [exact Hp | constructor].
  - destruct (Qle_bool _ _).
    + apply Forall_cons; [exact Hp | apply Forall_cons; assumption].
    + apply Forall_cons; assumption.
Qed.

Lemma insert_by_time_length {T} (x : nat * Promise T) l :
  List.length (insert_by_time x l) = S (List.length l).
Proof.
  induction l as [| y l IH]; simpl; [reflexivity |].
  destruct (Qle_bool _ _); simpl; [reflexivity | rewrite IH; reflexivity].
Qed.

Lemma by_time_length {T} (ps : list (Promise T)) :
  List.length (by_time ps) = List.length ps.
Proof.
  unfold by_time. generalize 0%nat.
  induction ps as [| p ps IH]; intros n; simpl; [reflexivity |].
  rewrite insert_by_time_length, IH. reflexivity.
Qed.

Lemma settle_each_counts (l : list (nat * Promise bool)) :
  Forall (fun y => counts_one (snd y)) l ->
  forall s, exists rs s',
    settle_each l s = (rs, s')
    /\ first_rejection rs = None
    /\ (receivedPackets s' <= receivedPackets s + List.length l)%nat
    /\ requests s' = requests s.
Proof.
  induction 1 as [| [i p] l Hp Hl IH]; intros s; simpl in *.
  - do 2 eexists. repeat split. lia.
  - destruct (Hp (set_now (settles p) s)) as (v & s1 & E & Hc & Hr). rewrite E.
    destruct (IH s1) as (rs & s2 & E2 & Hf & Hc2 & Hr2). rewrite E2.
    do 2 eexists. split; [reflexivity |]. cbn [first_rejection].
    split; [exact Hf |]. cbn [receivedPackets requests set_now] in *.
    split; [lia | congruence].
Qed.

(** Where nothing rejects, the join ends with the last promise. *)
Lemma settled_at_joined {T} (l : list (nat * Promise T)) (rs : list (nat * Completion T))
    (latest : Q) :
  first_rejection rs = None -> settled_at l rs latest = latest.
Proof.
  revert l. induction rs as [| [i r] rs IH]; intros l H.
  - destruct l as [| [j p] l]; reflexivity.
  - destruct l as [| [j p] l]; [reflexivity |].
    destruct r as [v | e]; [| discriminate H]. cbn [settled_at]. apply IH. exact H.
Qed.

Lemma fold_max_le (ts : list Q) (t0 : Q) :
  t0 <= fold_left Qmax ts t0 /\ Forall (fun t => t <= fold_left Qmax ts t0) ts.
Proof.
  revert t0; induction ts as [| t ts IH]; intros t0; simpl.
  - split; [apply Qle_refl | constructor].
  - destruct (IH (Qmax t0 t)) as [H0 Hall]. split.
    + eapply Qle_trans; [apply Q.le_max_l | exact H0].
    + constructor; [| exact Hall].
      eapply Qle_trans; [apply Q.le_max_r | exact H0].
Qed.

Lemma fold_max_settles {T} (ps : list (Promise T)) (t0 : Q) :
  fold_left (fun t p => Qmax t (settles p)) ps t0
  = fold_left Qmax (map settles ps) t0.
Proof.
  revert t0; induction ps as [| p ps IH]; intros t0; simpl; [reflexivity | apply IH].
Qed.

Lemma measurePacketLoss_supported (w : World) {Hq : quietSinks w} (s : State) :
  hasAbortSignalTimeout w = true ->
  exists rp s' iss,
    measurePacketLoss w s = (Normal (lossOf rp), s')
    /\ (rp <= 50)%nat
    /\ requests s' = iss ++ requests s
    /\ List.length iss = 50%nat
    /\ Forall (fun i => settlesAt i <= now s' /\ method (request i) = HEAD) iss.
Proof.
  intros Hsup. unfold measurePacketLoss.
  rewrite (bind_normal _ _ _ _ _ (updateProgress_run _ _ _ _)).
  unfold bind at 1, modify at 1. cbv beta iota.
  set (s1 := set_receivedPackets 0 (emit packetLoss 0 0 s)).
  match goal with |- context [for_ _ _ ?F] => set (LOOP := F) end.
  assert (Hloop : forall indices acc st, exists new st' iss,
             for_ indices acc LOOP st = (Normal (acc ++ new), st')
             /\ List.length new = List.length indices
             /\ Forall counts_one new
             /\ now st' = now st
             /\ receivedPackets st' = receivedPackets st
             /\ requests st' = iss ++ requests st
             /\ map settlesAt iss = rev (map settles new)
             /\ Forall (fun i => method (request i) = HEAD) iss).
  { induction indices as [| i rest IH]; intros acc st.
    - exists [], st, []. cbn [for_ ret]. rewrite app_nil_r.
      repeat split; constructor.
    - cbn [for_]. unfold bind at 1. unfold LOOP at 1.
      unfold bind at 1, Date_now, gets. cbv beta iota.
      rewrite (timeout_1500 w Hsup). unfold bind at 1, ret at 1. cbv beta iota.
      match goal with
      | |- context [fetch w ?req] => destruct (fetch_run w req st) as (p & Ef & Hin)
      end.
      unfold bind at 1. rewrite Ef. cbv beta iota. unfold ret at 1.
      match goal with
      | |- context [for_ rest (acc ++ [?q]) LOOP ?st1] =>
          destruct (IH (acc ++ [q]) st1)
            as (new & st' & iss & E & Hlen & Hc & Hnow & Hrp & Hreq & Hset & Hm);
          exists (q :: new), st'
      end.
      eexists (iss ++ [_]).
      rewrite E, <- app_assoc. split; [reflexivity |].
      split; [cbn [List.length]; rewrite Hlen; reflexivity |].
      split; [constructor; [apply packet_counts_one; exact Hin | exact Hc] |].
      split; [rewrite Hnow; reflexivity |].
      split; [rewrite Hrp; reflexivity |].
      split; [rewrite Hreq, <- app_assoc; reflexivity |].
      split.
      + rewrite map_app, Hset. cbn [map rev settles finally_ catch_ then_ settlesAt].
        reflexivity.
      + apply Forall_app; split; [exact Hm |]. constructor; [reflexivity | constructor]. }
  destruct (Hloop (seq 0 50) [] s1)
    as (reqs & s2 & iss & E & Hlen & Hc & Hnow & Hrp & Hreq & Hset & Hm).
  cbn [app] in E.
  pose (s3 := set_now (Qmax (now s2)
                            (fold_left (fun t p => Qmax t (settles p)) reqs (now s2))) s2).
  destruct (settle_each_counts (by_time reqs) (by_time_Forall _ _ Hc) s2)
    as (rs & s4 & E4 & Hf & Hc4 & Hr4).
  exists (receivedPackets s4), (set_now (now s3) s4), iss.
  split; [| split; [| split; [| split]]].
  - erewrite try_normal; [reflexivity |].
    unfold bind at 1. rewrite E. unfold bind at 1, await_all. cbv zeta.
    rewrite E4, Hf, (settled_at_joined _ _ _ Hf).
    unfold bind, gets, ret. reflexivity.
  - rewrite by_time_length, Hlen, length_seq in Hc4.
    rewrite Hrp in Hc4.
    cbn [receivedPackets s1 set_receivedPackets] in Hc4. lia.
  - cbn [requests set_now]. rewrite Hr4. cbn [requests s3 set_now].
    rewrite Hreq. unfold s1. cbn [requests set_receivedPackets].
    rewrite emit_requests. reflexivity.
  - rewrite <- (length_map settlesAt), Hset, length_rev, length_map, Hlen.
    apply length_seq.
  - cbn [now set_now s3].
    rewrite fold_max_settles.
    destruct (fold_max_le (map settles reqs) (now s2)) as [_ Hall].
    assert (Hall' : Forall (fun t => t <= Qmax (now s2)
                                            (fold_left Qmax (map settles reqs) (now s2)))
                           (map settlesAt iss)).
    { rewrite Hset. apply Forall_rev.
      eapply Forall_impl; [| exact Hall]. intros t Ht.
      eapply Qle_trans; [exact Ht | apply Q.le_max_r]. }
    clear - Hall' Hm. induction iss as [| i iss IH]; [constructor |].
    inversion Hall'; inversion Hm; subst. constructor; [split; assumption | auto].
Qed.

Lemma measurePacketLoss_legacy (w : World) {Hq : quietSinks w} (s : State) :
  hasAbortSignalTimeout w = false ->
  measurePacketLoss w s
  = (Normal {| percentage := 5; sent := 50; received := 47 |},
     set_receivedPackets 0 (emit packetLoss 0 0 s)).
Proof.
  intros Hsup. unfold measurePacketLoss.
  rewrite (bind_normal _ _ _ _ _ (updateProgress_run _ _ _ _)).
  unfold bind at 1, modify. cbv beta iota.
  destruct (timeout_none w 1500 Hsup) as [e He].
  cbn [for_ seq]. unfold try_catch, bind at 1. unfold bind at 1.
  unfold bind at 1, Date_now, gets. cbv beta iota. rewrite He.
  unfold bind at 1, throw. cbv beta iota. reflexivity.
Qed.

(** C2 (the fallback path).  Where [AbortSignal.timeout] is missing, the
    first request of the batch throws and [measurePacketLoss] returns its
    fallback: 50 sent, 47 received, and a percentage of 5, whereas
    [100 * (50 - 47) / 50] is 6. *)
Theorem measurePacketLoss_fallback_mismatch :
  exists pl s',
    measurePacketLoss Sample.legacy Sample.fresh = (Normal pl, s')
    /\ sent pl == 50 /\ received pl == 47 /\ percentage pl == 5
    /\ round1 (100 * (sent pl - received pl) / sent pl) == 6
    /\ ~ percentage pl == round1 (100 * (sent pl - received pl) / sent pl).
Proof.
  do 2 eexists.
  split; [exact (measurePacketLoss_legacy Sample.legacy Sample.fresh eq_refl) |].
  cbn [sent received percentage].
  repeat (split; [reflexivity |]). intros H; discriminate H.
Qed.

(** * The run as a whole *)




Lemma total_Math_random (w : World) : total (Math_random w).
Proof. intros s; do 2 eexists; reflexivity. Qed.

Lemma total_runSpeedTest (w : World) {Hq : quietSinks w} : total (runSpeedTest w).
Proof.
  unfold runSpeedTest.
  apply total_bind; [apply total_modify | intros _].
  apply total_bind; [apply total_modify | intros _].
  apply total_bind; [apply total_gets | intros startTime].
  apply total_try. intros e.
  apply total_bind; [apply total_gets | intros id_].
  apply total_bind; [apply total_gets | intros timestamp_].
  apply total_bind; [apply total_Math_random | intros r1].
  apply total_bind; [apply total_Math_random | intros r2].
  apply total_bind; [apply total_Math_random | intros r3].
  apply total_bind; [apply total_Math_random | intros r4].
  apply total_bind; [apply total_getUserLocation | intros userLocation_].
  apply total_bind; [apply total_gets | intros end_].
  apply total_bind; [apply total_gets | intros enabled].
  apply total_bind; [apply total_updateProgress | intros _].
  apply total_ret.
Qed.


(** ** What a method throws *)








(** The run of [RunExample.broken] ends with the record of the fallback result. *)
Lemma fallback_reached :
  RunExample.outcome Sample.offline RunExample.broken
  = Some ("Global CDN", Some {| percentage := 2; sent := 50; received := 49 |}).
Proof. vm_compute. reflexivity. Qed.

(** The run of a fresh engine goes through the phases: offline, all fifty
    packets are lost. *)
Lemma phases_reached :
  RunExample.outcome Sample.offline Sample.fresh
  = Some ("Global CDN", Some {| percentage := 100; sent := 50; received := 0 |}).
Proof. vm_compute. reflexivity. Qed.



(** * Fan-out of the throughput phases *)


Lemma settle_each_resolved {T} (l : list (nat * Promise T)) :
  Forall (fun y => resolved (snd y)) l ->
  forall s, exists rs s2,
    settle_each l s = (rs, s2)
    /\ first_rejection rs = None
    /\ forall t, set_now t s2 = set_now t s.
Proof.
  induction 1 as [| [i p] l Hp Hl IH]; intros s; simpl in *.
  - do 2 eexists. repeat split.
  - destruct Hp as [v Hv]. rewrite Hv.
    destruct (IH (set_now (settles p) s)) as (rs & s2 & E & Hf & Hs). rewrite E.
    do 2 eexists. split; [reflexivity |]. split; [exact Hf |].
    intros t. rewrite Hs. reflexivity.
Qed.

Lemma insert_by_time_perm {T} (x : nat * Promise T) (l : list (nat * Promise T)) :
  Permutation (insert_by_time x l) (x :: l).
Proof.
  induction l as [| y l IH]; cbn [insert_by_time]; [apply Permutation_refl |].
  destruct (Qle_bool _ _); [apply Permutation_refl |].
  eapply Permutation_trans; [apply perm_skip, IH | apply perm_swap].
Qed.

Lemma by_time_perm {T} (ps : list (Promise T)) :
  Permutation (by_time ps) (combine (seq 0 (List.length ps)) ps).
Proof.
  unfold by_time. generalize (combine (seq 0 (List.length ps)) ps). intros l.
  induction l as [| x l IH]; cbn [fold_right]; [apply Permutation_refl |].
  eapply Permutation_trans; [apply insert_by_time_perm | apply perm_skip, IH].
Qed.

(** Settling fulfilled promises yields their values, whatever the state. *)
Lemma settle_each_values {T} (l : list (nat * Promise T)) (s0 : State) :
  Forall (fun y => resolved (snd y)) l ->
  forall s, exists s2,
    settle_each l s = (map (fun y => (fst y, fst (reaction (snd y) s0))) l, s2)
    /\ forall t, set_now t s2 = set_now t s.
Proof.
  induction 1 as [| [i p] l Hp Hl IH]; intros s; cbn [settle_each map fst snd] in *.
  - eexists. split; reflexivity.
  - destruct Hp as [v Hv]. rewrite !Hv. cbn [fst].
    destruct (IH (set_now (settles p) s)) as (s2 & E & Hs). rewrite E.
    eexists. split; [reflexivity |]. intros t. rewrite Hs. reflexivity.
Qed.

Lemma value_at_In {T} (i : nat) (v : T) (rs : list (nat * Completion T)) :
  NoDup (map fst rs) -> In (i, Normal v) rs -> value_at i rs = [v].
Proof.
  induction rs as [| [j r] rs IH]; intros Hnd Hin; [destruct Hin |].
  cbn [map fst] in Hnd. inversion Hnd as [| ? ? Hnotin Hnd']; subst.
  destruct Hin as [Heq | Hin].
  - injection Heq as -> ->. cbn [value_at]. rewrite Nat.eqb_refl. reflexivity.
  - assert (Hij : i <> j).
    { intros ->. apply Hnotin. apply (in_map fst) in Hin. exact Hin. }
    apply Nat.eqb_neq in Hij.
    cbn [value_at]. destruct r; [rewrite Hij |]; apply IH; assumption.
Qed.

Lemma combine_seq_fst {T} (l : list T) (k : nat) :
  map fst (combine (seq k (List.length l)) l) = seq k (List.length l).
Proof.
  revert k; induction l as [| x l IH]; intros k; [reflexivity |].
  cbn [List.length seq combine map fst]. rewrite IH. reflexivity.
Qed.

Lemma combine_seq_In {T} (l : list T) (k j : nat) (x : T) :
  nth_error l j = Some x -> In ((k + j)%nat, x) (combine (seq k (List.length l)) l).
Proof.
  revert k j; induction l as [| y l IH]; intros k j H; [destruct j; discriminate |].
  cbn [List.length seq combine]. destruct j as [| j]; cbn [nth_error] in H.
  - injection H as ->. left. rewrite Nat.add_0_r. reflexivity.
  - right. replace (k + S j)%nat with (S k + j)%nat by lia. apply IH, H.
Qed.

Lemma values_in_order {T} (rs : list (nat * Completion T)) (vs : list T) :
  forall k,
    (forall j v, nth_error vs j = Some v -> value_at (k + j) rs = [v]) ->
    flat_map (fun i => value_at i rs) (seq k (List.length vs)) = vs.
Proof.
  induction vs as [| v vs IH]; intros k H; [reflexivity |].
  cbn [List.length seq flat_map].
  rewrite <- (Nat.add_0_r k) at 1. rewrite (H 0%nat v eq_refl).
  cbn [app]. f_equal. apply IH. intros j x Hj.
  replace (S k + j)%nat with (k + S j)%nat by lia. apply H. exact Hj.
Qed.

(** Joining fulfilled promises delivers their values in the order of the
    promises, at the moment the last of them settles. *)
Lemma await_all_values {T U} (ps : list (Promise T)) (vs : list T)
    (k : list T -> M U) (s : State) :
  Forall2 fulfils ps vs ->
  bind (await_all ps) k s
  = k vs (set_now (Qmax (now s) (fold_left Qmax (map settles ps) (now s))) s).
Proof.
  intros H.
  assert (Hres : Forall resolved ps).
  { clear - H. induction H as [| p v ps vs Hp _ IH]; constructor; [| exact IH].
    exists v. exact Hp. }
  assert (Hlen : List.length vs = List.length ps).
  { symmetry. eapply Forall2_length, H. }
  unfold bind at 1, await_all. cbv zeta.
  destruct (settle_each_values (by_time ps) s (by_time_Forall _ _ Hres) s)
    as (s2 & E & Hs).
  rewrite E.
  set (G := fun y : nat * Promise T => (fst y, fst (reaction (snd y) s))).
  assert (Hperm : Permutation (map G (by_time ps))
                              (map G (combine (seq 0 (List.length ps)) ps))).
  { apply Permutation_map, by_time_perm. }
  assert (Hkeys : NoDup (map fst (map G (by_time ps)))).
  { eapply Permutation_NoDup; [apply Permutation_sym, Permutation_map, Hperm |].
    rewrite map_map, (map_ext (fun y => fst (G y)) fst) by reflexivity.
    rewrite (combine_seq_fst ps 0). apply seq_NoDup. }
  assert (Hall : forall j v, nth_error vs j = Some v ->
                             In (j, Normal v) (map G (by_time ps))).
  { intros j v Hj. eapply Permutation_in; [apply Permutation_sym, Hperm |].
    change j with (0 + j)%nat. revert j Hj. generalize 0%nat.
    clear - H. induction H as [| p x ps vs Hp _ IH]; intros n j Hj;
      [destruct j; discriminate |].
    cbn [List.length seq combine map].
    destruct j as [| j]; cbn [nth_error] in Hj.
    - injection Hj as ->. left. unfold G. cbn [fst snd].
      rewrite Hp, Nat.add_0_r. reflexivity.
    - right. replace (n + S j)%nat with (S n + j)%nat by lia. apply IH, Hj. }
  assert (Hnone : first_rejection (map G (by_time ps)) = None).
  { clear - Hres. pose proof (by_time_Forall _ _ Hres) as Hf. unfold G.
    induction Hf as [| [i p] l [v Hv] _ IH]; [reflexivity |].
    cbn [map first_rejection fst snd]. rewrite Hv. exact IH. }
  rewrite Hnone, (settled_at_joined _ _ _ Hnone), Hs, fold_max_settles, <- Hlen.
  rewrite (values_in_order _ vs 0).
  - reflexivity.
  - intros j v Hj. cbn [Nat.add]. apply value_at_In; [exact Hkeys | apply Hall, Hj].
Qed.

Lemma resolved_fulfils {T} (ps : list (Promise T)) :
  Forall resolved ps -> exists vs, Forall2 fulfils ps vs.
Proof.
  induction 1 as [| p ps [v Hv] _ [vs IH]]; [exists []; constructor |].
  exists (v :: vs). constructor; [exact Hv | exact IH].
Qed.

(** Joining fulfilled promises only moves the clock, to the moment the
    last of them settles. *)
Lemma await_all_at {T U} (ps : list (Promise T)) (k : list T -> M U) (s : State) :
  Forall resolved ps ->
  exists vs,
    bind (await_all ps) k s
    = k vs (set_now (Qmax (now s) (fold_left Qmax (map settles ps) (now s))) s).
Proof.
  intros H. destruct (resolved_fulfils ps H) as [vs Hvs].
  exists vs. apply await_all_values, Hvs.
Qed.

Lemma await_all_resolved {T U} (ps : list (Promise T)) (k : list T -> M U) (s : State) :
  Forall resolved ps ->
  exists vs t, bind (await_all ps) k s = k vs (set_now t s).
Proof.
  intros H. destruct (await_all_at ps k s H) as (vs & E).
  do 2 eexists. exact E.
Qed.

(** Tasks spawned side by side, each of which returns: their promises are
    fulfilled with what they return.  [R] is any relation between states
    that the tasks keep and that does not look at the clock. *)
Lemma spawn_all_values {T U} (task : T -> nat -> M U) (P : U -> Prop)
    (R : State -> State -> Prop) :
  (forall s, R s s) ->
  (forall s1 s2 s3, R s1 s2 -> R s2 s3 -> R s1 s3) ->
  (forall t s, R s (set_now t s)) ->
  (forall x i, total (task x i)) ->
  (forall x i s, R s (snd (task x i s))) ->
  (forall x i, ensures (task x i) (fun v _ => P v)) ->
  forall l i0 s, exists ps vs s',
    map_ (fun x i => spawn (task x i)) l i0 s = (Normal ps, s')
    /\ Forall2 fulfils ps vs
    /\ Forall P vs
    /\ List.length vs = List.length l
    /\ R s s'
    /\ now s' = now s.
Proof.
  intros Hrefl Htrans Hclock Htot Hkeep Hval l.
  induction l as [| x l IH]; intros i0 s.
  - exists [], [], s. cbn. repeat split; try constructor. apply Hrefl.
  - cbn [map_]. destruct (Htot x i0 s) as (v & s1 & E).
    pose proof (Hkeep x i0 s) as HR. rewrite E in HR. cbn [snd] in HR.
    pose proof (Hval x i0 s v s1 E) as HP.
    unfold bind at 1, spawn at 1. rewrite E. cbv beta iota.
    destruct (IH (S i0) (set_now (now s) s1))
      as (ps & vs & s' & E' & Hful & HPs & Hlen & HR' & Hnow).
    unfold bind at 1. rewrite E'. cbv beta iota. unfold ret.
    eexists. exists (v :: vs). eexists. split; [reflexivity |].
    split; [constructor; [intros s2; reflexivity | exact Hful] |].
    split; [constructor; assumption |].
    split; [cbn [List.length]; rewrite Hlen; reflexivity |].
    split; [| exact Hnow].
    eapply Htrans; [exact HR |]. eapply Htrans; [apply Hclock | exact HR'].
Qed.

(** What [Array] makes of a number that is a natural number in range. *)
Lemma Array_valid (len : Q) (n : nat) :
  len == Qnat n -> (Z.of_nat n <= 2 ^ 32 - 1)%Z -> Array_ len = ret n.
Proof.
  intros Hlen Hn. unfold Array_.
  assert (Hfloor : Qfloor len = Z.of_nat n).
  { rewrite Hlen. unfold Qnat. apply Qfloor_Z. }
  unfold is_integer. rewrite Hfloor.
  assert (H1 : Qeq_bool len (inject_Z (Z.of_nat n)) = true)
    by (apply Qeq_bool_iff; exact Hlen).
  assert (H2 : Qle_bool 0 len = true).
  { apply Qle_bool_iff. rewrite Hlen. unfold Qnat, Qle; simpl. lia. }
  assert (H3 : Qle_bool len (inject_Z (2 ^ 32 - 1)) = true).
  { apply Qle_bool_iff. rewrite Hlen. unfold Qnat. rewrite <- Zle_Qle. exact Hn. }
  rewrite H1, H2, H3, Nat2Z.id. reflexivity.
Qed.












(** Where the platform refuses the buffer, an upload task ends in its
    [catch] block before it asks for anything: it returns one draw. *)
Lemma uploadTask_over_quota (w : World) (startTime : Q) (index : nat) (s : State) :
  refuses_upload w ->
  uploadTask w startTime index s
  = (Normal (unit01 (random w (rndIx s)) * 25 + 8), set_rndIx (S (rndIx s)) s).
Proof.
  intros Hq. unfold uploadTask, try_catch, bind at 1, crypto_getRandomValues.
  change (1 * 1024 * 1024)%N with 1048576%N.
  apply N.leb_gt in Hq. rewrite Hq. reflexivity.
Qed.

Lemma measured_all (l : list Q) : Forall (fun x => 0 < x) l -> measured l = l.
Proof.
  induction 1 as [| x l Hx Hl IH]; [reflexivity |].
  unfold measured in *. cbn [filter].
  apply Qltb_lt in Hx. rewrite Hx, IH. reflexivity.
Qed.








(** * Joining what a phase fans out *)




Lemma fold_max_mono (ts : list Q) (t0 t1 : Q) :
  t0 <= t1 -> fold_left Qmax ts t0 <= fold_left Qmax ts t1.
Proof.
  revert t0 t1; induction ts as [| t ts IH]; intros t0 t1 H; simpl; [exact H |].
  apply IH. apply Q.max_le_compat_r. exact H.
Qed.

(** Tasks that each join their own requests, spawned side by side: every
    request settles before the last task does. *)
Lemma spawn_all_joined {T U} (task : T -> nat -> M U) :
  (forall x i, total (task x i)) ->
  (forall x i, sat settled (task x i) any) ->
  forall l i0 s, exists ps s' new,
    map_ (fun x i => spawn (task x i)) l i0 s = (Normal ps, s')
    /\ now s' = now s
    /\ requests s' = new ++ requests s
    /\ Forall resolved ps
    /\ Forall (fun i => settlesAt i <= fold_left Qmax (map settles ps) (now s)) new.
Proof.
  intros Htot Hsat l. induction l as [| x l IH]; intros i0 s.
  - exists [], s, []. cbn. repeat split; constructor.
  - cbn [map_]. destruct (Htot x i0 s) as (v & s1 & E).
    destruct (Hsat x i0 s) as [(Hle & n1 & Hreq1 & Hall1) _].
    rewrite E in Hle, Hreq1, Hall1. cbn [snd] in Hle, Hreq1, Hall1.
    unfold bind at 1, spawn at 1. rewrite E. cbv beta iota.
    destruct (IH (S i0) (set_now (now s) s1))
      as (ps & s' & n2 & E' & Hnow & Hreq2 & Hps & Hall2).
    cbn [now requests set_now] in Hnow, Hreq2, Hall2.
    unfold bind at 1. rewrite E'. cbv beta iota. unfold ret.
    do 2 eexists. exists (n2 ++ n1). split; [reflexivity |].
    split; [exact Hnow |].
    split; [rewrite Hreq2, Hreq1, app_assoc; reflexivity |].
    split; [constructor; [eexists; intros; reflexivity | exact Hps] |].
    cbn [map settles fold_left].
    apply Forall_app; split.
    + eapply Forall_impl; [| exact Hall2]. intros i Hi. simpl in Hi.
      eapply Qle_trans; [exact Hi |]. apply fold_max_mono, Q.le_max_l.
    + eapply Forall_impl; [| exact Hall1]. intros i Hi. simpl in Hi.
      eapply Qle_trans; [exact Hi |].
      eapply Qle_trans; [apply Q.le_max_r |].
      apply (fold_max_le (map settles ps) (Qmax (now s) (now s1))).
Qed.




Lemma total_downloadTask (w : World) startTime u index :
  total (downloadTask w startTime u index).
Proof.
  apply total_try. intros e.
  apply total_bind; [apply total_Math_random | intros; apply total_ret].
Qed.

Lemma total_uploadTask (w : World) startTime index :
  total (uploadTask w startTime index).
Proof.
  apply total_try. intros e.
  apply total_bind; [apply total_Math_random | intros; apply total_ret].
Qed.








(** With a progress sink that throws on the progress of the packet-loss
    phase, the callback of the first probe to settle rejects, the join
    rejects with it, and [measurePacketLoss] returns its fallback record
    after 10 ms, with the other forty-nine probes in flight. *)
Lemma packet_loss_returns_before_probes :
  LoadExample.packets_in_flight LoadExample.throwing_sink Sample.fresh
  = Some (5, 50, 47, 49%nat, 10).
Proof. vm_compute. reflexivity. Qed.


(** * Cancellation *)

Lemma alike_refl {T} (m : M T) : alike m m.
Proof. intros s; reflexivity. Qed.

Lemma alike_bind {T U} (m m' : M T) (k k' : T -> M U) :
  alike m m' -> (forall v, alike (k v) (k' v)) -> alike (bind m k) (bind m' k').
Proof.
  intros Hm Hk s. unfold bind. rewrite Hm.
  destruct (m' s) as [[v | e] s1]; [apply Hk | reflexivity].
Qed.

(** The continuations need to agree only on the values that the first part
    can return. *)
Lemma alike_bind_val {T U} (m : M T) (k k' : T -> M U) (P : T -> Prop) :
  ensures m (fun v _ => P v) -> (forall v, P v -> alike (k v) (k' v)) ->
  alike (bind m k) (bind m k').
Proof.
  intros Hm Hk s. unfold bind.
  destruct (m s) as [[v | e] s1] eqn:E; [| reflexivity].
  apply Hk. exact (Hm s v s1 E).
Qed.

Lemma alike_try {T} (m m' : M T) h h' :
  alike m m' -> (forall e, alike (h e) (h' e)) -> alike (try_catch m h) (try_catch m' h').
Proof.
  intros Hm Hh s. unfold try_catch. rewrite Hm.
  destruct (m' s) as [[v | e] s1]; [reflexivity | apply Hh].
Qed.

Lemma alike_for {T} (body body' : nat -> T -> M T) :
  (forall i acc, alike (body i acc) (body' i acc)) ->
  forall indices acc, alike (for_ indices acc body) (for_ indices acc body').
Proof.
  intros Hb indices; induction indices as [| i rest IH]; intros acc; cbn [for_].
  - apply alike_refl.
  - apply alike_bind; [apply Hb | intros; apply IH].
Qed.

Lemma alike_map {T U} (f f' : T -> nat -> M U) :
  (forall x i, alike (f x i) (f' x i)) ->
  forall l i, alike (map_ f l i) (map_ f' l i).
Proof.
  intros Hf l; induction l as [| x l IH]; intros i; cbn [map_].
  - apply alike_refl.
  - apply alike_bind; [apply Hf | intros y].
    apply alike_bind; [apply IH | intros; apply alike_refl].
Qed.

Lemma alike_spawn {T} (task task' : M T) :
  alike task task' -> alike (spawn task) (spawn task').
Proof. intros H s. unfold spawn. rewrite H. reflexivity. Qed.

Lemma alike_if {T} (c : bool) (m1 m1' m2 m2' : M T) :
  alike m1 m1' -> alike m2 m2' ->
  alike (if c then m1 else m2) (if c then m1' else m2').
Proof. destruct c; auto. Qed.

Lemma AbortSignal_timeout_timed (w : World) (ms : Q) :
  ensures (AbortSignal_timeout w ms) (fun sig _ => timed sig).
Proof.
  intros s sig s'. unfold AbortSignal_timeout.
  destruct (hasAbortSignalTimeout w); [| discriminate].
  destruct (_ && _)%bool; [| discriminate].
  intros E; injection E as <- _. eexists; reflexivity.
Qed.

Section Abort.

Variable w : World.
Variable t : option Q.

(** A request whose signal is a timeout settles the same way whether or
    not, and whenever, the caller aborts. *)
Lemma fetch_ignores_abort (u : string) (m : Method) (mo ca : option string) (b : N)
    (sig : Signal) :
  timed sig ->
  alike (fetch (with_abort w t)
               {| url := u; method := m; mode := mo; cache := ca; bodyBytes := b;
                  signal := sig |})
        (fetch w {| url := u; method := m; mode := mo; cache := ca; bodyBytes := b;
                    signal := sig |}).
Proof. intros [ms ->] s. reflexivity. Qed.

Lemma quickPing_ignores_abort (u : string) :
  alike (quickPing (with_abort w t) u) (quickPing w u).
Proof.
  unfold quickPing. apply alike_try; [| intros; apply alike_refl].
  apply alike_bind; [apply alike_refl | intros start].
  apply alike_bind_val with (P := timed);
    [apply (AbortSignal_timeout_timed w) | intros sig Hsig].
  apply alike_bind; [apply fetch_ignores_abort, Hsig | intros; apply alike_refl].
Qed.

Lemma findBestServer_ignores_abort :
  alike (findBestServer (with_abort w t)) (findBestServer w).
Proof.
  unfold findBestServer.
  apply alike_bind; [| intros; apply alike_refl].
  apply alike_map. intros server i. apply alike_spawn.
  apply alike_try; [| intros; apply alike_refl].
  apply alike_bind; [apply quickPing_ignores_abort | intros; apply alike_refl].
Qed.

Lemma measurePing_ignores_abort :
  alike (measurePing (with_abort w t)) (measurePing w).
Proof.
  unfold measurePing. apply alike_bind; [| intros; apply alike_refl].
  apply alike_for. intros i acc.
  apply alike_try; [| intros; apply alike_refl].
  apply alike_bind; [apply alike_refl | intros start].
  apply alike_bind_val with (P := timed);
    [apply (AbortSignal_timeout_timed w) | intros sig Hsig].
  apply alike_bind; [apply fetch_ignores_abort, Hsig | intros; apply alike_refl].
Qed.

Lemma downloadTask_ignores_abort startTime u index :
  alike (downloadTask (with_abort w t) startTime u index)
        (downloadTask w startTime u index).
Proof.
  unfold downloadTask. apply alike_try; [| intros; apply alike_refl].
  apply alike_bind; [apply alike_refl | intros requestStart].
  apply alike_bind; [apply alike_refl | intros d].
  apply alike_bind_val with (P := timed);
    [apply (AbortSignal_timeout_timed w) | intros sig Hsig].
  apply alike_bind; [apply fetch_ignores_abort, Hsig | intros; apply alike_refl].
Qed.

Lemma measureDownloadSpeed_ignores_abort :
  alike (measureDownloadSpeed (with_abort w t)) (measureDownloadSpeed w).
Proof.
  unfold measureDownloadSpeed.
  apply alike_bind; [apply alike_refl | intros startTime].
  apply alike_bind; [apply alike_refl | intros pc].
  apply alike_bind; [apply alike_refl | intros n].
  apply alike_bind; [| intros; apply alike_refl].
  apply alike_map. intros u i. apply alike_spawn, downloadTask_ignores_abort.
Qed.

Lemma uploadTask_ignores_abort startTime index :
  alike (uploadTask (with_abort w t) startTime index) (uploadTask w startTime index).
Proof.
  unfold uploadTask. apply alike_try; [| intros; apply alike_refl].
  apply alike_bind; [apply alike_refl | intros _].
  apply alike_bind; [apply alike_refl | intros requestStart].
  apply alike_bind; [apply alike_refl | intros d].
  apply alike_bind_val with (P := timed);
    [apply (AbortSignal_timeout_timed w) | intros sig Hsig].
  apply alike_bind; [apply fetch_ignores_abort, Hsig | intros; apply alike_refl].
Qed.

Lemma measureUploadSpeed_ignores_abort :
  alike (measureUploadSpeed (with_abort w t)) (measureUploadSpeed w).
Proof.
  unfold measureUploadSpeed.
  apply alike_bind; [apply alike_refl | intros startTime].
  apply alike_bind; [apply alike_refl | intros pc].
  apply alike_bind; [apply alike_refl | intros n].
  apply alike_bind; [| intros; apply alike_refl].
  apply alike_map. intros u i. apply alike_spawn, uploadTask_ignores_abort.
Qed.

Lemma measureBufferbloat_ignores_abort basePing :
  alike (measureBufferbloat (with_abort w t) basePing) (measureBufferbloat w basePing).
Proof.
  unfold measureBufferbloat.
  apply alike_bind; [apply alike_refl | intros enabled].
  apply alike_if; [apply alike_refl |].
  apply alike_bind; [apply alike_refl | intros _].
  apply alike_try; [| intros; apply alike_refl].
  apply alike_bind; [apply alike_refl | intros loadPromises].
  apply alike_bind; [| intros; apply alike_refl].
  apply alike_for. intros i acc.
  apply alike_bind; [apply measurePing_ignores_abort | intros; apply alike_refl].
Qed.

Lemma measurePacketLoss_ignores_abort :
  alike (measurePacketLoss (with_abort w t)) (measurePacketLoss w).
Proof.
  unfold measurePacketLoss.
  apply alike_bind; [apply alike_refl | intros _].
  apply alike_bind; [apply alike_refl | intros _].
  apply alike_try; [| intros; apply alike_refl].
  apply alike_bind; [| intros; apply alike_refl].
  apply alike_for. intros i acc.
  apply alike_bind; [apply alike_refl | intros stamp].
  apply alike_bind_val with (P := timed);
    [apply (AbortSignal_timeout_timed w) | intros sig Hsig].
  apply alike_bind; [apply fetch_ignores_abort, Hsig | intros; apply alike_refl].
Qed.

Lemma getUserLocation_ignores_abort :
  alike (getUserLocation (with_abort w t)) (getUserLocation w).
Proof.
  unfold getUserLocation. apply alike_try; [| intros; apply alike_refl].
  apply alike_bind_val with (P := timed);
    [apply (AbortSignal_timeout_timed w) | intros sig Hsig].
  apply alike_bind; [apply fetch_ignores_abort, Hsig | intros; apply alike_refl].
Qed.

Lemma runSpeedTest_ignores_abort :
  alike (runSpeedTest (with_abort w t)) (runSpeedTest w).
Proof.
  unfold runSpeedTest.
  apply alike_bind; [apply alike_refl | intros _].
  apply alike_bind; [apply alike_refl | intros _].
  apply alike_bind; [apply alike_refl | intros startTime].
  apply alike_try.
  - apply alike_bind; [apply alike_refl | intros _].
    apply alike_bind; [apply findBestServer_ignores_abort | intros bestServer].
    apply alike_bind; [apply alike_refl | intros _].
    apply alike_bind.
    { apply alike_for. intros i acc.
      apply alike_bind; [apply measurePing_ignores_abort | intros; apply alike_refl]. }
    intros pings.
    apply alike_bind; [apply alike_refl | intros total_].
    apply alike_bind; [apply alike_refl | intros jitter_].
    apply alike_bind; [apply alike_refl | intros _].
    apply alike_bind; [apply measureDownloadSpeed_ignores_abort | intros downloadSpeed_].
    apply alike_bind; [apply alike_refl | intros _].
    apply alike_bind; [apply measureUploadSpeed_ignores_abort | intros uploadSpeed_].
    apply alike_bind; [apply alike_refl | intros _].
    apply alike_bind; [apply measurePacketLoss_ignores_abort | intros packetLoss_].
    apply alike_bind; [apply alike_refl | intros enabled].
    apply alike_bind.
    { apply alike_if; [| apply alike_refl].
      apply alike_bind; [apply measureBufferbloat_ignores_abort |
                         intros; apply alike_refl]. }
    intros bufferbloat_.
    apply alike_bind; [apply getUserLocation_ignores_abort | intros userLocation_].
    apply alike_refl.
  - intros e.
    apply alike_bind; [apply alike_refl | intros id_].
    apply alike_bind; [apply alike_refl | intros timestamp_].
    apply alike_bind; [apply alike_refl | intros r1].
    apply alike_bind; [apply alike_refl | intros r2].
    apply alike_bind; [apply alike_refl | intros r3].
    apply alike_bind; [apply alike_refl | intros r4].
    apply alike_bind; [apply getUserLocation_ignores_abort | intros userLocation_].
    apply alike_refl.
Qed.

End Abort.

Lemma runSpeedTest_uncontrolled (w : World) (s : State) :
  exists new,
    requests (snd (runSpeedTest w s)) = new ++ requests s
    /\ Forall (fun i => signal (request i) <> SigController) new.
Proof.
  apply (sat_rel uncontrolled (runSpeedTest w) any s).
  apply sat_runSpeedTest; [intros req H; exact H .. | intros; exact I].
Qed.

(** The shared token fires at 1000 ms, and the four tasks in flight go on
    to their own deadline at 10000 ms. *)
Lemma download_runs_to_deadline :
  option_map (fun c => Qred (fst c))
             (fires AbortExample.aborted_at_1s SigController AbortExample.running)
  = Some 1000
  /\ AbortExample.download_ends AbortExample.aborted_at_1s AbortExample.running
     = Some (10000, [50; 50; 50; 50]).
Proof. split; vm_compute; reflexivity. Qed.

(** C3 (what the code does instead).  Whether and whenever the caller
    invokes [abort()], a run and its download phase behave as if it never
    did: every request that the engine puts on the network carries a
    timeout signal of its own or none, never the controller's. *)
Theorem abort_not_observed (w : World) (t : option Q) (s : State) :
  runSpeedTest (with_abort w t) s = runSpeedTest w s
  /\ measureDownloadSpeed (with_abort w t) s = measureDownloadSpeed w s
  /\ measureUploadSpeed (with_abort w t) s = measureUploadSpeed w s
  /\ measurePing (with_abort w t) s = measurePing w s
  /\ (exists new,
         requests (snd (runSpeedTest w s)) = new ++ requests s
         /\ Forall (fun i => signal (request i) <> SigController) new)
  /\ AbortExample.download_ends AbortExample.aborted_at_1s AbortExample.running
     = Some (10000, [50; 50; 50; 50]).
Proof.
  split; [apply runSpeedTest_ignores_abort |].
  split; [apply measureDownloadSpeed_ignores_abort |].
  split; [apply measureUploadSpeed_ignores_abort |].
  split; [apply measurePing_ignores_abort |].
  split; [apply runSpeedTest_uncontrolled |].
  apply download_runs_to_deadline.
Qed.
(** * Rounding to one decimal *)

Lemma Qfloor_half (z : Z) : Qfloor (inject_Z z + (1 # 2)) = z.
Proof.
  pose proof (Qfloor_le (inject_Z z + (1 # 2))) as Hlo.
  pose proof (Qlt_floor (inject_Z z + (1 # 2))) as Hhi.
  revert Hlo Hhi. generalize (Qfloor (inject_Z z + (1 # 2))). intros f Hlo Hhi.
  unfold Qle, Qlt in *; simpl in *. lia.
Qed.

Lemma round1_bounds (x : Q) : x - (1 # 20) < round1 x /\ round1 x <= x + (1 # 20).
Proof.
  unfold round1, Math_round.
  pose proof (Qfloor_le (x * 10 + (1 # 2))) as Hlo.
  pose proof (Qlt_floor (x * 10 + (1 # 2))) as Hhi.
  revert Hlo Hhi. generalize (Qfloor (x * 10 + (1 # 2))). intros f Hlo Hhi.
  rewrite inject_Z_plus in Hhi. change (inject_Z 1) with 1 in Hhi.
  split.
  - apply Qlt_shift_div_l; [reflexivity | lra].
  - apply Qle_shift_div_r; [reflexivity | lra].
Qed.

Lemma round1_le (x y : Q) : x <= y -> round1 x <= round1 y.
Proof.
  intros H. unfold round1, Math_round.
  apply Qmult_le_compat_r; [| discriminate].
  rewrite <- Zle_Qle. apply Qfloor_resp_le. lra.
Qed.

Lemma round1_tenths (z : Z) : round1 (inject_Z z / 10) == inject_Z z / 10.
Proof.
  unfold round1, Math_round.
  assert (E : inject_Z z / 10 * 10 + (1 # 2) == inject_Z z + (1 # 2)) by field.
  rewrite E, Qfloor_half. reflexivity.
Qed.

(** X1. [Math.round(x * 10) / 10] grows with [x], leaves a number of
    tenths as it is, and is a number of tenths itself. *)
Theorem round1_monotone_idempotent (x : Q) :
  (forall y, x <= y -> round1 x <= round1 y)
  /\ (forall z : Z, round1 (inject_Z z / 10) == inject_Z z / 10)
  /\ (exists z : Z, round1 x == inject_Z z / 10).
Proof.
  split; [apply round1_le | split; [apply round1_tenths |]].
  exists (Math_round (x * 10)). reflexivity.
Qed.

Lemma round1_monotone_idempotent_witness :
  round1 (31 # 3) <= round1 (21 # 2).
Proof.
  apply (proj1 (round1_monotone_idempotent (31 # 3))).
  unfold Qle; simpl; lia.
Defined.

(** * Ratings *)

(** X2. The rating never improves when the latency increase grows. *)
Theorem classify_monotone (x y : Q) :
  x <= y -> (rank (classify x) <= rank (classify y))%nat.
Proof.
  intros H. unfold classify.
  destruct (Qltb x 20) eqn:X20; [apply Qltb_lt in X20 | apply Qltb_ge in X20];
  destruct (Qltb x 50) eqn:X50; [apply Qltb_lt in X50 | apply Qltb_ge in X50 |
                                 apply Qltb_lt in X50 | apply Qltb_ge in X50];
  destruct (Qltb x 100) eqn:X100;
    try (apply Qltb_lt in X100); try (apply Qltb_ge in X100);
  destruct (Qltb x 200) eqn:X200;
    try (apply Qltb_lt in X200); try (apply Qltb_ge in X200);
  destruct (Qltb y 20) eqn:Y20; try (apply Qltb_lt in Y20); try (apply Qltb_ge in Y20);
  destruct (Qltb y 50) eqn:Y50; try (apply Qltb_lt in Y50); try (apply Qltb_ge in Y50);
  destruct (Qltb y 100) eqn:Y100;
    try (apply Qltb_lt in Y100); try (apply Qltb_ge in Y100);
  destruct (Qltb y 200) eqn:Y200;
    try (apply Qltb_lt in Y200); try (apply Qltb_ge in Y200);
  cbn [rank]; try lia; exfalso; lra.
Qed.

Lemma classify_monotone_witness :
  (rank (classify 35) <= rank (classify 120))%nat.
Proof.
  apply (classify_monotone 35 120). unfold Qle; simpl; lia.
Defined.

(** * Jitter, again *)

Lemma sum_nonneg (l : list Q) : Forall (fun x => 0 <= x) l -> 0 <= sum l.
Proof.
  induction 1 as [| x l Hx Hl IH]; unfold sum in *; simpl; [apply Qle_refl | lra].
Qed.

Lemma sum_zero (l : list Q) :
  Forall (fun x => 0 <= x) l -> (sum l == 0 <-> Forall (fun x => x == 0) l).
Proof.
  induction 1 as [| x l Hx Hl IH]; unfold sum in *; simpl.
  - split; [constructor | reflexivity].
  - pose proof (sum_nonneg l Hl) as Hs. unfold sum in Hs. split.
    + intros H. constructor; [lra | apply IH; lra].
    + intros H. inversion H as [| ? ? H0 Hrest]; subst.
      apply IH in Hrest. lra.
Qed.

Lemma abs_differences_nonneg (l : list Q) : Forall (fun x => 0 <= x) (abs_differences l).
Proof.
  induction l as [| x l IH]; [constructor |].
  destruct l as [| y l]; [constructor |].
  change (abs_differences (x :: y :: l)) with (Qabs (y - x) :: abs_differences (y :: l)).
  constructor; [apply Qabs_nonneg | exact IH].
Qed.

Lemma abs_differences_zero (l : list Q) :
  Forall (fun x => x == 0) (abs_differences l) <-> steady_samples l.
Proof.
  induction l as [| x l IH].
  - split; [intros _ a b [] | constructor].
  - destruct l as [| y l].
    + split; [| constructor].
      intros _ a b [<- | []] [<- | []]. reflexivity.
    + change (abs_differences (x :: y :: l))
        with (Qabs (y - x) :: abs_differences (y :: l)).
      split.
      * intros H. inversion H as [| ? ? H0 Hrest]; subst.
        apply IH in Hrest.
        assert (Hxy : x == y).
        { destruct (Qabs_Qle_condition (y - x) 0) as [Hc _].
          destruct Hc as [Hlo Hhi]; [rewrite H0; apply Qle_refl | lra]. }
        assert (Hall : forall a, In a (x :: y :: l) -> a == y).
        { intros a [<- | Ha]; [exact Hxy | apply Hrest; [exact Ha | left; reflexivity]]. }
        intros a b Ha Hb. rewrite (Hall a Ha), (Hall b Hb). reflexivity.
      * intros H. constructor.
        -- assert (Hxy : y == x) by (apply H; [right; left | left]; reflexivity).
           rewrite Hxy. setoid_replace (x - x) with 0 by ring. reflexivity.
        -- apply IH. intros a b Ha Hb. apply H; right; assumption.
Qed.

Lemma mean_zero (l : list Q) : l <> [] -> (mean l == 0 <-> sum l == 0).
Proof.
  intros Hl. unfold mean.
  assert (Hlen : 0 < Qlen l).
  { destruct l; [contradiction |]. unfold Qlen, Qlt; simpl. lia. }
  split; intros H.
  - assert (E : sum l == sum l / Qlen l * Qlen l) by (field; lra).
    rewrite E, H. ring.
  - rewrite H. field. lra.
Qed.

Lemma mean_nonneg (l : list Q) : Forall (fun x => 0 <= x) l -> 0 <= mean l.
Proof.
  intros H. unfold mean. pose proof (sum_nonneg l H) as Hs.
  destruct l as [| x l].
  - unfold sum, Qlen; simpl. unfold Qdiv, Qle; simpl. lia.
  - apply Qle_shift_div_l; [unfold Qlen, Qlt; simpl; lia | lra].
Qed.

Lemma measureJitter_sign (w : World) (pings : list Q) (s : State) :
  exists v s', measureJitter w pings s = (Normal v, s') /\ 0 <= v.
Proof.
  destruct (Nat.lt_ge_cases (List.length pings) 2) as [Hlt | Hge].
  - destruct (measureJitter_synthesized w pings s Hlt) as (v & E & Hv & _).
    exists v; eexists. split; [exact E | lra].
  - destruct (measureJitter_mean w pings s Hge) as (v & E & Hv).
    exists v, s. split; [exact E |]. rewrite Hv.
    apply mean_nonneg, abs_differences_nonneg.
Qed.

(** X3. [measureJitter] never returns a negative number, and from two
    samples on it returns zero exactly when all the samples are equal. *)
Theorem measureJitter_nonneg (w : World) (pings : list Q) (s : State) :
  (exists v s', measureJitter w pings s = (Normal v, s') /\ 0 <= v)
  /\ ((2 <= List.length pings)%nat ->
      exists v, measureJitter w pings s = (Normal v, s)
                /\ (v == 0 <-> steady_samples pings)).
Proof.
  split; [apply measureJitter_sign |].
  intros Hge. destruct (measureJitter_mean w pings s Hge) as (v & E & Hv).
  exists v. split; [exact E |]. rewrite Hv.
  assert (Hne : abs_differences pings <> []).
  { intros H0. pose proof (abs_differences_length pings) as Hl.
    rewrite H0 in Hl. simpl in Hl. lia. }
  rewrite (mean_zero _ Hne), (sum_zero _ (abs_differences_nonneg pings)).
  apply abs_differences_zero.
Qed.

Lemma measureJitter_nonneg_witness :
  exists v, measureJitter Sample.offline [20; 20; 20] Sample.fresh = (Normal v, Sample.fresh)
            /\ (v == 0 <-> steady_samples [20; 20; 20]).
Proof.
  apply (proj2 (measureJitter_nonneg Sample.offline [20; 20; 20] Sample.fresh)).
  simpl; lia.
Defined.

(** * A single probe *)

Lemma timeout_2000 (w : World) :
  hasAbortSignalTimeout w = true ->
  AbortSignal_timeout w 2000 = ret (SigTimeout 2000).
Proof. unfold AbortSignal_timeout. intros ->. reflexivity. Qed.

Lemma round_trip (t d : Q) : 0 <= d -> Qmax t (t + d) - t == d.
Proof. intros H. rewrite Qmax_later by exact H. ring. Qed.

(** X4. [quickPing] returns only the round trip of a request that was
    answered well within two seconds; whatever else happens, it throws an
    [Error] whose message starts with "Failed to ping server: ".  It puts at
    most one request on the network, a [HEAD] to the given address. *)
Theorem quickPing_spec (w : World) (u : string) (s : State) :
  (forall v s', quickPing w u s = (Normal v, s') ->
     exists d a, net w (netIx s) = Resolves d a /\ ok a = true
                 /\ v == us (Npos d) /\ v < 2000)
  /\ (forall e s', quickPing w u s = (Throw e, s') ->
        exists why, e = Error ("Failed to ping server: " ++ why)%string)
  /\ (forall d a, hasAbortSignalTimeout w = true ->
        net w (netIx s) = Resolves d a -> us (Npos d) < 2000 ->
        if ok a
        then exists v s', quickPing w u s = (Normal v, s') /\ v == us (Npos d)
        else exists s', quickPing w u s
                        = (Throw (Error "Failed to ping server: Server not responding"), s'))
  /\ (exists new, requests (snd (quickPing w u s)) = new ++ requests s
                  /\ (List.length new <= 1)%nat
                  /\ Forall (fun i => url (request i) = u /\ method (request i) = HEAD) new).
Proof.
  unfold quickPing.
  destruct (hasAbortSignalTimeout w) eqn:Hsup.
  - rewrite (timeout_2000 w Hsup). run.
    assert (Hone : forall i,
               url (request i) = u -> method (request i) = HEAD ->
               exists new, i :: requests s = new ++ requests s
                           /\ (List.length new <= 1)%nat
                           /\ Forall (fun i => url (request i) = u
                                               /\ method (request i) = HEAD) new).
    { intros i Hu Hm. exists [i]. split; [reflexivity |]. split; [simpl; lia |].
      constructor; [split; assumption | constructor]. }
    destruct (net w (netIx s)) as [d | d a] eqn:Hnet; run;
      destruct (Qle_bool (now s + inject_Z 2000) (now s + us (N.pos d))) eqn:Hcmp; run.
    + split; [intros v s' E; discriminate E |].
      split; [intros e s' E; injection E as <- _; eexists; reflexivity |].
      split; [intros d' a' _ Hn; discriminate Hn |].
      apply Hone; reflexivity.
    + split; [intros v s' E; discriminate E |].
      split; [intros e s' E; injection E as <- _; eexists; reflexivity |].
      split; [intros d' a' _ Hn; discriminate Hn |].
      apply Hone; reflexivity.
    + split; [intros v s' E; discriminate E |].
      split; [intros e s' E; injection E as <- _; eexists; reflexivity |].
      split; [| apply Hone; reflexivity].
      intros d' a' _ Hn Hlt. injection Hn as <- <-. exfalso.
      apply Qle_bool_iff in Hcmp. change (inject_Z 2000) with 2000 in Hcmp. lra.
    + assert (Hlt : us (N.pos d) < 2000).
      { apply Qnot_le_lt. intros L.
        assert (L' : now s + inject_Z 2000 <= now s + us (N.pos d)).
        { change (inject_Z 2000) with 2000. lra. }
        apply Qle_bool_iff in L'. congruence. }
      pose proof (round_trip (now s) (us (N.pos d)) (us_nonneg _)) as Hrt.
      destruct (ok a) eqn:Hok; run.
      * split.
        { intros v s' E; injection E as <- _. exists d, a.
          split; [reflexivity |]. split; [exact Hok |].
          split; [exact Hrt | rewrite Hrt; exact Hlt]. }
        split; [intros e s' E; discriminate E |].
        split; [| apply Hone; reflexivity].
        intros d' a' _ Hn _. injection Hn as <- <-. rewrite Hok.
        do 2 eexists. split; [reflexivity | exact Hrt].
      * split; [intros v s' E; discriminate E |].
        split; [intros e s' E; injection E as <- _; eexists; reflexivity |].
        split; [| apply Hone; reflexivity].
        intros d' a' _ Hn _. injection Hn as <- <-. rewrite Hok.
        eexists. reflexivity.
  - destruct (timeout_none w 2000 Hsup) as [e0 He]. rewrite He. run.
    split; [intros v s' E; discriminate E |].
    split; [intros e s' E; injection E as <- _; eexists; reflexivity |].
    split; [intros d a Habs; discriminate Habs |].
    exists []. split; [reflexivity |]. split; [simpl; lia | constructor].
Qed.

Lemma quickPing_spec_witness :
  exists v s',
    quickPing (Sample.steady 20000) "https://www.google.com" Sample.fresh = (Normal v, s')
    /\ v == us 20000.
Proof.
  apply (proj1 (proj2 (proj2 (quickPing_spec (Sample.steady 20000)
                                "https://www.google.com" Sample.fresh)))
           20000%positive Sample.fine).
  - reflexivity.
  - reflexivity.
  - unfold Qlt; simpl; lia.
Defined.

(** * The range of a latency measurement *)

Lemma sample_range (w : World) (m : Q) :
  answered w m \/ synthesized w m -> 0 < m /\ m < 1000.
Proof.
  intros [(i & d & a & _ & Hm & Hlt) | Hs].
  - split; [rewrite Hm; apply us_pos | exact Hlt].
  - destruct (synthesized_range w m Hs). split; lra.
Qed.

Lemma measurePing_bounds (w : World) (s : State) :
  exists v s', measurePing w s = (Normal v, s') /\ 0 < v /\ v < 1000.
Proof.
  destruct (measurePing_post w s)
    as (v & s' & E & (m0 & m1 & m2 & Hv & K0 & K1 & K2) & _).
  exists v, s'. split; [exact E |].
  destruct (sample_range w m0 K0), (sample_range w m1 K1), (sample_range w m2 K2).
  rewrite Hv. split.
  - apply Qlt_shift_div_l; [reflexivity | lra].
  - apply Qlt_shift_div_r; [reflexivity | lra].
Qed.

(** X5. [measurePing] never throws, and what it returns lies strictly
    between 0 and 1000 ms, the timeout of its probes. *)
Theorem measurePing_range (w : World) (s : State) :
  exists v s', measurePing w s = (Normal v, s') /\ 0 < v /\ v < 1000.
Proof. apply measurePing_bounds. Qed.

(** * What the throughput phases return *)

Lemma Array_cases (len : Q) :
  (exists n, Array_ len = ret n) \/ Array_ len = throw (RangeError "Invalid array length").
Proof.
  unfold Array_. destruct (_ && _)%bool; [left; eexists; reflexivity | right; reflexivity].
Qed.

Lemma Array_invalid (len : Q) :
  ~ (exists n, arrayLength len n) ->
  Array_ len = throw (RangeError "Invalid array length").
Proof.
  intros H. unfold Array_.
  destruct (is_integer len) eqn:Hint; [| reflexivity].
  destruct (Qle_bool 0 len) eqn:Hlo; [| reflexivity].
  destruct (Qle_bool len (inject_Z (2 ^ 32 - 1))) eqn:Hhi; [| reflexivity].
  exfalso. apply H. exists (Z.to_nat (Qfloor len)).
  apply Qeq_bool_iff in Hint. apply Qle_bool_iff in Hlo. apply Qle_bool_iff in Hhi.
  assert (Hf : (0 <= Qfloor len)%Z).
  { change 0%Z with (Qfloor 0). apply Qfloor_resp_le. exact Hlo. }
  unfold arrayLength, Qnat. rewrite Z2Nat.id by exact Hf. split; [exact Hint |].
  rewrite Zle_Qle, <- Hint. exact Hhi.
Qed.

Lemma sum_pos (x : Q) (l : list Q) :
  Forall (fun y => 0 < y) (x :: l) -> 0 < sum (x :: l).
Proof.
  intros H. inversion H as [| ? ? Hx Hl]; subst.
  assert (Hs : 0 <= sum l).
  { apply sum_nonneg. eapply Forall_impl; [| exact Hl].
    intros y Hy. apply Qlt_le_weak, Hy. }
  unfold sum in *; simpl. lra.
Qed.

Lemma measured_pos (results : list Q) : Forall (fun y => 0 < y) (measured results).
Proof.
  unfold measured. apply Forall_forall. intros y Hy.
  apply filter_In in Hy. apply Qltb_lt, Hy.
Qed.

Lemma mean_pos (x : Q) (l : list Q) :
  Forall (fun y => 0 < y) (x :: l) -> 0 < mean (x :: l).
Proof.
  intros H. unfold mean. apply Qlt_shift_div_l.
  - unfold Qlen, Qlt; simpl; lia.
  - pose proof (sum_pos x l H). lra.
Qed.

(** The last step of a throughput phase: the mean of the results that
    count, or one draw scaled to [[b, a + b)] when none does. *)
Lemma aggregate_run (w : World) (results : list Q) (a b : Q) (s : State) :
  exists v s',
    (let measurements := filter (fun speed => Qltb 0 speed) results in
     if Nat.eqb (List.length measurements) 0
     then r <- Math_random w ;; ret (r * a + b)
     else total <- reduce Qplus measurements ;; ret (total / Qlen measurements)) s
    = (Normal v, s')
    /\ requests s' = requests s
    /\ now s' = now s
    /\ match measured results with
       | [] => v = unit01 (random w (rndIx s)) * a + b
       | _ :: _ => v == mean (measured results)
       end.
Proof.
  cbv zeta. unfold measured.
  destruct (filter _ results) as [| m ms]; cbn [List.length Nat.eqb].
  - do 2 eexists. repeat split.
  - destruct (reduce_Qplus m ms s) as (t & Et & Ht).
    rewrite (bind_normal _ _ _ _ _ Et). do 2 eexists.
    split; [reflexivity |]. split; [reflexivity |]. split; [reflexivity |].
    unfold mean. rewrite Ht. reflexivity.
Qed.

Lemma aggregate_positive (w : World) (results : list Q) (a b : Q) (s : State) :
  0 <= a -> 0 < b ->
  exists v s',
    (let measurements := filter (fun speed => Qltb 0 speed) results in
     if Nat.eqb (List.length measurements) 0
     then r <- Math_random w ;; ret (r * a + b)
     else total <- reduce Qplus measurements ;; ret (total / Qlen measurements)) s
    = (Normal v, s')
    /\ 0 < v.
Proof.
  intros Ha Hb.
  destruct (aggregate_run w results a b s) as (v & s' & E & _ & _ & Hv).
  exists v, s'. split; [exact E |].
  pose proof (measured_pos results) as Hpos.
  destruct (measured results) as [| m ms].
  - subst v. destruct (unit01_range (random w (rndIx s))) as [H0 _].
    pose proof (Qmult_le_0_compat _ _ H0 Ha). lra.
  - rewrite Hv. apply mean_pos, Hpos.
Qed.

Lemma measureDownloadSpeed_valid (w : World) (s : State) (n : nat) :
  Array_ (parallelConnections (config s)) = ret n ->
  exists v s', measureDownloadSpeed w s = (Normal v, s') /\ 0 < v.
Proof.
  intros Hn. unfold measureDownloadSpeed.
  unfold bind at 1, performance_now, gets. cbv beta iota.
  unfold bind at 1, gets. cbv beta iota.
  rewrite Hn. unfold bind at 1, ret at 1. cbv beta iota.
  destruct (spawn_all_joined (fun u index => downloadTask w (now s) u index)
              (fun u i => total_downloadTask w (now s) u i)
              (fun u i => sat_downloadTask settled w (fun _ _ => I) (now s) u i)
              (map downloadUrl (seq 0 n)) 0%nat s)
    as (ps & s1 & new & E & _ & _ & Hps & _).
  unfold bind at 1. rewrite E. cbv beta iota.
  match goal with
  | |- context [bind (await_all ps) ?K s1] =>
      destruct (await_all_resolved ps K s1 Hps) as (vs & t & Ej)
  end.
  rewrite Ej. apply aggregate_positive; [discriminate | reflexivity].
Qed.

Lemma measureUploadSpeed_valid (w : World) (s : State) (n : nat) :
  Array_ (Math_min (parallelConnections (config s)) 3) = ret n ->
  exists v s', measureUploadSpeed w s = (Normal v, s') /\ 0 < v.
Proof.
  intros Hn. unfold measureUploadSpeed.
  unfold bind at 1, performance_now, gets. cbv beta iota.
  unfold bind at 1, gets. cbv beta iota.
  rewrite Hn. unfold bind at 1, ret at 1. cbv beta iota.
  destruct (spawn_all_joined (fun (_ : unit) index => uploadTask w (now s) index)
              (fun u i => total_uploadTask w (now s) i)
              (fun u i => sat_uploadTask settled w (fun _ _ => I) (now s) i)
              (repeat tt n) 0%nat s)
    as (ps & s1 & new & E & _ & _ & Hps & _).
  unfold bind at 1. rewrite E. cbv beta iota.
  match goal with
  | |- context [bind (await_all ps) ?K s1] =>
      destruct (await_all_resolved ps K s1 Hps) as (vs & t & Ej)
  end.
  rewrite Ej. apply aggregate_positive; [discriminate | reflexivity].
Qed.

(** X6. The download phase throws, a [RangeError] and nothing else, exactly
    when the configured number of connections is no array length; the
    upload phase, exactly when the lesser of that number and 3 is none.
    Otherwise each returns a speed that is strictly positive. *)
Theorem throughput_outcome (w : World) (s : State) :
  ((exists n, arrayLength (parallelConnections (config s)) n) ->
   exists v s', measureDownloadSpeed w s = (Normal v, s') /\ 0 < v)
  /\ (~ (exists n, arrayLength (parallelConnections (config s)) n) ->
      measureDownloadSpeed w s = (Throw (RangeError "Invalid array length"), s))
  /\ ((exists n, arrayLength (Math_min (parallelConnections (config s)) 3) n) ->
      exists v s', measureUploadSpeed w s = (Normal v, s') /\ 0 < v)
  /\ (~ (exists n, arrayLength (Math_min (parallelConnections (config s)) 3) n) ->
      measureUploadSpeed w s = (Throw (RangeError "Invalid array length"), s)).
Proof.
  split; [| split; [| split]].
  - intros [n [Hpc Hn]]. exact (measureDownloadSpeed_valid w s n (Array_valid _ n Hpc Hn)).
  - intros H. unfold measureDownloadSpeed.
    unfold bind at 1, performance_now, gets. cbv beta iota.
    unfold bind at 1, gets. cbv beta iota.
    rewrite (Array_invalid _ H). reflexivity.
  - intros [n [Hpc Hn]]. exact (measureUploadSpeed_valid w s n (Array_valid _ n Hpc Hn)).
  - intros H. unfold measureUploadSpeed.
    unfold bind at 1, performance_now, gets. cbv beta iota.
    unfold bind at 1, gets. cbv beta iota.
    rewrite (Array_invalid _ H). reflexivity.
Qed.

Lemma throughput_outcome_witness :
  (exists v s',
      measureDownloadSpeed (Sample.steady 20000) Sample.fresh = (Normal v, s') /\ 0 < v)
  /\ measureDownloadSpeed Sample.offline RunExample.broken
     = (Throw (RangeError "Invalid array length"), RunExample.broken).
Proof.
  split.
  - apply (proj1 (throughput_outcome (Sample.steady 20000) Sample.fresh)).
    exists 4%nat. split; [reflexivity | vm_compute; discriminate].
  - apply (proj1 (proj2 (throughput_outcome Sample.offline RunExample.broken))).
    intros [n [H _]]. unfold Qeq in H. simpl in H. lia.
Defined.

(** X7. With no connection configured, neither throughput phase puts
    anything on the network: each returns one draw of [Math.random], scaled
    to [[25, 125)] for the download and to [[10, 50)] for the upload. *)
Theorem throughput_without_connections (w : World) (s : State) :
  parallelConnections (config s) == 0 ->
  (exists v s', measureDownloadSpeed w s = (Normal v, s')
                /\ requests s' = requests s
                /\ v = unit01 (random w (rndIx s)) * 100 + 25
                /\ 25 <= v /\ v < 125)
  /\ (exists v s', measureUploadSpeed w s = (Normal v, s')
                   /\ requests s' = requests s
                   /\ v = unit01 (random w (rndIx s)) * 40 + 10
                   /\ 10 <= v /\ v < 50).
Proof.
  intros Hpc. destruct (unit01_range (random w (rndIx s))) as [H0 H1]. split.
  - unfold measureDownloadSpeed.
    unfold bind at 1, performance_now, gets. cbv beta iota.
    unfold bind at 1, gets. cbv beta iota.
    rewrite (Array_valid _ 0 Hpc) by (vm_compute; discriminate).
    do 2 eexists. split; [reflexivity |]. split; [reflexivity |].
    split; [reflexivity |]. cbn [rndIx set_now]. split; lra.
  - assert (Hmin : Math_min (parallelConnections (config s)) 3 == Qnat 0).
    { unfold Math_min. rewrite Hpc. reflexivity. }
    unfold measureUploadSpeed.
    unfold bind at 1, performance_now, gets. cbv beta iota.
    unfold bind at 1, gets. cbv beta iota.
    rewrite (Array_valid _ 0 Hmin) by (vm_compute; discriminate).
    do 2 eexists. split; [reflexivity |]. split; [reflexivity |].
    split; [reflexivity |]. cbn [rndIx set_now]. split; lra.
Qed.

Lemma throughput_without_connections_witness :
  (exists v s', measureDownloadSpeed Sample.offline ThroughputExample.unconnected
                = (Normal v, s')
                /\ requests s' = requests ThroughputExample.unconnected
                /\ v = unit01 (random Sample.offline 0) * 100 + 25
                /\ 25 <= v /\ v < 125)
  /\ (exists v s', measureUploadSpeed Sample.offline ThroughputExample.unconnected
                   = (Normal v, s')
                   /\ requests s' = requests ThroughputExample.unconnected
                   /\ v = unit01 (random Sample.offline 0) * 40 + 10
                   /\ 10 <= v /\ v < 50).
Proof.
  apply (throughput_without_connections Sample.offline ThroughputExample.unconnected).
  reflexivity.
Defined.

(** * One transfer *)

(** A point pushed and the graph sink called, in one step: the update is
    recorded where there is a sink, and what the sink throws on it is
    thrown. *)
Lemma plot_eq (w : World) (g : GraphData) (s : State) :
  (graphData_push g ;; onGraphUpdate_call w) s
  = (match (if onGraphUpdate s then graphSink w (graphData s ++ [g]) else None) with
     | Some e => Throw e
     | None => Normal tt
     end,
     plot g s).
Proof.
  unfold graphData_push, onGraphUpdate_call, plot. run.
  destruct (onGraphUpdate s); [| reflexivity].
  destruct (graphSink w _); reflexivity.
Qed.

Lemma plot_run {w : World} {Hq : quietSinks w} (g : GraphData) (s : State) :
  (graphData_push g ;; onGraphUpdate_call w) s = (Normal tt, plot g s).
Proof.
  rewrite plot_eq, (proj2 Hq). destruct (onGraphUpdate s); reflexivity.
Qed.

Lemma plot_now g s : now (plot g s) = now s.
Proof. unfold plot; cbv zeta; destruct (onGraphUpdate s); reflexivity. Qed.

Lemma plot_requests g s : requests (plot g s) = requests s.
Proof. unfold plot; cbv zeta; destruct (onGraphUpdate s); reflexivity. Qed.

(** What the first connection reports between two reads: neither the
    clock nor the network is touched. *)
Lemma report_run (w : World) (index : nat) (startTime now_ currentSpeed : Q)
    (s : State) :
  (index = 0%nat -> quietSinks w) ->
  exists s',
    (when (Nat.eqb index 0) then
       (d <- gets (fun s => duration (config s)) ;;
        let progress := Math_min (((now_ - startTime) / (d * 1000)) * 100) 100 in
        updateProgress w download progress currentSpeed ;;
        graphData_push {| time := now_ - startTime; speed := currentSpeed;
                          g_phase := "download"; g_ping := None |} ;;
        onGraphUpdate_call w)) s
    = (Normal tt, s')
    /\ now s' = now s /\ requests s' = requests s.
Proof.
  intros Hq0.
  destruct (Nat.eqb index 0) eqn:Ei; [| exists s; repeat split].
  pose proof (Hq0 (proj1 (Nat.eqb_eq _ _) Ei)) as Hq.
  unfold bind at 1, gets. cbv beta iota zeta.
  rewrite (bind_normal _ _ _ _ _ (updateProgress_run _ _ _ _)).
  rewrite plot_run. eexists. split; [reflexivity |].
  rewrite plot_now, plot_requests, emit_now, emit_requests. split; reflexivity.
Qed.

Lemma readLoop_done (w : World) (index : nat) (startTime requestStart c : Q)
    (why : Exn) (pending : list Chunk) (e : N) :
  (index = 0%nat -> quietSinks w) ->
  forall (downloadedBytes lastUpdate : Q) (s : State),
    now s + transferTime pending (Done e) < c ->
    exists v s',
      readLoop w index startTime requestStart (Some (c, why)) pending (Done e)
               downloadedBytes lastUpdate s
      = (Normal v, s')
      /\ v == downloadedBytes + transferred pending
      /\ now s' == now s + transferTime pending (Done e)
      /\ requests s' = requests s.
Proof.
  intros Hq0.
  induction pending as [| value rest IH]; intros downloadedBytes lastUpdate s Hlt.
  - cbn [transferTime fold_right delay_of] in *. cbn [readLoop].
    rewrite (bind_normal _ _ _ _ _ (reader_wait_ok c why e s Hlt)).
    do 2 eexists. split; [reflexivity |]. cbn [transferred fold_right now set_now requests].
    split; [ring |]. split; reflexivity.
  - cbn [transferTime fold_right] in Hlt. fold (transferTime rest (Done e)) in Hlt.
    pose proof (transferTime_nonneg rest (Done e)) as Hrest.
    assert (Hw : now s + us (c_delay value) < c) by lra.
    cbn [readLoop].
    rewrite (bind_normal _ _ _ _ _ (reader_wait_ok c why _ s Hw)).
    unfold bind at 1, performance_now, gets. cbv beta iota. cbn [now set_now].
    set (s1 := set_now (now s + us (c_delay value)) s).
    assert (Hs1 : now s1 + transferTime rest (Done e) < c).
    { unfold s1; cbn [now set_now]. lra. }
    destruct (Qltb 100 (now s + us (c_delay value) - lastUpdate)).
    + match goal with
      | |- context [bind (if Nat.eqb index 0 then ?R else ret tt) _ s1] =>
          destruct (report_run w index startTime (now s + us (c_delay value))
                      ((downloadedBytes + inject_Z (Z.of_N (c_bytes value))) * 8
                       / ((now s + us (c_delay value) - requestStart) / 1000) / 1000000)
                      s1 Hq0) as (s2 & E2 & Hn2 & Hr2)
      end.
      rewrite (bind_normal _ _ _ _ _ E2).
      rewrite <- Hn2 in Hs1.
      destruct (IH (downloadedBytes + inject_Z (Z.of_N (c_bytes value)))
                   (now s + us (c_delay value)) s2 Hs1)
        as (v & s' & E & Hv & Hn & Hr).
      exists v, s'. split; [exact E |].
      cbn [transferred transferTime fold_right].
      fold (transferred rest). fold (transferTime rest (Done e)).
      split; [rewrite Hv; ring |].
      split; [rewrite Hn, Hn2; unfold s1; cbn [now set_now]; ring |].
      rewrite Hr, Hr2. reflexivity.
    + destruct (IH (downloadedBytes + inject_Z (Z.of_N (c_bytes value))) lastUpdate s1 Hs1)
        as (v & s' & E & Hv & Hn & Hr).
      exists v, s'. split; [exact E |].
      cbn [transferred transferTime fold_right].
      fold (transferred rest). fold (transferTime rest (Done e)).
      split; [rewrite Hv; ring |].
      split; [rewrite Hn; unfold s1; cbn [now set_now]; ring |].
      rewrite Hr. reflexivity.
Qed.

Lemma timeout_in_range (w : World) (c : TestConfig) :
  hasAbortSignalTimeout w = true ->
  (0 <= deadline c <= 2 ^ 53 - 1)%Z ->
  AbortSignal_timeout w (duration c * 1000) = ret (SigTimeout (deadline c)).
Proof.
  intros Hsup [Hlo Hhi]. unfold AbortSignal_timeout, deadline in *.
  rewrite Hsup.
  apply Z.leb_le in Hlo. apply Z.leb_le in Hhi. rewrite Hlo, Hhi. reflexivity.
Qed.

(** X8. A download that is answered well and whose body arrives whole
    before the configured duration runs out is measured as its bytes, in
    bits, over the seconds from the request to the end of the body, in
    millions: the time to the first byte counts.  Only the first
    connection reports to the sinks, and there they must not throw. *)
Theorem downloadTask_speed (w : World) (s : State) (startTime : Q) (u : string)
    (index : nat) (d : positive) (a : Answer) (stream : Stream) (e : N) :
  (index = 0%nat -> quietSinks w) ->
  hasAbortSignalTimeout w = true ->
  (0 <= deadline (config s) <= 2 ^ 53 - 1)%Z ->
  net w (netIx s) = Resolves d a ->
  ok a = true ->
  body a = Some stream ->
  ending stream = Done e ->
  us (Npos d) + transferTime (chunks stream) (Done e) < inject_Z (deadline (config s)) ->
  exists v s',
    downloadTask w startTime u index s = (Normal v, s')
    /\ v == transferred (chunks stream) * 8
            / ((us (Npos d) + transferTime (chunks stream) (Done e)) / 1000) / 1000000
    /\ now s' == now s + us (Npos d) + transferTime (chunks stream) (Done e).
Proof.
  intros Hq0 Hsup Hdl Hnet Hok Hbody Hend Hlt.
  pose proof (transferTime_nonneg (chunks stream) (Done e)) as Hpos.
  pose proof (us_pos d) as Hd.
  unfold downloadTask.
  unfold try_catch, bind at 1, performance_now, gets. cbv beta iota.
  unfold bind at 1, gets. cbv beta iota.
  rewrite (timeout_in_range w (config s) Hsup Hdl).
  unfold bind at 1, ret at 1. cbv beta iota.
  unfold bind at 1, fetch. cbv beta iota zeta. rewrite Hnet.
  cbn [fires signal settles].
  destruct (Qle_bool (now s + inject_Z (deadline (config s))) (now s + us (N.pos d)))
    eqn:Hcmp.
  { apply Qle_bool_iff in Hcmp. exfalso. lra. }
  unfold bind at 1, await, bind at 1, modify. cbv beta iota.
  cbn [settles reaction]. unfold ret at 1. cbv beta iota.
  cbn [answer cutoff]. rewrite Hok, Hbody, Hend. cbn [negb].
  match goal with
  | |- context [bind (readLoop _ _ _ _ _ _ _ _ _) _ ?st] => set (s1 := st)
  end.
  assert (Hnow1 : now s1 == now s + us (N.pos d)).
  { unfold s1. cbn [now set_now push_request]. apply Qmax_later, us_nonneg. }
  destruct (readLoop_done w index startTime (now s)
              (now s + inject_Z (deadline (config s))) TimeoutError
              (chunks stream) e Hq0 0 (now s) s1) as (b & s2 & E & Hb & Hn & _).
  { rewrite Hnow1. lra. }
  unfold bind at 1. rewrite E. cbv beta iota.
  unfold bind at 1, performance_now, gets. cbv beta iota. unfold ret.
  do 2 eexists. split; [reflexivity |].
  assert (Hend2 : now s2 == now s + us (N.pos d) + transferTime (chunks stream) (Done e)).
  { rewrite Hn, Hnow1. reflexivity. }
  split; [| exact Hend2].
  assert (Hdur : now s2 - now s == us (N.pos d) + transferTime (chunks stream) (Done e)).
  { rewrite Hend2. ring. }
  rewrite Hdur, Hb. setoid_replace (0 + transferred (chunks stream))
                      with (transferred (chunks stream)) by ring.
  reflexivity.
Qed.

Lemma downloadTask_speed_witness :
  exists v s',
    downloadTask (Sample.steady 20000) 0 (downloadUrl 0) 0 Sample.fresh = (Normal v, s')
    /\ v == 8000 # 321.
Proof.
  destruct (downloadTask_speed (Sample.steady 20000) Sample.fresh 0 (downloadUrl 0) 0
              20000 Sample.fine
              {| chunks := [ {| c_delay := 150000; c_bytes := 500000 |};
                             {| c_delay := 150000; c_bytes := 500000 |} ];
                 ending := Done 1000 |} 1000)
    as (v & s' & E & Hv & _).
  - intros _. exact (conj (fun _ => eq_refl) (fun _ => eq_refl)).
  - reflexivity.
  - vm_compute. split; discriminate.
  - reflexivity.
  - reflexivity.
  - reflexivity.
  - reflexivity.
  - vm_compute. reflexivity.
  - exists v, s'. split; [exact E |]. rewrite Hv. vm_compute. reflexivity.
Defined.

(** * The values that a join delivers *)

(** A throughput phase from its tasks on: what the tasks return is
    averaged over the results that count. *)
Lemma fanout_aggregate {T} (w : World) (task : T -> nat -> M Q) (P : Q -> Prop)
    (R : State -> State -> Prop) (l : list T) (a b : Q) (s : State) :
  (forall s, R s s) ->
  (forall s1 s2 s3, R s1 s2 -> R s2 s3 -> R s1 s3) ->
  (forall t s, R s (set_now t s)) ->
  (forall n s, R s (set_rndIx n s)) ->
  (forall x i, total (task x i)) ->
  (forall x i s, R s (snd (task x i s))) ->
  (forall x i, ensures (task x i) (fun v _ => P v)) ->
  exists vs v s',
    (promises <- map_ (fun x index => spawn (task x index)) l 0%nat ;;
     results <- await_all promises ;;
     let measurements := filter (fun speed => Qltb 0 speed) results in
     if Nat.eqb (List.length measurements) 0 then
       r <- Math_random w ;; ret (r * a + b)
     else
       total <- reduce Qplus measurements ;;
       ret (total / Qlen measurements)) s
    = (Normal v, s')
    /\ Forall P vs
    /\ List.length vs = List.length l
    /\ R s s'
    /\ match measured vs with
       | [] => exists k, v = unit01 (random w k) * a + b
       | _ :: _ => v == mean (measured vs)
       end.
Proof.
  intros Hrefl Htrans Hclock Hdraw Htot Hkeep Hval.
  destruct (spawn_all_values task P R Hrefl Htrans Hclock Htot Hkeep Hval l 0%nat s)
    as (ps & vs & s1 & E & Hful & HP & Hlen & HR & _).
  unfold bind at 1. rewrite E. cbv beta iota.
  rewrite (await_all_values ps vs _ s1 Hful).
  match goal with
  | |- context [set_now ?t s1] => set (s2 := set_now t s1)
  end.
  destruct (aggregate_run w vs a b s2) as (v & s' & Ea & _ & _ & Hv).
  exists vs, v, s'. split; [exact Ea |]. split; [exact HP |]. split; [exact Hlen |].
  split.
  - eapply Htrans; [exact HR |]. eapply Htrans; [apply Hclock |].
    fold s2. clear - Ea Hrefl Hdraw. cbv zeta in Ea.
    destruct (filter _ vs) as [| m ms]; cbn [List.length Nat.eqb] in Ea.
    + injection Ea as _ <-. apply Hdraw.
    + injection Ea as _ <-. apply Hrefl.
  - destruct (measured vs); [eexists; exact Hv | exact Hv].
Qed.

Lemma sum_between (a b : Q) (l : list Q) :
  Forall (fun x => a <= x /\ x < b) l ->
  a * Qlen l <= sum l /\ (l <> [] -> sum l < b * Qlen l).
Proof.
  induction 1 as [| x l [Hlo Hhi] Hl [IHlo IHhi]].
  - split; [| intros H; contradiction].
    assert (E : a * Qlen (@nil Q) == 0) by (unfold Qlen; simpl; ring).
    rewrite E. apply Qle_refl.
  - assert (Hlen : Qlen (x :: l) == 1 + Qlen l).
    { unfold Qlen. cbn [List.length]. rewrite Nat2Z.inj_succ, <- Z.add_1_l, inject_Z_plus.
      reflexivity. }
    assert (Hsum : sum (x :: l) == x + sum l) by reflexivity.
    assert (Ea : a * (1 + Qlen l) == a + a * Qlen l) by ring.
    assert (Eb : b * (1 + Qlen l) == b + b * Qlen l) by ring.
    rewrite Hlen, Hsum, Ea, Eb. split; [lra |]. intros _.
    destruct l as [| y l].
    + assert (E0 : b * Qlen (@nil Q) == 0) by (unfold Qlen; simpl; ring).
      assert (S0 : sum (@nil Q) == 0) by reflexivity.
      rewrite E0, S0. lra.
    + assert (Hne : y :: l <> []) by discriminate. specialize (IHhi Hne). lra.
Qed.

Lemma mean_between (a b : Q) (x : Q) (l : list Q) :
  Forall (fun y => a <= y /\ y < b) (x :: l) ->
  a <= mean (x :: l) /\ mean (x :: l) < b.
Proof.
  intros H. destruct (sum_between a b _ H) as [Hlo Hhi].
  assert (Hne : x :: l <> []) by discriminate. specialize (Hhi Hne).
  assert (Hlen : 0 < Qlen (x :: l)) by (unfold Qlen, Qlt; simpl; lia).
  unfold mean. split.
  - apply Qle_shift_div_l; [exact Hlen | exact Hlo].
  - apply Qlt_shift_div_r; [exact Hlen | exact Hhi].
Qed.

(** The value of a phase all of whose tasks made their result up, within
    [[lo, hi)]: the mean of the results, or, without any task, one more
    draw. *)
Lemma made_up_mean (w : World) (vs : list Q) (v lo hi a b : Q) :
  0 < lo -> 0 < a ->
  Forall (fun x => lo <= x /\ x < hi) vs ->
  match measured vs with
  | [] => exists k, v = unit01 (random w k) * a + b
  | _ :: _ => v == mean (measured vs)
  end ->
  Qmin lo b <= v /\ v < Qmax hi (a + b).
Proof.
  intros Hlo Ha Hvs Hv.
  assert (Hpos : Forall (fun x => 0 < x) vs).
  { eapply Forall_impl; [| exact Hvs]. intros x [H _]. lra. }
  rewrite (measured_all vs Hpos) in Hv.
  pose proof (Q.le_min_l lo b). pose proof (Q.le_min_r lo b).
  pose proof (Q.le_max_l hi (a + b)). pose proof (Q.le_max_r hi (a + b)).
  destruct vs as [| x l].
  - destruct Hv as [k ->]. destruct (unit01_range (random w k)) as [Hu0 Hu1].
    assert (0 <= unit01 (random w k) * a) by (apply Qmult_le_0_compat; lra).
    assert (unit01 (random w k) * a < 1 * a)
      by (apply Qmult_lt_compat_r; assumption).
    split; lra.
  - destruct (mean_between lo hi x l Hvs) as [Hm0 Hm1]. rewrite Hv. split; lra.
Qed.

(** * Uploads on a platform that refuses the buffer *)


(** X10. Where [crypto.getRandomValues] refuses a buffer of 1 MiB (the Web
    Crypto limit is 65536 bytes), no upload is ever sent: the upload phase
    puts nothing on the network, and the speed it returns is made up of
    random draws, within [[8, 50)]. *)
Theorem upload_over_quota (w : World) (s : State) :
  (getRandomValuesQuota w < 1048576)%N ->
  requests (snd (measureUploadSpeed w s)) = requests s
  /\ forall v s', measureUploadSpeed w s = (Normal v, s') -> 8 <= v /\ v < 50.
Proof.
  intros Hq.
  assert (Hrun : (exists e, measureUploadSpeed w s = (Throw e, s))
                 \/ exists vs v s',
                      measureUploadSpeed w s = (Normal v, s')
                      /\ Forall (fun v => 8 <= v /\ v < 33) vs
                      /\ requests s' = requests s
                      /\ match measured vs with
                         | [] => exists k, v = unit01 (random w k) * 40 + 10
                         | _ :: _ => v == mean (measured vs)
                         end).
  { destruct (Array_cases (Math_min (parallelConnections (config s)) 3)) as [[n En] | En].
    - right. unfold measureUploadSpeed.
      unfold bind at 1, performance_now, gets. cbv beta iota.
      unfold bind at 1, gets. cbv beta iota.
      rewrite En. unfold bind at 1, ret at 1. cbv beta iota.
      destruct (fanout_aggregate w (fun (_ : unit) index => uploadTask w (now s) index)
                  (fun v => 8 <= v /\ v < 33)
                  (fun s1 s2 => requests s2 = requests s1)
                  (repeat tt n) 40 10 s)
        as (vs & v & s' & E & Hvs & _ & HR & Hv).
      + reflexivity.
      + intros s1 s2 s3 H12 H23. rewrite H23, H12. reflexivity.
      + reflexivity.
      + reflexivity.
      + intros u i. apply total_uploadTask.
      + intros u i s0. rewrite (uploadTask_over_quota w _ _ _ Hq). reflexivity.
      + intros u i s0 v0 s1 E0. rewrite (uploadTask_over_quota w _ _ _ Hq) in E0.
        injection E0 as <- _.
        destruct (unit01_range (random w (rndIx s0))). split; lra.
      + exists vs, v, s'.
        split; [exact E | split; [exact Hvs | split; [exact HR | exact Hv]]].
    - left. eexists. unfold measureUploadSpeed.
      unfold bind at 1, performance_now, gets. cbv beta iota.
      unfold bind at 1, gets. cbv beta iota.
      rewrite En. reflexivity. }
  destruct Hrun as [[e E] | (vs & v & s' & E & Hvs & HR & Hv)]; rewrite E; cbn [snd].
  - split; [reflexivity | intros v s' E0; discriminate E0].
  - split; [exact HR |].
    intros v0 s0 E0. injection E0 as <- _.
    destruct (made_up_mean w vs v 8 33 40 10) as [Hlo Hhi];
      [reflexivity | reflexivity | exact Hvs | exact Hv |].
    rewrite Q.min_l in Hlo by (unfold Qle; simpl; lia).
    rewrite Q.max_r in Hhi by (unfold Qle; simpl; lia).
    split; [exact Hlo |]. setoid_replace (40 + 10) with 50 in Hhi by ring. exact Hhi.
Qed.

Lemma upload_over_quota_witness :
  requests (snd (measureUploadSpeed Sample.offline Sample.fresh)) = requests Sample.fresh
  /\ forall v s', measureUploadSpeed Sample.offline Sample.fresh = (Normal v, s') ->
                  8 <= v /\ v < 50.
Proof.
  apply (upload_over_quota Sample.offline Sample.fresh). reflexivity.
Defined.

(** * Counting packets *)

Lemma packet_counts (w : World) {Hq : quietSinks w} (req : Request) (s : State) :
  signal req = SigTimeout 1500 ->
  exists p s1,
    fetch w req s = (Normal p, s1)
    /\ now s1 = now s
    /\ netIx s1 = S (netIx s)
    /\ receivedPackets s1 = receivedPackets s
    /\ forall pr,
         counts (delivered w (netIx s))
           (finally_
              (catch_
                 (then_ p (fun _ =>
                    modify (fun s => set_receivedPackets (S (receivedPackets s)) s) ;;
                    ret true))
                 (fun _ => ret false))
              (updateProgress w packetLoss pr 0)).
Proof.
  intros Hsig. unfold fetch, delivered. rewrite Hsig. cbn [fires].
  do 2 eexists. split; [reflexivity |].
  split; [reflexivity |]. split; [reflexivity |]. split; [reflexivity |].
  intros pr s0. unfold finally_, catch_, then_; cbn [reaction].
  destruct (net w (netIx s)) as [d | d a]; cbn [settles].
  - destruct (Qle_bool _ _); cbn [reaction]; run; rewrite updateProgress_run;
      eexists; (split; [reflexivity |]);
      rewrite emit_receivedPackets, emit_requests; split; reflexivity.
  - destruct (Qle_bool (now s + inject_Z 1500) (now s + us (N.pos d))) eqn:Hcmp.
    + assert (Hlate : Qltb (us (N.pos d)) 1500 = false).
      { apply Qltb_ge. apply Qle_bool_iff in Hcmp.
        change (inject_Z 1500) with 1500 in Hcmp. lra. }
      rewrite Hlate. cbn [reaction]. run. rewrite updateProgress_run.
      eexists. split; [reflexivity |].
      rewrite emit_receivedPackets, emit_requests; split; reflexivity.
    + assert (Hintime : Qltb (us (N.pos d)) 1500 = true).
      { apply Qltb_lt. apply Qnot_le_lt. intros L.
        assert (L' : now s + inject_Z 1500 <= now s + us (N.pos d)).
        { change (inject_Z 1500) with 1500. lra. }
        apply Qle_bool_iff in L'. congruence. }
      rewrite Hintime. cbn [reaction]. run. rewrite updateProgress_run.
      eexists. split; [reflexivity |].
      rewrite emit_receivedPackets, emit_requests; split; reflexivity.
Qed.

Lemma settle_each_tally (l : list (nat * Promise bool)) (bs : list bool) :
  Forall2 (fun y b => counts b (snd y)) l bs ->
  forall s, exists rs s',
    settle_each l s = (rs, s')
    /\ first_rejection rs = None
    /\ receivedPackets s' = (receivedPackets s + count_occ Bool.bool_dec bs true)%nat
    /\ requests s' = requests s.
Proof.
  induction 1 as [| [i p] b l bs Hp Hl IH]; intros s; cbn [settle_each snd] in *.
  - do 2 eexists. repeat split. cbn [count_occ]. lia.
  - destruct (Hp (set_now (settles p) s)) as (s1 & E & Hc & Hr). rewrite E.
    destruct (IH s1) as (rs & s2 & E2 & Hf & Hc2 & Hr2). rewrite E2.
    do 2 eexists. split; [reflexivity |]. cbn [first_rejection].
    split; [exact Hf |]. cbn [receivedPackets requests set_now] in *.
    split; [| congruence].
    rewrite Hc2, Hc. cbn [count_occ].
    destruct b; destruct (Bool.bool_dec _ _) as [Hb | Hb]; try discriminate Hb;
      try (exfalso; apply Hb; reflexivity); lia.
Qed.

Lemma count_true_filter {T} (f : T -> bool) (l : list T) :
  count_occ Bool.bool_dec (map f l) true = List.length (filter f l).
Proof.
  induction l as [| x l IH]; [reflexivity |].
  cbn [map count_occ filter]. destruct (f x); destruct (Bool.bool_dec _ _) as [Hb | Hb];
    try discriminate Hb; try (exfalso; apply Hb; reflexivity);
    cbn [List.length]; rewrite IH; reflexivity.
Qed.

Lemma combine_counts (ps : list (Promise bool)) (bs : list bool) (k : nat) :
  Forall2 (fun p b => counts b p) ps bs ->
  Forall2 (fun y b => counts b (snd y)) (combine (seq k (List.length ps)) ps) bs.
Proof.
  intros H. revert k. induction H as [| p b ps bs Hp _ IH]; intros k;
    cbn [List.length seq combine]; constructor; [exact Hp | apply IH].
Qed.

(** X11. Where the batch runs and the progress sink does not throw, the
    packets that [measurePacketLoss] reports as received are exactly the
    requests, of its fifty, that were answered in less than 1.5 s, whatever
    the answer; 50 are reported as sent, and the percentage is twice the
    number of the others, so that rounding never changes it. *)
Theorem measurePacketLoss_counts (w : World) (s : State) :
  quietSinks w ->
  hasAbortSignalTimeout w = true ->
  exists pl s',
    measurePacketLoss w s = (Normal pl, s')
    /\ sent pl == 50
    /\ received pl == Qnat (deliveries w (netIx s))
    /\ percentage pl == 2 * (50 - received pl).
Proof.
  intros Hq Hsup. unfold measurePacketLoss.
  rewrite (bind_normal _ _ _ _ _ (updateProgress_run _ _ _ _)).
  unfold bind at 1, modify at 1. cbv beta iota.
  set (s1 := set_receivedPackets 0 (emit packetLoss 0 0 s)).
  match goal with |- context [for_ _ _ ?F] => set (LOOP := F) end.
  assert (Hloop : forall indices acc st, exists new st',
             for_ indices acc LOOP st = (Normal (acc ++ new), st')
             /\ Forall2 (fun p b => counts b p) new
                        (map (delivered w) (seq (netIx st) (List.length indices)))
             /\ now st' = now st
             /\ receivedPackets st' = receivedPackets st).
  { induction indices as [| i rest IH]; intros acc st.
    - exists [], st. cbn [for_ ret]. rewrite app_nil_r.
      repeat split; constructor.
    - cbn [for_]. unfold bind at 1. unfold LOOP at 1.
      unfold bind at 1, Date_now, gets. cbv beta iota.
      rewrite (timeout_1500 w Hsup). unfold bind at 1, ret at 1. cbv beta iota.
      match goal with
      | |- context [fetch w ?req] =>
          destruct (packet_counts w req st eq_refl) as (p & st1 & Ef & Hn & Hix & Hrp & Hc)
      end.
      unfold bind at 1. rewrite Ef. cbv beta iota. unfold ret at 1.
      match goal with
      | |- context [for_ rest (acc ++ [?q]) LOOP st1] =>
          destruct (IH (acc ++ [q]) st1) as (new & st' & E & Hcs & Hnow & Hrp');
          exists (q :: new), st'
      end.
      rewrite E, <- app_assoc. split; [reflexivity |].
      split; [| split; [rewrite Hnow; exact Hn | rewrite Hrp'; exact Hrp]].
      cbn [List.length seq map]. constructor; [apply Hc |].
      rewrite <- Hix. exact Hcs. }
  destruct (Hloop (seq 0 50) [] s1) as (reqs & s2 & E & Hcs & Hnow & Hrp).
  cbn [app] in E. rewrite length_seq in Hcs.
  assert (Hix1 : netIx s1 = netIx s).
  { unfold s1, emit. cbn [netIx set_receivedPackets].
    destruct (onProgress s); reflexivity. }
  rewrite Hix1 in Hcs.
  destruct (Permutation_Forall2 (Permutation_sym (by_time_perm reqs))
              (combine_counts reqs _ 0 Hcs)) as (bs & Hperm & Hbs).
  destruct (settle_each_tally (by_time reqs) bs Hbs s2) as (rs & s4 & E4 & Hf & Hc4 & _).
  assert (Hcount : receivedPackets s4 = deliveries w (netIx s)).
  { rewrite Hc4. rewrite Hrp.
    cbn [receivedPackets s1 set_receivedPackets]. cbn [Nat.add].
    rewrite <- (proj1 (Permutation_count_occ Bool.bool_dec _ _) Hperm true).
    apply count_true_filter. }
  do 2 eexists. split.
  - erewrite try_normal; [reflexivity |].
    unfold bind at 1. rewrite E. unfold bind at 1, await_all. cbv zeta.
    rewrite E4, Hf. unfold bind, gets, ret. reflexivity.
  - cbn [sent received percentage receivedPackets set_now]. rewrite Hcount.
    split; [reflexivity |]. split; [reflexivity |].
    set (n := deliveries w (netIx s)).
    assert (Harg : (Qnat 50 - Qnat n) / Qnat 50 * 100 * 10
                   == inject_Z (20 * (50 - Z.of_nat n))).
    { unfold Qnat, Z.sub. rewrite inject_Z_mult, inject_Z_plus, inject_Z_opp.
      change (inject_Z (Z.of_nat 50)) with 50. change (inject_Z 20) with 20.
      change (inject_Z 50) with 50. field. }
    unfold Math_round. rewrite Harg, Qfloor_half.
    unfold Qnat, Z.sub. rewrite inject_Z_mult, inject_Z_plus, inject_Z_opp.
    change (inject_Z 20) with 20. change (inject_Z 50) with 50.
    change (inject_Z (Z.of_nat 50)) with 50. field.
Qed.

Lemma measurePacketLoss_counts_witness :
  exists pl s',
    measurePacketLoss PacketExample.lossy Sample.fresh = (Normal pl, s')
    /\ sent pl == 50 /\ received pl == 40 /\ percentage pl == 20.
Proof.
  destruct (measurePacketLoss_counts PacketExample.lossy Sample.fresh
              (conj (fun _ => eq_refl) (fun _ => eq_refl)) eq_refl)
    as (pl & s' & E & Hs & Hr & Hp).
  exists pl, s'. split; [exact E |]. split; [exact Hs |].
  assert (H40 : received pl == 40) by (rewrite Hr; vm_compute; reflexivity).
  split; [exact H40 |]. rewrite Hp, H40. reflexivity.
Defined.
(** * Courses: every method changes the state by elementary steps *)

Lemma course_one (s s' : State) : step s s' -> course s s'.
Proof. intros H. eapply course_step; [apply course_refl | exact H]. Qed.

Lemma course_trans (s1 s2 s3 : State) : course s1 s2 -> course s2 s3 -> course s1 s3.
Proof.
  intros H12 H23. induction H23 as [| s2 s3 s4 _ IH Hs]; [exact H12 |].
  eapply course_step; [apply IH, H12 | exact Hs].
Qed.

Lemma follows_course {T} (m : M T) (P : T -> Prop) (s : State) :
  follows m P -> course s (snd (m s)).
Proof. intros H; apply H. Qed.

Lemma follows_weaken {T} (m : M T) (P P' : T -> Prop) :
  follows m P -> (forall v, P v -> P' v) -> follows m P'.
Proof.
  intros H HP s. destruct (H s) as [Hr Hv]. split; [exact Hr |].
  destruct (fst (m s)); auto.
Qed.

Lemma follows_ret {T} (v : T) (P : T -> Prop) : P v -> follows (ret v) P.
Proof. intros H s; simpl; split; [apply course_refl | exact H]. Qed.

Lemma follows_throw {T} e (P : T -> Prop) : follows (throw e) P.
Proof. intros s; simpl; split; [apply course_refl | exact I]. Qed.

Lemma follows_gets {T} (f : State -> T) : follows (gets f) any.
Proof. intros s; simpl; split; [apply course_refl | exact I]. Qed.

Lemma follows_step (f : State -> State) :
  (forall s, step s (f s)) -> follows (modify f) any.
Proof. intros H s; simpl; split; [apply course_one, H | exact I]. Qed.

Lemma follows_bind {T U} (m : M T) (k : T -> M U) (P : T -> Prop) (P' : U -> Prop) :
  follows m P -> (forall v, P v -> follows (k v) P') -> follows (bind m k) P'.
Proof.
  intros Hm Hk s. unfold bind.
  destruct (Hm s) as [Hr Hv]. destruct (m s) as [[v | e] s1]; simpl in *.
  - destruct (Hk v Hv s1) as [Hr' Hv']. split; [| exact Hv'].
    eapply course_trans; eauto.
  - split; [exact Hr | exact I].
Qed.

Lemma follows_try {T} (m : M T) h (P P' : T -> Prop) :
  follows m P -> (forall v, P v -> P' v) -> (forall e, follows (h e) P') ->
  follows (try_catch m h) P'.
Proof.
  intros Hm HP Hh s. unfold try_catch.
  destruct (Hm s) as [Hr Hv]. destruct (m s) as [[v | e] s1]; simpl in *.
  - split; auto.
  - destruct (Hh e s1) as [Hr' Hv']. split; [| exact Hv'].
    eapply course_trans; eauto.
Qed.

Lemma follows_if {T} (c : bool) (m1 m2 : M T) P :
  follows m1 P -> follows m2 P -> follows (if c then m1 else m2) P.
Proof. destruct c; auto. Qed.

Lemma follows_for {T} (body : nat -> T -> M T) (Inv : T -> Prop) :
  (forall i acc, Inv acc -> follows (body i acc) Inv) ->
  forall indices acc, Inv acc -> follows (for_ indices acc body) Inv.
Proof.
  intros Hb indices; induction indices as [| i rest IH]; intros acc Hacc; simpl.
  - apply follows_ret; exact Hacc.
  - eapply follows_bind; [apply Hb; exact Hacc | intros; apply IH; assumption].
Qed.

Lemma follows_map {T U} (f : T -> nat -> M U) (P : U -> Prop) :
  (forall x i, follows (f x i) P) ->
  forall l i, follows (map_ f l i) (Forall P).
Proof.
  intros Hf l; induction l as [| x l IH]; intros i; simpl.
  - apply follows_ret; constructor.
  - eapply follows_bind; [apply Hf |]. intros y Hy.
    eapply follows_bind; [apply IH |]. intros ys Hys.
    apply follows_ret; constructor; assumption.
Qed.

Lemma follows_reduce {T} (f : T -> T -> T) l : follows (reduce f l) any.
Proof. destruct l; [apply follows_throw | apply follows_ret; exact I]. Qed.

Lemma follows_Math_random (w : World) : follows (Math_random w) any.
Proof. intros s; simpl; split; [apply course_one, step_draw | exact I]. Qed.

Lemma follows_AbortSignal_timeout (w : World) ms : follows (AbortSignal_timeout w ms) any.
Proof.
  unfold AbortSignal_timeout.
  destruct (hasAbortSignalTimeout w); [| apply follows_throw].
  destruct (_ && _)%bool; [apply follows_ret; exact I | apply follows_throw].
Qed.

Lemma follows_crypto_getRandomValues (w : World) n :
  follows (crypto_getRandomValues w n) any.
Proof.
  unfold crypto_getRandomValues.
  destruct (_ <=? _)%N; [apply follows_ret; exact I | apply follows_throw].
Qed.

Lemma follows_Array len : follows (Array_ len) any.
Proof.
  unfold Array_. destruct (_ && _)%bool; [apply follows_ret; exact I | apply follows_throw].
Qed.

Lemma inert_tame {T} (p : Promise T) : inert p -> tame p.
Proof.
  intros [r Hr] s. rewrite Hr. cbn [fst snd]. split; [apply course_refl |].
  destruct r; exact I.
Qed.

Lemma follows_fetch (w : World) req : follows (fetch w req) tame.
Proof.
  intros s. destruct (fetch_run w req s) as (p & E & Hin). rewrite E. cbn [fst snd].
  split; [apply course_one, step_request | apply inert_tame, Hin].
Qed.

Lemma follows_await {T} (p : Promise T) : tame p -> follows (await p) any.
Proof.
  intros Hp. unfold await.
  eapply follows_bind with (P := any); [| intros; exact Hp].
  apply follows_step. intros s. apply step_clock.
Qed.

Lemma tame_then {T U} (p : Promise T) (f : T -> M U) :
  tame p -> (forall v, follows (f v) any) -> tame (then_ p f).
Proof. intros Hp Hf. unfold tame, then_; simpl. eapply follows_bind; eauto. Qed.

Lemma tame_catch {T} (p : Promise T) g :
  tame p -> (forall e, follows (g e) any) -> tame (catch_ p g).
Proof. intros Hp Hg. unfold tame, catch_; simpl. eapply follows_try; eauto. Qed.

Lemma tame_finally {T} (p : Promise T) h :
  tame p -> follows h any -> tame (finally_ p h).
Proof.
  intros Hp Hh s. unfold finally_; simpl.
  destruct (Hp s) as [Hr _]. destruct (reaction p s) as [r s1]; simpl in *.
  destruct (Hh s1) as [Hr' _]. destruct (h s1) as [[u | e] s2]; simpl in *;
    (split; [eapply course_trans; eauto | destruct r; exact I || exact I]).
Qed.

Lemma follows_spawn {T} (task : M T) P : follows task P -> follows (spawn task) tame.
Proof.
  intros Ht s. unfold spawn. destruct (Ht s) as [Hr _].
  destruct (task s) as [r s1]; simpl in *. split.
  - eapply course_step; [exact Hr | apply step_clock].
  - intros s2; simpl; split; [apply course_refl | destruct r; exact I].
Qed.

Lemma settle_each_course {T} (l : list (nat * Promise T)) :
  Forall (fun y => tame (snd y)) l ->
  forall s, course s (snd (settle_each l s)).
Proof.
  induction 1 as [| [i p] l Hp Hl IH]; intros s; simpl in *; [apply course_refl |].
  destruct (Hp (set_now (settles p) s)) as [Hr _].
  destruct (reaction p (set_now (settles p) s)) as [r s1]; simpl in *.
  specialize (IH s1). destruct (settle_each l s1) as [rs s2]; simpl in *.
  apply course_trans with (set_now (settles p) s); [apply course_one, step_clock |].
  apply course_trans with s1; assumption.
Qed.

Lemma follows_await_all {T} (ps : list (Promise T)) :
  Forall tame ps -> follows (await_all ps) any.
Proof.
  intros H s. unfold await_all. cbv zeta.
  pose proof (settle_each_course _ (by_time_Forall _ _ H) s) as Hr.
  destruct (settle_each (by_time ps) s) as [rs s2]; cbn [snd] in Hr.
  match goal with
  | |- context [set_now ?t s2] =>
      assert (Hr' : course s (set_now t s2))
        by (eapply course_step; [exact Hr | apply step_clock])
  end.
  destruct (first_rejection rs); cbn [fst snd]; split; auto; exact I.
Qed.

Ltac fol_prim :=
  first [ apply follows_gets | apply follows_Math_random
        | apply follows_AbortSignal_timeout
        | apply follows_crypto_getRandomValues | apply follows_Array
        | apply follows_reduce
        | apply follows_throw | apply follows_ret; exact I ].

Ltac fol_chain :=
  repeat first
    [ fol_prim
    | apply follows_if
    | eapply follows_bind; [ solve [ fol_prim ] | intros ? ? ] ].

Lemma follows_updateProgress (w : World) ph pr speed :
  ph <> idle -> follows (updateProgress w ph pr speed) any.
Proof.
  intros Hph s. rewrite updateProgress_eq. cbn [fst snd].
  split; [apply course_one, step_report, Hph |].
  destruct (if onProgress s then _ else _); exact I.
Qed.

Lemma follows_plot (w : World) g :
  plotted g -> follows (graphData_push g ;; onGraphUpdate_call w) any.
Proof.
  intros Hg s. rewrite plot_eq. cbn [fst snd].
  split; [apply course_one, step_plot, Hg |].
  destruct (if onGraphUpdate s then _ else _); exact I.
Qed.

Lemma follows_reader_wait cut d : follows (reader_wait cut d) any.
Proof.
  intros s. unfold reader_wait, bind, performance_now, gets, modify, throw.
  cbv beta iota.
  destruct cut as [[c why] |]; [destruct (Qle_bool c (now s + us d)) |];
    cbn [fst snd]; (split; [| exact I]); apply course_one, step_clock.
Qed.

Lemma follows_readLoop (w : World) index startTime requestStart cut pending fin :
  forall downloadedBytes lastUpdate,
    follows (readLoop w index startTime requestStart cut pending fin
                      downloadedBytes lastUpdate) any.
Proof.
  induction pending as [| value rest IH]; intros; simpl.
  - destruct fin; (eapply follows_bind; [apply follows_reader_wait | intros; fol_chain]).
  - eapply follows_bind; [apply follows_reader_wait | intros _ _].
    eapply follows_bind; [apply follows_gets | intros now_ _].
    destruct (Qltb 100 _); [| apply IH].
    eapply follows_bind with (P := any); [| intros; apply IH].
    destruct (Nat.eqb index 0); [| fol_prim].
    eapply follows_bind; [fol_prim | intros d _].
    eapply follows_bind; [apply follows_updateProgress; discriminate | intros _ _].
    apply follows_plot. split; [reflexivity | left; reflexivity].
Qed.

Lemma follows_drain cut pending fin : follows (drain cut pending fin) any.
Proof.
  induction pending as [| value rest IH]; simpl.
  - destruct fin; [apply follows_reader_wait |].
    eapply follows_bind; [apply follows_reader_wait | intros; fol_prim].
  - eapply follows_bind; [apply follows_reader_wait | intros; apply IH].
Qed.

Lemma follows_response_json response : follows (response_json response) any.
Proof.
  unfold response_json.
  eapply follows_bind with (P := any).
  - destruct (body (answer response)); [apply follows_drain | fol_prim].
  - intros _ _. destruct (payload (answer response)); fol_prim.
Qed.

Lemma follows_get data key : follows (get data key) any.
Proof. destruct data; simpl; fol_prim. Qed.

Lemma follows_measureJitter (w : World) pings : follows (measureJitter w pings) any.
Proof.
  unfold measureJitter. destruct (_ <? _)%nat; [fol_chain |].
  eapply follows_bind with (P := any); [| intros; fol_chain].
  apply follows_for; [intros; fol_prim | exact I].
Qed.

Lemma follows_fetch_await {T} (w : World) req (k : Response -> M T) P :
  (forall response, follows (k response) P) ->
  follows (bind (fetch w req) (fun p => bind (await p) k)) P.
Proof.
  intros Hk. eapply follows_bind; [apply follows_fetch | intros p Hp].
  eapply follows_bind; [apply follows_await, Hp | intros response _; apply Hk].
Qed.

Lemma follows_quickPing (w : World) url_ : follows (quickPing w url_) any.
Proof.
  unfold quickPing. apply follows_try with (P := any); [| auto | intros; fol_prim].
  eapply follows_bind; [apply follows_gets | intros start _].
  eapply follows_bind; [fol_prim | intros sig _].
  apply follows_fetch_await. intros response.
  eapply follows_bind; [apply follows_gets | intros end_ _]. fol_chain.
Qed.

Lemma follows_measurePing (w : World) : follows (measurePing w) any.
Proof.
  unfold measurePing.
  eapply follows_bind with (P := any); [| intros; fol_chain].
  apply follows_for; [| exact I]. intros i acc _.
  apply follows_try with (P := any); [| auto | intros; fol_chain].
  eapply follows_bind; [apply follows_gets | intros start _].
  eapply follows_bind; [fol_prim | intros sig _].
  apply follows_fetch_await. intros response.
  eapply follows_bind; [apply follows_gets | intros end_ _]. fol_chain.
Qed.

Lemma follows_downloadTask (w : World) startTime url_ index :
  follows (downloadTask w startTime url_ index) any.
Proof.
  unfold downloadTask. apply follows_try with (P := any); [| auto | intros; fol_chain].
  eapply follows_bind; [apply follows_gets | intros requestStart _].
  eapply follows_bind; [fol_prim | intros d _].
  eapply follows_bind; [fol_prim | intros sig _].
  apply follows_fetch_await. intros response.
  destruct (negb _); [fol_prim |].
  destruct (body (answer response)); [| fol_prim].
  eapply follows_bind; [apply follows_readLoop | intros].
  eapply follows_bind; [apply follows_gets | intros; fol_prim].
Qed.

Lemma follows_uploadTask (w : World) startTime index :
  follows (uploadTask w startTime index) any.
Proof.
  unfold uploadTask. apply follows_try with (P := any); [| auto | intros; fol_chain].
  eapply follows_bind; [fol_prim | intros _ _].
  eapply follows_bind; [apply follows_gets | intros requestStart _].
  eapply follows_bind; [fol_prim | intros d _].
  eapply follows_bind; [fol_prim | intros sig _].
  apply follows_fetch_await. intros response.
  destruct (negb _); [fol_prim |].
  eapply follows_bind; [apply follows_gets | intros requestEnd _].
  eapply follows_bind with (P := any); [| intros; fol_prim].
  destruct (Nat.eqb index 0); [| fol_prim].
  eapply follows_bind; [apply follows_updateProgress; discriminate | intros _ _].
  apply follows_plot. split; [reflexivity | right; reflexivity].
Qed.

Lemma follows_getUserLocation (w : World) : follows (getUserLocation w) any.
Proof.
  unfold getUserLocation. apply follows_try with (P := any); [| auto | intros; fol_prim].
  eapply follows_bind; [fol_prim | intros sig _].
  apply follows_fetch_await. intros response.
  eapply follows_bind; [apply follows_response_json | intros data _].
  eapply follows_bind; [apply follows_get | intros c _].
  eapply follows_bind; [apply follows_get | intros c' _].
  eapply follows_bind; [apply follows_get | intros c'' _].
  fol_prim.
Qed.

Lemma follows_join {T U} (ps : list (Promise T)) (k : list T -> M U) :
  Forall tame ps -> (forall vs, follows (k vs) any) ->
  follows (results <- await_all ps ;; k results) any.
Proof.
  intros Hps Hk.
  eapply follows_bind; [apply follows_await_all, Hps | intros vs _; apply Hk].
Qed.

Lemma follows_findBestServer (w : World) : follows (findBestServer w) any.
Proof.
  unfold findBestServer.
  eapply follows_bind.
  { apply follows_map with (P := tame). intros server i.
    eapply follows_spawn with (P := any).
    apply follows_try with (P := any); [| auto | intros; fol_prim].
    eapply follows_bind; [apply follows_quickPing | intros; fol_prim]. }
  intros ps Hps. apply follows_join; [exact Hps | intros; fol_prim].
Qed.

Lemma follows_measureDownloadSpeed (w : World) : follows (measureDownloadSpeed w) any.
Proof.
  unfold measureDownloadSpeed.
  eapply follows_bind; [apply follows_gets | intros startTime _].
  eapply follows_bind; [fol_prim | intros pc _].
  eapply follows_bind; [fol_prim | intros n _].
  eapply follows_bind.
  { apply follows_map with (P := tame). intros url_ i.
    eapply follows_spawn. apply follows_downloadTask. }
  intros ps Hps. apply follows_join; [exact Hps | intros; fol_chain].
Qed.

Lemma follows_measureUploadSpeed (w : World) : follows (measureUploadSpeed w) any.
Proof.
  unfold measureUploadSpeed.
  eapply follows_bind; [apply follows_gets | intros startTime _].
  eapply follows_bind; [fol_prim | intros pc _].
  eapply follows_bind; [fol_prim | intros n _].
  eapply follows_bind.
  { apply follows_map with (P := tame). intros u i.
    eapply follows_spawn. apply follows_uploadTask. }
  intros ps Hps. apply follows_join; [exact Hps | intros; fol_chain].
Qed.

Lemma follows_measureBufferbloat (w : World) basePing :
  follows (measureBufferbloat w basePing) any.
Proof.
  unfold measureBufferbloat.
  eapply follows_bind; [fol_prim | intros enabled _].
  destruct (negb enabled); [fol_prim |].
  eapply follows_bind; [apply follows_updateProgress; discriminate | intros _ _].
  apply follows_try with (P := any); [| auto | intros; fol_chain].
  eapply follows_bind with (P := any).
  { apply follows_for; [| exact I]. intros i acc _.
    eapply follows_bind with (P := any); [| intros; fol_prim].
    eapply follows_weaken; [apply follows_fetch | intros; exact I]. }
  intros loadPromises _.
  eapply follows_bind with (P := any); [| intros; fol_chain].
  apply follows_for; [| exact I]. intros i acc _.
  eapply follows_bind; [apply follows_measurePing | intros ping_ _].
  eapply follows_bind; [apply follows_updateProgress; discriminate | intros; fol_prim].
Qed.

Lemma follows_measurePacketLoss (w : World) : follows (measurePacketLoss w) any.
Proof.
  unfold measurePacketLoss.
  eapply follows_bind; [apply follows_updateProgress; discriminate | intros _ _].
  eapply follows_bind with (P := any).
  { apply follows_step. intros s. apply step_count. }
  intros _ _.
  apply follows_try with (P := any); [| auto | intros; fol_prim].
  eapply follows_bind with (P := Forall tame).
  { apply follows_for; [| constructor]. intros i acc Hacc.
    eapply follows_bind; [apply follows_gets | intros stamp _].
    eapply follows_bind; [fol_prim | intros sig _].
    eapply follows_bind; [apply follows_fetch | intros p Hp].
    apply follows_ret. apply Forall_app; split; [exact Hacc |].
    constructor; [| constructor].
    apply tame_finally; [| apply follows_updateProgress; discriminate].
    apply tame_catch; [| intros; fol_prim].
    apply tame_then; [exact Hp |]. intros _.
    eapply follows_bind with (P := any); [| intros; fol_prim].
    apply follows_step. intros s. apply step_count. }
  intros requests_ Hreqs. apply follows_join; [exact Hreqs | intros; fol_chain].
Qed.

Lemma follows_runSpeedTest (w : World) (s : State) :
  course (started s) (snd (runSpeedTest w s)).
Proof.
  unfold runSpeedTest, started.
  unfold bind at 1, modify at 1. cbv beta iota.
  unfold bind at 1, modify at 1. cbv beta iota.
  apply follows_course with (P := any).
  eapply follows_bind; [apply follows_gets | intros startTime _].
  apply follows_try with (P := any); [| auto |].
  - eapply follows_bind; [apply follows_updateProgress; discriminate | intros _ _].
    eapply follows_bind; [apply follows_findBestServer | intros bestServer _].
    eapply follows_bind; [apply follows_updateProgress; discriminate | intros _ _].
    eapply follows_bind with (P := any).
    { apply follows_for; [| exact I]. intros i acc _.
      eapply follows_bind; [apply follows_measurePing | intros ping_ _].
      eapply follows_bind; [apply follows_updateProgress; discriminate
                           | intros; fol_prim]. }
    intros pings _.
    eapply follows_bind; [fol_prim | intros total_ _].
    eapply follows_bind; [apply follows_measureJitter | intros jitter_ _].
    eapply follows_bind; [apply follows_updateProgress; discriminate | intros _ _].
    eapply follows_bind; [apply follows_measureDownloadSpeed | intros downloadSpeed_ _].
    eapply follows_bind; [apply follows_updateProgress; discriminate | intros _ _].
    eapply follows_bind; [apply follows_measureUploadSpeed | intros uploadSpeed_ _].
    eapply follows_bind; [apply follows_updateProgress; discriminate | intros _ _].
    eapply follows_bind; [apply follows_measurePacketLoss | intros packetLoss_ _].
    eapply follows_bind; [fol_prim | intros enabled _].
    eapply follows_bind with (P := any).
    { destruct enabled; [| fol_prim].
      eapply follows_bind; [apply follows_measureBufferbloat | intros; fol_prim]. }
    intros bufferbloat_ _.
    eapply follows_bind; [apply follows_getUserLocation | intros userLocation_ _].
    eapply follows_bind; [apply follows_gets | intros id_ _].
    eapply follows_bind; [apply follows_gets | intros timestamp_ _].
    eapply follows_bind; [apply follows_gets | intros end_ _].
    eapply follows_bind; [apply follows_updateProgress; discriminate | intros; fol_prim].
  - intros e.
    eapply follows_bind; [apply follows_gets | intros id_ _].
    eapply follows_bind; [apply follows_gets | intros timestamp_ _].
    eapply follows_bind; [fol_prim | intros r1 _].
    eapply follows_bind; [fol_prim | intros r2 _].
    eapply follows_bind; [fol_prim | intros r3 _].
    eapply follows_bind; [fol_prim | intros r4 _].
    eapply follows_bind; [apply follows_getUserLocation | intros userLocation_ _].
    eapply follows_bind; [apply follows_gets | intros end_ _].
    eapply follows_bind; [fol_prim | intros enabled _].
    eapply follows_bind; [apply follows_updateProgress; discriminate | intros; fol_prim].
Qed.

(** * What reaches the progress sink *)

Lemma step_events (s s' : State) :
  step s s' ->
  onProgress s' = onProgress s
  /\ exists new, progressEvents s' = new ++ progressEvents s
                 /\ Forall reported new
                 /\ (onProgress s = false -> new = []).
Proof.
  intros H. destruct H as [t s | s | n s | i s | ph pr speed s Hph | g s Hg];
    try (split; [reflexivity |]; exists []; repeat split; constructor).
  - split; [apply emit_onProgress |]. unfold emit.
    destruct (onProgress s) eqn:Hon.
    + eexists [_]. split; [reflexivity |]. split; [| intros H; discriminate H].
      constructor; [| constructor]. split; [apply Q.le_min_r | exact Hph].
    + exists []. repeat split. constructor.
  - unfold plot; cbv zeta. destruct (onGraphUpdate s);
      (split; [reflexivity |]; exists []; repeat split; constructor).
Qed.

Lemma course_events (s s' : State) :
  course s s' ->
  onProgress s' = onProgress s
  /\ exists new, progressEvents s' = new ++ progressEvents s
                 /\ Forall reported new
                 /\ (onProgress s = false -> new = []).
Proof.
  induction 1 as [s | s1 s2 s3 _ (Hon & n1 & E1 & F1 & Z1) Hs].
  - split; [reflexivity |]. exists []. repeat split. constructor.
  - destruct (step_events s2 s3 Hs) as (Hon2 & n2 & E2 & F2 & Z2).
    split; [congruence |].
    exists (n2 ++ n1). split; [rewrite E2, E1, app_assoc; reflexivity |].
    split; [apply Forall_app; split; assumption |].
    intros Hoff. rewrite (Z1 Hoff), Z2 by congruence. reflexivity.
Qed.

(** X12. Whatever [runSpeedTest] hands to the progress sink went through
    [updateProgress]: no event reports more than 100, none has the phase
    [idle], and an engine built without a progress sink records nothing. *)
Theorem progress_events_spec (w : World) (s : State) :
  exists new,
    progressEvents (snd (runSpeedTest w s)) = new ++ progressEvents s
    /\ Forall (fun e => progress e <= 100 /\ phase e <> idle) new
    /\ (onProgress s = false -> new = []).
Proof.
  destruct (course_events _ _ (follows_runSpeedTest w s)) as (_ & new & E & F & Z).
  exists new. split; [exact E |]. split; [exact F | exact Z].
Qed.

Lemma progress_events_spec_witness :
  progressEvents (snd (runSpeedTest Sample.offline SinkExample.unobserved))
  = progressEvents SinkExample.unobserved.
Proof.
  destruct (progress_events_spec Sample.offline SinkExample.unobserved)
    as (new & E & _ & Z).
  rewrite E, (Z eq_refl). reflexivity.
Defined.

(** * What reaches the graph sink *)

Lemma growth_snoc (before pts : list GraphData) (g : GraphData) :
  growth before (pts ++ [g]) = (before ++ pts ++ [g]) :: growth before pts.
Proof.
  unfold growth. rewrite length_app. cbn [List.length].
  rewrite Nat.add_1_r, seq_S, map_app, rev_app_distr. cbn [map rev app Nat.add].
  f_equal.
  - rewrite firstn_all2 by (rewrite length_app; cbn [List.length]; lia). reflexivity.
  - f_equal. apply map_ext_in. intros k Hk. apply in_seq in Hk.
    rewrite firstn_app. replace (S k - List.length pts)%nat with 0%nat by lia.
    cbn [firstn]. rewrite app_nil_r. reflexivity.
Qed.

Lemma step_graph (s s' : State) :
  step s s' ->
  onGraphUpdate s' = onGraphUpdate s
  /\ ((graphData s' = graphData s /\ graphUpdates s' = graphUpdates s)
      \/ exists g, plotted g
                   /\ graphData s' = graphData s ++ [g]
                   /\ graphUpdates s'
                      = (if onGraphUpdate s then [graphData s ++ [g]] else [])
                        ++ graphUpdates s).
Proof.
  intros H. destruct H as [t s | s | n s | i s | ph pr speed s Hph | g s Hg];
    try (split; [reflexivity | left; split; reflexivity]).
  - unfold emit. destruct (onProgress s);
      (split; [reflexivity | left; split; reflexivity]).
  - unfold plot; cbv zeta. destruct (onGraphUpdate s) eqn:Hon.
    + split; [exact Hon |]. right. exists g.
      split; [exact Hg | split; reflexivity].
    + split; [exact Hon |]. right. exists g.
      split; [exact Hg | split; reflexivity].
Qed.

Lemma course_graph (s s' : State) :
  course s s' ->
  onGraphUpdate s' = onGraphUpdate s
  /\ exists pts, graphData s' = graphData s ++ pts
                 /\ Forall plotted pts
                 /\ graphUpdates s'
                    = (if onGraphUpdate s then growth (graphData s) pts else [])
                      ++ graphUpdates s.
Proof.
  induction 1 as [s | s1 s2 s3 _ (Hon & pts & E1 & F1 & U1) Hs].
  - split; [reflexivity |]. exists []. rewrite app_nil_r.
    split; [reflexivity |]. split; [constructor |].
    destruct (onGraphUpdate s); reflexivity.
  - destruct (step_graph s2 s3 Hs) as (Hon2 & [[E2 U2] | (g & Hg & E2 & U2)]).
    + split; [congruence |]. exists pts. rewrite E2, U2. repeat split; assumption.
    + split; [congruence |]. exists (pts ++ [g]).
      split; [rewrite E2, E1, app_assoc; reflexivity |].
      split; [apply Forall_app; split; [exact F1 | constructor; [exact Hg | constructor]] |].
      rewrite U2, U1, Hon, E1. destruct (onGraphUpdate s1).
      * rewrite growth_snoc, <- app_assoc. reflexivity.
      * reflexivity.
Qed.

(** X13. Each run rebuilds the graph series from nothing.  Its points come
    from the download and upload phases only, none carries a ping, and the
    graph sink is called once per point, with the series up to that point;
    an engine built without a graph sink records nothing. *)
Theorem graph_series_spec (w : World) (s : State) :
  Forall (fun g => g_ping g = None
                   /\ (g_phase g = "download" \/ g_phase g = "upload"))
         (graphData (snd (runSpeedTest w s)))
  /\ graphUpdates (snd (runSpeedTest w s))
     = (if onGraphUpdate s then growth [] (graphData (snd (runSpeedTest w s))) else [])
       ++ graphUpdates s.
Proof.
  destruct (course_graph _ _ (follows_runSpeedTest w s)) as (_ & pts & E & F & U).
  cbn [started graphData set_graphData app] in E.
  cbn [started graphData graphUpdates onGraphUpdate set_graphData
       set_abortController] in U.
  rewrite E. split; [exact F | exact U].
Qed.

(** * The shape of a result *)

Lemma ensures_of_total {T} (m : M T) (P : T -> Prop) :
  (forall s, exists v s', m s = (Normal v, s') /\ P v) ->
  ensures m (fun v _ => P v).
Proof.
  intros H s v s' E. destruct (H s) as (v0 & s0 & E0 & HP).
  rewrite E in E0. injection E0 as -> _. exact HP.
Qed.

Lemma ensures_any {T} (m : M T) : ensures m (fun _ _ => True).
Proof. intros s v s' _. exact I. Qed.

Lemma ensures_for {T} (body : nat -> T -> M T) (Inv : T -> Prop) :
  (forall i acc, Inv acc -> ensures (body i acc) (fun a _ => Inv a)) ->
  forall indices acc, Inv acc -> ensures (for_ indices acc body) (fun a _ => Inv a).
Proof.
  intros Hb indices; induction indices as [| i rest IH]; intros acc Hacc; cbn [for_].
  - apply ensures_ret. intros _. exact Hacc.
  - eapply ensures_bind_val; [apply Hb, Hacc | intros a Ha; apply IH, Ha].
Qed.

Lemma under_of {T} (c : TestConfig) (m : M T) (P : T -> Prop) :
  sat frame m any -> ensures m (fun v _ => P v) -> under c m P.
Proof.
  intros Hf Hm s Hc. destruct (Hf s) as [(Hcfg & _) _].
  split; [congruence |].
  destruct (m s) as [[v | e] s1] eqn:E; cbn [fst]; [| exact I].
  exact (Hm s v s1 E).
Qed.

Lemma under_bind {T U} (c : TestConfig) (m : M T) (k : T -> M U) (P : T -> Prop)
    (Q : U -> Prop) :
  under c m P -> (forall x, P x -> under c (k x) Q) -> under c (bind m k) Q.
Proof.
  intros Hm Hk s Hc. unfold bind. destruct (Hm s Hc) as [Hcfg Hv].
  destruct (m s) as [[x | e] s1]; cbn [fst snd] in *.
  - apply (Hk x Hv s1 Hcfg).
  - split; [exact Hcfg | exact I].
Qed.

Lemma under_config {T U} (c : TestConfig) (g : TestConfig -> T) (k : T -> M U)
    (Q : U -> Prop) :
  under c (k (g c)) Q -> under c (bind (gets (fun s => g (config s))) k) Q.
Proof.
  intros Hk s Hc. unfold bind, gets. rewrite Hc. apply Hk, Hc.
Qed.

Lemma under_try {T} (c : TestConfig) (m : M T) h (Q : T -> Prop) :
  under c m Q -> (forall e, under c (h e) Q) -> under c (try_catch m h) Q.
Proof.
  intros Hm Hh s Hc. unfold try_catch. destruct (Hm s Hc) as [Hcfg Hv].
  destruct (m s) as [[x | e] s1]; cbn [fst snd] in *.
  - split; assumption.
  - apply (Hh e s1 Hcfg).
Qed.

Lemma under_ret {T} (c : TestConfig) (v : T) (Q : T -> Prop) : Q v -> under c (ret v) Q.
Proof. intros H s Hc. split; [exact Hc | exact H]. Qed.

Lemma under_weaken {T} (c : TestConfig) (m : M T) (P Q : T -> Prop) :
  under c m P -> (forall v, P v -> Q v) -> under c m Q.
Proof.
  intros Hm HPQ s Hc. destruct (Hm s Hc) as [Hcfg Hv]. split; [exact Hcfg |].
  destruct (fst (m s)); [apply HPQ, Hv | exact I].
Qed.

(** The phases keep the configuration. *)
Ltac framed :=
  first [ apply sat_updateProgress
        | apply sat_measureJitter
        | apply sat_findBestServer; intros; exact I
        | apply sat_measurePing; intros; exact I
        | apply sat_measureDownloadSpeed; intros; exact I
        | apply sat_measureUploadSpeed; intros; exact I
        | apply sat_measurePacketLoss; intros; exact I
        | apply sat_measureBufferbloat; intros; exact I
        | apply sat_getUserLocation; intros; exact I
        | sat_prim ].

Lemma round1_tenths_of (x : Q) : 0 <= x -> tenths (round1 x).
Proof.
  intros H. split; [| eexists; reflexivity].
  assert (E0 : round1 0 == 0) by reflexivity.
  rewrite <- E0. apply round1_le, H.
Qed.

Lemma draw_tenths (u : Unit01) (a b : Q) : 0 <= a -> 0 <= b -> tenths (round1 (unit01 u * a + b)).
Proof.
  intros Ha Hb. apply round1_tenths_of.
  destruct (unit01_range u) as [H0 _].
  pose proof (Qmult_le_0_compat _ _ H0 Ha). lra.
Qed.

Lemma findBestServer_located (w : World) :
  ensures (findBestServer w)
          (fun best _ => location best = "Global CDN" \/ location best = "Global").
Proof.
  apply ensures_of_total. intros s.
  destruct (findBestServer_run w s) as (l0 & l1 & s' & E & _).
  do 2 eexists. split; [exact E |].
  destruct (Qltb l1 l0); [right | left]; reflexivity.
Qed.

Lemma lossOf_percentage (rp : nat) : percentage (lossOf rp) == 2 * (50 - Qnat rp).
Proof.
  cbn [lossOf percentage].
  assert (Harg : (Qnat 50 - Qnat rp) / Qnat 50 * 100 * 10
                 == inject_Z (20 * (50 - Z.of_nat rp))).
  { unfold Qnat, Z.sub. rewrite inject_Z_mult, inject_Z_plus, inject_Z_opp.
    change (inject_Z (Z.of_nat 50)) with 50. change (inject_Z 20) with 20.
    change (inject_Z 50) with 50. field. }
  unfold Math_round. rewrite Harg, Qfloor_half.
  unfold Qnat, Z.sub. rewrite inject_Z_mult, inject_Z_plus, inject_Z_opp.
  change (inject_Z 20) with 20. change (inject_Z 50) with 50. field.
Qed.

Lemma measurePacketLoss_sane (w : World) {Hq : quietSinks w} :
  ensures (measurePacketLoss w) (fun pl _ => bounded pl).
Proof.
  intros s pl s' E. destruct (hasAbortSignalTimeout w) eqn:Hsup.
  - destruct (measurePacketLoss_supported w s Hsup) as (rp & s'' & iss & E' & Hrp & _).
    rewrite E in E'. injection E' as -> _.
    assert (H0 : 0 <= Qnat rp) by (unfold Qnat, Qle; simpl; lia).
    assert (H50 : Qnat rp <= 50) by (unfold Qnat, Qle; simpl; lia).
    unfold bounded. rewrite lossOf_percentage. cbn [lossOf sent received].
    split; [reflexivity |]. repeat split; lra.
  - rewrite (measurePacketLoss_legacy w s Hsup) in E. injection E as <- _.
    unfold bounded. cbn [sent received percentage]. repeat split; try reflexivity; lra.
Qed.

Lemma measureBufferbloat_rated (w : World) {Hq : quietSinks w} (basePing : Q) :
  ensures (measureBufferbloat w basePing) (fun b _ => rated b).
Proof.
  intros s b s' E. destruct (enableBufferbloat (config s)) eqn:Hen.
  - destruct (measureBufferbloat_enabled w basePing s Hen)
      as (p0 & p1 & p2 & p3 & p4 & s'' & E' & _).
    cbv zeta in E'. rewrite E in E'. injection E' as -> _.
    split; [apply Q.le_max_l | reflexivity].
  - unfold measureBufferbloat, bind, gets in E. rewrite Hen in E.
    injection E as <- _. split; [apply Qle_refl | reflexivity].
Qed.

Lemma measureDownloadSpeed_positive (w : World) :
  ensures (measureDownloadSpeed w) (fun v _ => 0 < v).
Proof.
  intros s v s' E.
  destruct (Array_cases (parallelConnections (config s))) as [[n Hn] | Hn].
  - destruct (measureDownloadSpeed_valid w s n Hn) as (v0 & s0 & E0 & Hv).
    rewrite E in E0. injection E0 as -> _. exact Hv.
  - unfold measureDownloadSpeed in E.
    unfold bind at 1, performance_now, gets in E. cbv beta iota in E.
    unfold bind at 1, gets in E. cbv beta iota in E.
    rewrite Hn in E. discriminate E.
Qed.

Lemma measureUploadSpeed_positive (w : World) :
  ensures (measureUploadSpeed w) (fun v _ => 0 < v).
Proof.
  intros s v s' E.
  destruct (Array_cases (Math_min (parallelConnections (config s)) 3)) as [[n Hn] | Hn].
  - destruct (measureUploadSpeed_valid w s n Hn) as (v0 & s0 & E0 & Hv).
    rewrite E in E0. injection E0 as -> _. exact Hv.
  - unfold measureUploadSpeed in E.
    unfold bind at 1, performance_now, gets in E. cbv beta iota in E.
    unfold bind at 1, gets in E. cbv beta iota in E.
    rewrite Hn in E. discriminate E.
Qed.

Lemma ensures_Math_random (w : World) :
  ensures (Math_random w) (fun r _ => 0 <= r /\ r < 1).
Proof. intros s v s' E. injection E as <- _. apply unit01_range. Qed.

(** The samples of the ping phase. *)
Lemma ping_samples (w : World) (P : Q -> Prop) (pr : nat -> Q) :
  ensures (measurePing w) (fun v _ => P v) ->
  forall indices acc, Forall P acc ->
    ensures (for_ indices acc (fun i pings =>
               ping_ <- measurePing w ;;
               updateProgress w ping (pr i) 0 ;;
               ret (pings ++ [ping_])))
            (fun pings _ => Forall P pings).
Proof.
  intros HP. apply ensures_for. intros i acc Hacc.
  eapply ensures_bind_val; [exact HP | intros ping_ Hp].
  apply ensures_bind; intros _. apply ensures_ret. intros _.
  apply Forall_app; split; [exact Hacc | constructor; [exact Hp | constructor]].
Qed.

Lemma sat_ping_samples (D : Discipline) (w : World) (pr : nat -> Q) :
  (forall req, signal req <> SigController -> allowed D req) ->
  forall indices acc,
    sat D (for_ indices acc (fun i pings =>
             ping_ <- measurePing w ;;
             updateProgress w ping (pr i) 0 ;;
             ret (pings ++ [ping_]))) any.
Proof.
  intros Hall indices acc. apply sat_for; [| exact I]. intros i a _.
  eapply sat_bind; [apply sat_measurePing; exact Hall | intros ping_ _].
  eapply sat_bind; [apply sat_updateProgress | intros; sat_prim].
Qed.

Lemma reduce_mean (lo hi : Q) (pings : list Q) :
  Forall (fun p => lo <= p /\ p < hi) pings ->
  ensures (reduce Qplus pings)
          (fun total _ => lo <= total / Qlen pings /\ total / Qlen pings < hi).
Proof.
  intros H s t s' E. destruct pings as [| x l]; [discriminate E |].
  destruct (reduce_Qplus x l s) as (t0 & E0 & Ht). rewrite E in E0.
  injection E0 as ->. rewrite Ht. apply (mean_between lo hi x l H).
Qed.

Ltac pass :=
  eapply under_bind with (P := any);
  [ apply under_of; [framed | apply ensures_any] | intros ? _ ].

Ltac pass_with L :=
  eapply under_bind; [ apply under_of; [framed | apply L] | intros ? ? ].

Lemma under_modify (c : TestConfig) (f : State -> State) :
  (forall s, config (f s) = config s) -> under c (modify f) any.
Proof. intros H s Hc. cbn [modify fst snd]. split; [rewrite H; exact Hc | exact I]. Qed.

Lemma round1_at_most (x b : Q) (z : Z) :
  x <= b -> b == inject_Z z / 10 -> round1 x <= b.
Proof.
  intros Hx Hb.
  apply Qle_trans with (round1 (inject_Z z / 10)).
  - apply round1_le. lra.
  - pose proof (round1_tenths z). lra.
Qed.

Lemma runSpeedTest_wellFormed (w : World) {Hq : quietSinks w} (c : TestConfig) :
  under c (runSpeedTest w) (wellFormed c).
Proof.
  unfold runSpeedTest.
  eapply under_bind; [apply under_modify; reflexivity | intros _ _].
  eapply under_bind; [apply under_modify; reflexivity | intros _ _].
  pass. apply under_try.
  - pass. pass_with findBestServer_located. pass.
    eapply under_bind.
    { apply under_of; [apply sat_ping_samples; intros; exact I |].
      apply (ping_samples w (fun v => 0 <= v /\ v < 1000)); [| constructor].
      apply ensures_of_total. intros s.
      destruct (measurePing_bounds w s) as (v & s' & E & H0 & H1).
      exists v, s'. split; [exact E | split; [lra | exact H1]]. }
    intros pings Hpings.
    eapply under_bind;
      [apply under_of; [framed | apply (reduce_mean 0 1000 pings Hpings)]
      | intros total_ [Hlo Hhi]].
    eapply under_bind;
      [apply under_of; [framed | apply ensures_of_total, measureJitter_sign]
      | intros jitter_ Hj].
    pass. pass_with measureDownloadSpeed_positive.
    pass. pass_with measureUploadSpeed_positive.
    pass. pass_with (measurePacketLoss_sane w).
    apply (under_config c enableBufferbloat).
    eapply under_bind
      with (P := fun x => (x = None <-> enableBufferbloat c = false)
                          /\ forall b, x = Some b -> rated b).
    { destruct (enableBufferbloat c).
      - eapply under_bind;
          [apply under_of; [framed | apply (measureBufferbloat_rated w)] | intros b Hb].
        apply under_ret. split.
        + split; intros Hx; discriminate Hx.
        + intros b0 E. injection E as <-. exact Hb.
      - apply under_ret. split; [split; reflexivity | intros b0 E; discriminate E]. }
    intros bufferbloat_ [Hnone Hsome].
    pass. pass. pass. pass. pass.
    apply under_ret. unfold wellFormed.
    cbn [downloadSpeed uploadSpeed r_ping jitter serverLocation r_bufferbloat r_packetLoss].
    split; [apply round1_tenths_of; lra |].
    split; [apply round1_tenths_of; lra |].
    split; [apply round1_tenths_of; exact Hlo |].
    split; [apply round1_tenths_of; exact Hj |].
    split; [apply (round1_at_most _ 1000 10000); [lra | reflexivity] |].
    split; [assumption |].
    split; [exact Hnone |]. split; [exact Hsome |].
    eexists. split; [reflexivity | assumption].
  - intros e. pass. pass.
    pass_with ensures_Math_random. pass_with ensures_Math_random.
    pass_with ensures_Math_random. pass_with ensures_Math_random.
    pass. pass.
    apply (under_config c enableBufferbloat).
    pass. apply under_ret. unfold wellFormed.
    cbn [downloadSpeed uploadSpeed r_ping jitter serverLocation r_bufferbloat r_packetLoss].
    cbv beta in *. repeat match goal with Hr : _ /\ _ |- _ => destruct Hr end.
    split; [apply round1_tenths_of; lra |].
    split; [apply round1_tenths_of; lra |].
    split; [apply round1_tenths_of; lra |].
    split; [apply round1_tenths_of; lra |].
    split; [apply (round1_at_most _ 1000 10000); [lra | reflexivity] |].
    split; [left; reflexivity |].
    split; [destruct (enableBufferbloat c); split; intros Hx; try discriminate Hx;
            reflexivity |].
    split.
    + intros b Hb. destruct (enableBufferbloat c); [| discriminate Hb].
      injection Hb as <-. split; [cbn [latencyIncrease]; lra | reflexivity].
    + eexists. split; [reflexivity |].
      unfold bounded. cbn [sent received percentage].
      repeat split; try reflexivity; lra.
Qed.

(** X14. With sinks that do not throw, [runSpeedTest] returns a result
    that is well formed: the four measurements are non-negative numbers of
    tenths and the ping is at most 1000; the server is one of the two
    candidates; a bufferbloat record is there exactly when the
    configuration enables it, and its rating is that of its latency
    increase; the packet-loss record has 50 sent, between 0 and 50
    received and a percentage between 0 and 100. *)
Theorem runSpeedTest_result_shape (w : World) (s : State) :
  quietSinks w ->
  exists r s',
    runSpeedTest w s = (Normal r, s')
    /\ tenths (downloadSpeed r) /\ tenths (uploadSpeed r)
    /\ tenths (r_ping r) /\ tenths (jitter r)
    /\ r_ping r <= 1000
    /\ (serverLocation r = "Global CDN" \/ serverLocation r = "Global")
    /\ (r_bufferbloat r = None <-> enableBufferbloat (config s) = false)
    /\ (forall b, r_bufferbloat r = Some b -> rated b)
    /\ (exists pl, r_packetLoss r = Some pl /\ bounded pl).
Proof.
  intros Hq.
  destruct (total_runSpeedTest w s) as (r & s' & E). exists r, s'.
  split; [exact E |].
  destruct (runSpeedTest_wellFormed w (config s) s eq_refl) as [_ H].
  rewrite E in H. exact H.
Qed.

Lemma runSpeedTest_result_shape_witness :
  exists r s',
    runSpeedTest (Sample.steady 20000) Sample.fresh = (Normal r, s')
    /\ tenths (downloadSpeed r) /\ tenths (uploadSpeed r)
    /\ tenths (r_ping r) /\ tenths (jitter r)
    /\ r_ping r <= 1000
    /\ (serverLocation r = "Global CDN" \/ serverLocation r = "Global")
    /\ (r_bufferbloat r = None <-> enableBufferbloat (config Sample.fresh) = false)
    /\ (forall b, r_bufferbloat r = Some b -> rated b)
    /\ (exists pl, r_packetLoss r = Some pl /\ bounded pl).
Proof.
  apply (runSpeedTest_result_shape (Sample.steady 20000) Sample.fresh).
  exact (conj (fun _ => eq_refl) (fun _ => eq_refl)).
Defined.

(** * A run that falls back *)

Lemma round1_between (x lo hi : Q) (zl zh : Z) :
  lo == inject_Z zl / 10 -> hi == inject_Z zh / 10 ->
  lo <= x -> x <= hi -> lo <= round1 x /\ round1 x <= hi.
Proof.
  intros Hlo Hhi Hx0 Hx1. split.
  - apply Qle_trans with (round1 (inject_Z zl / 10)).
    + pose proof (round1_tenths zl). lra.
    + apply round1_le. lra.
  - apply (round1_at_most x hi zh Hx1 Hhi).
Qed.

Lemma measureDownloadSpeed_invalid (w : World) (c : TestConfig) :
  ~ (exists n, arrayLength (parallelConnections c) n) ->
  under c (measureDownloadSpeed w) (fun _ => False).
Proof.
  intros H s Hc.
  assert (E : measureDownloadSpeed w s = (Throw (RangeError "Invalid array length"), s)).
  { unfold measureDownloadSpeed.
    unfold bind at 1, performance_now, gets. cbv beta iota.
    unfold bind at 1, gets. cbv beta iota.
    rewrite Hc, (Array_invalid _ H). reflexivity. }
  rewrite E. split; [exact Hc | exact I].
Qed.

Lemma fallback_madeUp (w : World) (c : TestConfig) (startTime : Q) :
  under c
    (id_ <- Date_now w ;;
     timestamp <- Date_now w ;;
     r1 <- Math_random w ;;
     r2 <- Math_random w ;;
     r3 <- Math_random w ;;
     r4 <- Math_random w ;;
     userLocation <- getUserLocation w ;;
     end_ <- performance_now ;;
     enabled <- gets (fun s => enableBufferbloat (config s)) ;;
     let fallbackResult :=
       {| r_id := string_of_Z id_;
          timestamp := timestamp;
          downloadSpeed := round1 (r1 * 80 + 25);
          uploadSpeed := round1 (r2 * 30 + 10);
          r_ping := round1 (r3 * 40 + 15);
          jitter := round1 (r4 * 8 + 2);
          serverLocation := "Global CDN";
          userLocation := userLocation;
          testDuration := (end_ - startTime) / 1000;
          r_bufferbloat :=
            if enabled then Some {| rating := B; latencyIncrease := 35 |} else None;
          r_packetLoss := Some {| percentage := 2; sent := 50; received := 49 |} |} in
     updateProgress w complete 100 0 ;;
     ret fallbackResult)
    (madeUp c).
Proof.
  pass. pass.
  pass_with ensures_Math_random. pass_with ensures_Math_random.
  pass_with ensures_Math_random. pass_with ensures_Math_random.
  pass. pass.
  apply (under_config c enableBufferbloat). cbv zeta.
  pass. apply under_ret. unfold madeUp.
  cbn [downloadSpeed uploadSpeed r_ping jitter serverLocation r_bufferbloat r_packetLoss].
  cbv beta in *. repeat match goal with Hr : _ /\ _ |- _ => destruct Hr end.
  split; [reflexivity |]. split; [reflexivity |]. split; [reflexivity |].
  split; [apply (round1_between _ 25 105 250 1050); try reflexivity; lra |].
  split; [apply (round1_between _ 10 40 100 400); try reflexivity; lra |].
  split; [apply (round1_between _ 15 55 150 550); try reflexivity; lra |].
  apply (round1_between _ 2 10 20 100); try reflexivity; lra.
Qed.

Lemma runSpeedTest_falls_back (w : World) (c : TestConfig) :
  ~ (exists n, arrayLength (parallelConnections c) n) ->
  under c (runSpeedTest w) (madeUp c).
Proof.
  intros Hbad. unfold runSpeedTest.
  eapply under_bind; [apply under_modify; reflexivity | intros _ _].
  eapply under_bind; [apply under_modify; reflexivity | intros _ _].
  pass. apply under_try; [| intros e; apply fallback_madeUp].
  pass. pass. pass.
  eapply under_bind with (P := any);
    [apply under_of; [apply sat_ping_samples; intros; exact I | apply ensures_any]
    | intros pings _].
  pass. pass. pass.
  eapply under_bind; [apply measureDownloadSpeed_invalid, Hbad | intros ? []].
Qed.

(** X15. With a number of connections that is no array length (a fraction,
    a negative number, one beyond [2^32 - 1]) and sinks that do not throw,
    the download phase throws and [runSpeedTest] returns its fallback:
    server ['Global CDN'], packet loss 2 % of 50, bufferbloat B with 35 ms
    where enabled, and four numbers drawn at random: nothing of what was
    measured before reaches the result. *)
Theorem runSpeedTest_invalid_connections (w : World) (s : State) :
  quietSinks w ->
  ~ (exists n, arrayLength (parallelConnections (config s)) n) ->
  exists r s',
    runSpeedTest w s = (Normal r, s')
    /\ serverLocation r = "Global CDN"
    /\ r_packetLoss r = Some {| percentage := 2; sent := 50; received := 49 |}
    /\ r_bufferbloat r
       = (if enableBufferbloat (config s)
          then Some {| rating := B; latencyIncrease := 35 |} else None)
    /\ (25 <= downloadSpeed r /\ downloadSpeed r <= 105)
    /\ (10 <= uploadSpeed r /\ uploadSpeed r <= 40)
    /\ (15 <= r_ping r /\ r_ping r <= 55)
    /\ (2 <= jitter r /\ jitter r <= 10).
Proof.
  intros Hq Hbad.
  destruct (total_runSpeedTest w s) as (r & s' & E). exists r, s'.
  split; [exact E |].
  destruct (runSpeedTest_falls_back w (config s) Hbad s eq_refl) as [_ H].
  rewrite E in H. exact H.
Qed.

Lemma runSpeedTest_invalid_connections_witness :
  exists r s',
    runSpeedTest (Sample.steady 20000) RunExample.broken = (Normal r, s')
    /\ serverLocation r = "Global CDN"
    /\ r_packetLoss r = Some {| percentage := 2; sent := 50; received := 49 |}
    /\ r_bufferbloat r = Some {| rating := B; latencyIncrease := 35 |}
    /\ (25 <= downloadSpeed r /\ downloadSpeed r <= 105)
    /\ (10 <= uploadSpeed r /\ uploadSpeed r <= 40)
    /\ (15 <= r_ping r /\ r_ping r <= 55)
    /\ (2 <= jitter r /\ jitter r <= 10).
Proof.
  apply (runSpeedTest_invalid_connections (Sample.steady 20000) RunExample.broken).
  - exact (conj (fun _ => eq_refl) (fun _ => eq_refl)).
  - intros [n [H _]]. unfold Qeq in H. simpl in H. lia.
Defined.

(** * A run during which nothing answers *)

Section Unanswered.

Variable w : World.
Hypothesis nothing : unanswered w.

Lemma fetch_await_unanswered {T} (req : Request) (k : Response -> M T)
    (Q : T -> State -> Prop) :
  ensures (bind (fetch w req) (fun p => bind (await p) k)) Q.
Proof.
  intros s v s' E. exfalso. revert E.
  unfold bind at 1, fetch. cbv beta iota zeta.
  destruct (nothing (netIx s)) as [d ->].
  destruct (fires w (signal req) s) as [[c why] |];
    [destruct (Qle_bool _ _) |];
    unfold bind at 1, await, bind at 1, modify; cbv beta iota;
    cbn [reaction]; unfold throw; discriminate.
Qed.

Lemma downloadTask_unanswered (startTime : Q) (u : string) (index : nat) :
  ensures (downloadTask w startTime u index) (fun v _ => 15 <= v /\ v < 65).
Proof.
  unfold downloadTask. apply ensures_try.
  - apply ensures_bind; intros requestStart. apply ensures_bind; intros d.
    apply ensures_bind; intros sig. apply fetch_await_unanswered.
  - intros e. eapply ensures_bind_val; [apply ensures_Math_random | intros r [H0 H1]].
    apply ensures_ret. intros _. split; lra.
Qed.

Lemma uploadTask_unanswered (startTime : Q) (index : nat) :
  ensures (uploadTask w startTime index) (fun v _ => 8 <= v /\ v < 33).
Proof.
  unfold uploadTask. apply ensures_try.
  - apply ensures_bind; intros _. apply ensures_bind; intros requestStart.
    apply ensures_bind; intros d. apply ensures_bind; intros sig.
    apply fetch_await_unanswered.
  - intros e. eapply ensures_bind_val; [apply ensures_Math_random | intros r [H0 H1]].
    apply ensures_ret. intros _. split; lra.
Qed.

Lemma getUserLocation_unanswered :
  ensures (getUserLocation w) (fun loc _ => loc = yourLocation).
Proof.
  unfold getUserLocation. apply ensures_try.
  - apply ensures_bind; intros sig. apply fetch_await_unanswered.
  - intros e. apply ensures_ret. intros _. reflexivity.
Qed.

Lemma measurePing_unanswered :
  ensures (measurePing w) (fun v _ => 15 <= v /\ v < 45).
Proof.
  apply ensures_of_total. intros s.
  destruct (measurePing_post w s)
    as (v & s' & E & (m0 & m1 & m2 & Hv & K0 & K1 & K2) & _).
  exists v, s'. split; [exact E |].
  assert (Hs : forall m, answered w m \/ synthesized w m -> 15 <= m /\ m < 45).
  { intros m [(i & d & a & Hnet & _) | Hm]; [| apply (synthesized_range w m Hm)].
    destruct (nothing i) as [d' Hd]. rewrite Hd in Hnet. discriminate Hnet. }
  destruct (Hs m0 K0), (Hs m1 K1), (Hs m2 K2). rewrite Hv. split.
  - apply Qle_shift_div_l; [reflexivity | lra].
  - apply Qlt_shift_div_r; [reflexivity | lra].
Qed.

Lemma measureDownloadSpeed_unanswered :
  ensures (measureDownloadSpeed w) (fun v _ => 15 <= v /\ v < 125).
Proof.
  intros s v s' E.
  destruct (Array_cases (parallelConnections (config s))) as [[n Hn] | Hn];
    unfold measureDownloadSpeed in E;
    unfold bind at 1, performance_now, gets in E; cbv beta iota in E;
    unfold bind at 1, gets in E; cbv beta iota in E;
    rewrite Hn in E; [| discriminate E].
  unfold bind at 1, ret at 1 in E. cbv beta iota in E.
  destruct (fanout_aggregate w (fun u index => downloadTask w (now s) u index)
              (fun v => 15 <= v /\ v < 65) (fun _ _ => True)
              (map downloadUrl (seq 0 n)) 100 25 s)
    as (vs & v0 & s0 & E0 & Hvs & _ & _ & Hv); try (intros; exact I).
  - intros u i. apply total_downloadTask.
  - intros u i. apply downloadTask_unanswered.
  - pose proof (eq_trans (eq_sym E0) E) as Heq. injection Heq as -> _.
    destruct (made_up_mean w vs v 15 65 100 25) as [Hlo Hhi];
      [reflexivity | reflexivity | exact Hvs | exact Hv |].
    rewrite Q.min_l in Hlo by (unfold Qle; simpl; lia).
    rewrite Q.max_r in Hhi by (unfold Qle; simpl; lia).
    split; [exact Hlo |]. setoid_replace (100 + 25) with 125 in Hhi by ring. exact Hhi.
Qed.

Lemma measureUploadSpeed_unanswered :
  ensures (measureUploadSpeed w) (fun v _ => 8 <= v /\ v < 50).
Proof.
  intros s v s' E.
  destruct (Array_cases (Math_min (parallelConnections (config s)) 3)) as [[n Hn] | Hn];
    unfold measureUploadSpeed in E;
    unfold bind at 1, performance_now, gets in E; cbv beta iota in E;
    unfold bind at 1, gets in E; cbv beta iota in E;
    rewrite Hn in E; [| discriminate E].
  unfold bind at 1, ret at 1 in E. cbv beta iota in E.
  destruct (fanout_aggregate w (fun (_ : unit) index => uploadTask w (now s) index)
              (fun v => 8 <= v /\ v < 33) (fun _ _ => True)
              (repeat tt n) 40 10 s)
    as (vs & v0 & s0 & E0 & Hvs & _ & _ & Hv); try (intros; exact I).
  - intros u i. apply total_uploadTask.
  - intros u i. apply uploadTask_unanswered.
  - pose proof (eq_trans (eq_sym E0) E) as Heq. injection Heq as -> _.
    destruct (made_up_mean w vs v 8 33 40 10) as [Hlo Hhi];
      [reflexivity | reflexivity | exact Hvs | exact Hv |].
    rewrite Q.min_l in Hlo by (unfold Qle; simpl; lia).
    rewrite Q.max_r in Hhi by (unfold Qle; simpl; lia).
    split; [exact Hlo |]. setoid_replace (40 + 10) with 50 in Hhi by ring. exact Hhi.
Qed.

Lemma runSpeedTest_plausible (c : TestConfig) : under c (runSpeedTest w) plausible.
Proof.
  unfold runSpeedTest.
  eapply under_bind; [apply under_modify; reflexivity | intros _ _].
  eapply under_bind; [apply under_modify; reflexivity | intros _ _].
  pass. apply under_try.
  - pass. pass. pass.
    eapply under_bind.
    { apply under_of; [apply sat_ping_samples; intros; exact I |].
      apply (ping_samples w (fun v => 15 <= v /\ v < 45)); [| constructor].
      apply measurePing_unanswered. }
    intros pings Hpings.
    eapply under_bind;
      [apply under_of; [framed | apply (reduce_mean 15 45 pings Hpings)]
      | intros total_ [Hlo Hhi]].
    pass. pass. pass_with measureDownloadSpeed_unanswered.
    pass. pass_with measureUploadSpeed_unanswered.
    pass. pass.
    apply (under_config c enableBufferbloat).
    eapply under_bind with (P := any).
    { destruct (enableBufferbloat c); [| apply under_ret; exact I].
      pass. apply under_ret. exact I. }
    intros bufferbloat_ _.
    pass_with getUserLocation_unanswered.
    pass. pass. pass. pass.
    apply under_ret. unfold plausible.
    cbn [downloadSpeed uploadSpeed r_ping userLocation].
    cbv beta in *. repeat match goal with Hr : _ /\ _ |- _ => destruct Hr end.
    split; [apply (round1_between _ 15 55 150 550); try reflexivity; lra |].
    split; [apply (round1_between _ 15 125 150 1250); try reflexivity; lra |].
    split; [apply (round1_between _ 8 50 80 500); try reflexivity; lra |].
    assumption.
  - intros e. pass. pass.
    pass_with ensures_Math_random. pass_with ensures_Math_random.
    pass_with ensures_Math_random. pass_with ensures_Math_random.
    pass_with getUserLocation_unanswered. pass.
    apply (under_config c enableBufferbloat).
    pass. apply under_ret. unfold plausible.
    cbn [downloadSpeed uploadSpeed r_ping userLocation].
    cbv beta in *. repeat match goal with Hr : _ /\ _ |- _ => destruct Hr end.
    split; [apply (round1_between _ 15 55 150 550); try reflexivity; lra |].
    split; [apply (round1_between _ 15 125 150 1250); try reflexivity; lra |].
    split; [apply (round1_between _ 8 50 80 500); try reflexivity; lra |].
    assumption.
Qed.

End Unanswered.

(** X16. When no request is answered at all and the sinks do not throw,
    [runSpeedTest] reports no failure: it returns a ping between 15 and
    55 ms, a download speed between 15 and 125, an upload speed between 8
    and 50, all made up of random draws, and the placeholder location. *)
Theorem runSpeedTest_unanswered (w : World) (s : State) :
  quietSinks w ->
  unanswered w ->
  exists r s',
    runSpeedTest w s = (Normal r, s')
    /\ (15 <= r_ping r /\ r_ping r <= 55)
    /\ (15 <= downloadSpeed r /\ downloadSpeed r <= 125)
    /\ (8 <= uploadSpeed r /\ uploadSpeed r <= 50)
    /\ userLocation r = yourLocation.
Proof.
  intros Hq Hun.
  destruct (total_runSpeedTest w s) as (r & s' & E). exists r, s'.
  split; [exact E |].
  destruct (runSpeedTest_plausible w Hun (config s) s eq_refl) as [_ H].
  rewrite E in H. exact H.
Qed.

Lemma runSpeedTest_unanswered_witness :
  exists r s',
    runSpeedTest Sample.offline Sample.fresh = (Normal r, s')
    /\ (15 <= r_ping r /\ r_ping r <= 55)
    /\ (15 <= downloadSpeed r /\ downloadSpeed r <= 125)
    /\ (8 <= uploadSpeed r /\ uploadSpeed r <= 50)
    /\ userLocation r = yourLocation.
Proof.
  apply (runSpeedTest_unanswered Sample.offline Sample.fresh).
  - exact (conj (fun _ => eq_refl) (fun _ => eq_refl)).
  - intros i. exists 5000%positive. reflexivity.
Defined.

(** * A transfer that runs out of time *)




(** * How long the engine waits *)

Lemma plot_config g s : config (plot g s) = config s.
Proof. unfold plot; cbv zeta; destruct (onGraphUpdate s); reflexivity. Qed.


Lemma allowance_nonneg (c : TestConfig) : 0 <= allowance c.
Proof. unfold allowance. rewrite <- (Zle_Qle 0). apply Z.le_max_l. Qed.

Section Takes.

Variable w : World.
Variable c : TestConfig.

(** ** Composition *)

Lemma takes_weaken {T} (b b' : Q) (m : M T) : takes c b m -> b <= b' -> takes c b' m.
Proof.
  intros H Hb s Hc. destruct (H s Hc) as (Hcfg & Hlo & Hhi).
  split; [exact Hcfg |]. split; [exact Hlo | lra].
Qed.

Lemma takes_bind {T U} (b1 b2 : Q) (m : M T) (k : T -> M U) :
  takes c b1 m -> (forall v, takes c b2 (k v)) -> 0 <= b2 ->
  takes c (b1 + b2) (bind m k).
Proof.
  intros Hm Hk Hb s Hc. unfold bind. destruct (Hm s Hc) as (Hcfg & Hlo & Hhi).
  destruct (m s) as [[v | e] s1]; cbn [snd] in *.
  - destruct (Hk v s1 Hcfg) as (Hcfg' & Hlo' & Hhi').
    split; [exact Hcfg' |]. split; lra.
  - split; [exact Hcfg |]. split; lra.
Qed.

Lemma takes_try {T} (b1 b2 : Q) (m : M T) (h : Exn -> M T) :
  takes c b1 m -> (forall e, takes c b2 (h e)) -> 0 <= b2 ->
  takes c (b1 + b2) (try_catch m h).
Proof.
  intros Hm Hh Hb s Hc. unfold try_catch. destruct (Hm s Hc) as (Hcfg & Hlo & Hhi).
  destruct (m s) as [[v | e] s1]; cbn [snd] in *.
  - split; [exact Hcfg |]. split; lra.
  - destruct (Hh e s1 Hcfg) as (Hcfg' & Hlo' & Hhi').
    split; [exact Hcfg' |]. split; lra.
Qed.

(** The usual cases: the first part does not wait, or the rest does not. *)
Lemma takes_then {T U} (b : Q) (m : M T) (k : T -> M U) :
  takes c 0 m -> (forall v, takes c b (k v)) -> 0 <= b -> takes c b (bind m k).
Proof.
  intros Hm Hk Hb. apply (takes_weaken (0 + b)); [| lra].
  apply takes_bind; assumption.
Qed.

Lemma takes_first {T U} (b : Q) (m : M T) (k : T -> M U) :
  takes c b m -> (forall v, takes c 0 (k v)) -> takes c b (bind m k).
Proof.
  intros Hm Hk. apply (takes_weaken (b + 0)); [| lra].
  apply takes_bind; [assumption | assumption | apply Qle_refl].
Qed.

Lemma takes_caught {T} (b : Q) (m : M T) (h : Exn -> M T) :
  takes c b m -> (forall e, takes c 0 (h e)) -> takes c b (try_catch m h).
Proof.
  intros Hm Hh. apply (takes_weaken (b + 0)); [| lra].
  apply takes_try; [assumption | assumption | apply Qle_refl].
Qed.

Lemma takes_if {T} (b : Q) (t : bool) (m1 m2 : M T) :
  takes c b m1 -> takes c b m2 -> takes c b (if t then m1 else m2).
Proof. destruct t; auto. Qed.

Lemma takes_for {T} (b : Q) (body : nat -> T -> M T) :
  0 <= b -> (forall i acc, takes c b (body i acc)) ->
  forall indices acc, takes c (Qlen indices * b) (for_ indices acc body).
Proof.
  intros Hb Hbody indices. induction indices as [| i rest IH]; intros acc; cbn [for_].
  - intros s Hc. cbn [ret snd]. split; [exact Hc |].
    assert (E : Qlen (@nil nat) * b == 0) by (unfold Qlen; simpl; ring).
    rewrite E. split; [apply Qle_refl | lra].
  - assert (Hrest : 0 <= Qlen rest * b).
    { apply Qmult_le_0_compat; [unfold Qlen, Qle; simpl; lia | exact Hb]. }
    apply (takes_weaken (b + Qlen rest * b)).
    + apply takes_bind; [apply Hbody | intros; apply IH | exact Hrest].
    + assert (E : Qlen (i :: rest) == 1 + Qlen rest).
      { unfold Qlen. cbn [List.length].
        rewrite Nat2Z.inj_succ, <- Z.add_1_l, inject_Z_plus. reflexivity. }
      rewrite E. setoid_replace ((1 + Qlen rest) * b) with (b + Qlen rest * b) by ring.
      apply Qle_refl.
Qed.

(** ** Code that does not wait *)

Lemma takes_still {T} (m : M T) :
  (forall s, config (snd (m s)) = config s /\ now (snd (m s)) = now s) ->
  takes c 0 m.
Proof.
  intros H s Hc. destruct (H s) as [Hcfg Hnow]. rewrite Hcfg, Hnow.
  split; [exact Hc |]. split; [apply Qle_refl | lra].
Qed.

Lemma takes_ret {T} (v : T) : takes c 0 (ret v).
Proof. apply takes_still. intros s. split; reflexivity. Qed.

Lemma takes_throw {T} (e : Exn) : takes c 0 (@throw T e).
Proof. apply takes_still. intros s. split; reflexivity. Qed.

Lemma takes_gets {T} (f : State -> T) : takes c 0 (gets f).
Proof. apply takes_still. intros s. split; reflexivity. Qed.

Lemma takes_Math_random : takes c 0 (Math_random w).
Proof. apply takes_still. intros s. split; reflexivity. Qed.

Lemma takes_AbortSignal_timeout ms : takes c 0 (AbortSignal_timeout w ms).
Proof.
  unfold AbortSignal_timeout.
  destruct (hasAbortSignalTimeout w); [| apply takes_throw].
  destruct (_ && _)%bool; [apply takes_ret | apply takes_throw].
Qed.

Lemma takes_crypto_getRandomValues n : takes c 0 (crypto_getRandomValues w n).
Proof.
  unfold crypto_getRandomValues.
  destruct (_ <=? _)%N; [apply takes_ret | apply takes_throw].
Qed.

Lemma takes_Array len : takes c 0 (Array_ len).
Proof.
  unfold Array_. destruct (_ && _)%bool; [apply takes_ret | apply takes_throw].
Qed.

Lemma takes_reduce {T} (f : T -> T -> T) l : takes c 0 (reduce f l).
Proof. destruct l; [apply takes_throw | apply takes_ret]. Qed.

Lemma takes_updateProgress ph pr speed : takes c 0 (updateProgress w ph pr speed).
Proof.
  apply takes_still. intros s. rewrite updateProgress_state.
  split; [apply emit_config | apply emit_now].
Qed.

Lemma takes_plot g : takes c 0 (graphData_push g ;; onGraphUpdate_call w).
Proof.
  apply takes_still. intros s. rewrite plot_eq. cbn [snd].
  split; [apply plot_config | apply plot_now].
Qed.

Lemma takes_get data key : takes c 0 (get data key).
Proof. destruct data; simpl; first [apply takes_ret | apply takes_throw]. Qed.

End Takes.

Ltac still :=
  first [ apply takes_ret | apply takes_throw | apply takes_gets
        | apply takes_Math_random | apply takes_AbortSignal_timeout
        | apply takes_crypto_getRandomValues | apply takes_Array
        | apply takes_reduce | apply takes_updateProgress | apply takes_plot
        | apply takes_get ].

(** A chain of steps none of which waits. *)
Ltac stills :=
  repeat first
    [ still
    | apply takes_if
    | apply takes_then; [ solve [ still ] | intros ? | apply Qle_refl ] ].

Section TakesMethods.

Variable w : World.
Variable c : TestConfig.

Lemma takes_measureJitter pings : takes c 0 (measureJitter w pings).
Proof.
  unfold measureJitter. destruct (_ <? _)%nat; [stills |].
  apply takes_then; [| intros; stills | apply Qle_refl].
  apply (takes_weaken c (Qlen (seq 1 (List.length pings - 1)) * 0)).
  - apply takes_for; [apply Qle_refl | intros; still].
  - setoid_replace (Qlen (seq 1 (List.length pings - 1)) * 0) with 0 by ring.
    apply Qle_refl.
Qed.

(** ** Waiting for a request, and for its body *)

Lemma ends_by_still {T} (d : Q) (m : M T) : takes c 0 m -> ends_by c d m.
Proof.
  intros H s Hc. destruct (H s Hc) as (Hcfg & Hlo & Hhi).
  split; [exact Hcfg |]. split; [exact Hlo |].
  pose proof (Q.le_max_l (now s) d). lra.
Qed.

Lemma ends_by_bind {T U} (d : Q) (m : M T) (k : T -> M U) :
  ends_by c d m -> (forall v, ends_by c d (k v)) -> ends_by c d (bind m k).
Proof.
  intros Hm Hk s Hc. unfold bind. destruct (Hm s Hc) as (Hcfg & Hlo & Hhi).
  destruct (m s) as [[v | e] s1]; cbn [snd] in *.
  - destruct (Hk v s1 Hcfg) as (Hcfg' & Hlo' & Hhi').
    split; [exact Hcfg' |]. split; [lra |].
    eapply Qle_trans; [exact Hhi' |].
    apply Q.max_lub; [exact Hhi | apply Q.le_max_r].
  - split; [exact Hcfg |]. split; assumption.
Qed.

Lemma ends_by_reader_wait (d : Q) (why : Exn) (delay : N) :
  ends_by c d (reader_wait (Some (d, why)) delay).
Proof.
  intros s Hc. unfold reader_wait. run.
  pose proof (us_nonneg delay) as Hd.
  destruct (Qle_bool d (now s + us delay)) eqn:E; cbn [snd config now set_now].
  - split; [exact Hc |]. split; [apply Q.le_max_l | apply Qle_refl].
  - split; [exact Hc |]. split; [lra |].
    assert (now s + us delay < d).
    { apply Qnot_le_lt. intros L. apply Qle_bool_iff in L. congruence. }
    pose proof (Q.le_max_r (now s) d). lra.
Qed.

Lemma ends_by_readLoop index startTime requestStart (d : Q) (why : Exn) pending fin :
  forall downloadedBytes lastUpdate,
    ends_by c d (readLoop w index startTime requestStart (Some (d, why)) pending fin
                          downloadedBytes lastUpdate).
Proof.
  induction pending as [| value rest IH]; intros; cbn [readLoop].
  - destruct fin; (apply ends_by_bind; [apply ends_by_reader_wait |]);
      intros; apply ends_by_still; still.
  - apply ends_by_bind; [apply ends_by_reader_wait | intros _].
    apply ends_by_bind; [apply ends_by_still; still | intros now_].
    destruct (Qltb 100 _); [| apply IH].
    apply ends_by_bind; [| intros; apply IH].
    apply ends_by_still. destruct (Nat.eqb index 0); [| still].
    apply takes_then; [still | intros d0 | apply Qle_refl].
    apply takes_then; [still | intros _ | apply Qle_refl]. still.
Qed.

Lemma ends_by_drain (d : Q) (why : Exn) pending fin :
  ends_by c d (drain (Some (d, why)) pending fin).
Proof.
  induction pending as [| value rest IH]; cbn [drain].
  - destruct fin; [apply ends_by_reader_wait |].
    apply ends_by_bind; [apply ends_by_reader_wait | intros; apply ends_by_still; still].
  - apply ends_by_bind; [apply ends_by_reader_wait | intros; apply IH].
Qed.

(** A request with a timeout settles within it. *)
Lemma fetch_timed (req : Request) (n : Z) (s : State) :
  signal req = SigTimeout n -> (0 <= n)%Z ->
  exists p r,
    fetch w req s
    = (Normal p,
       push_request {| request := req; startedAt := now s; settlesAt := settles p |} s)
    /\ (forall s0, reaction p s0 = (r, s0))
    /\ now s <= settles p /\ settles p <= now s + inject_Z n
    /\ forall response, r = Normal response ->
         cutoff response = Some (now s + inject_Z n, TimeoutError).
Proof.
  intros Hsig Hn.
  assert (Hn' : 0 <= inject_Z n) by (rewrite <- (Zle_Qle 0); exact Hn).
  unfold fetch. rewrite Hsig. cbn [fires].
  destruct (net w (netIx s)) as [dl | dl a]; cbn [settles];
    pose proof (us_nonneg (N.pos dl)) as Hdl;
    destruct (Qle_bool (now s + inject_Z n) (now s + us (N.pos dl))) eqn:Hcmp;
    do 2 eexists; (split; [reflexivity |]); (split; [intros s0; reflexivity |]);
    cbn [settles];
    try (assert (now s + us (N.pos dl) < now s + inject_Z n)
          by (apply Qnot_le_lt; intros L; apply Qle_bool_iff in L; congruence));
    (split; [lra |]); (split; [lra |]); intros response E;
    try discriminate E.
  injection E as <-. reflexivity.
Qed.

(** A request with a timeout, awaited at once, and what is then done with
    the response before the timeout fires: all within the timeout. *)
Lemma takes_fetch_await {T} (req : Request) (n : Z) (k : Response -> M T) :
  signal req = SigTimeout n -> (0 <= n)%Z ->
  (forall response d why, cutoff response = Some (d, why) -> ends_by c d (k response)) ->
  takes c (inject_Z n) (bind (fetch w req) (fun p => bind (await p) k)).
Proof.
  intros Hsig Hn Hk s Hc.
  destruct (fetch_timed req n s Hsig Hn) as (p & r & Ef & Hr & Hlo & Hhi & Hcut).
  set (i := {| request := req; startedAt := now s; settlesAt := settles p |}) in *.
  set (s2 := set_now (Qmax (now s) (settles p)) (push_request i s)).
  assert (E : bind (fetch w req) (fun p => bind (await p) k) s
              = match r with
                | Normal response => k response s2
                | Throw e => (Throw e, s2)
                end).
  { unfold bind at 1. rewrite Ef. unfold bind at 1, await, bind at 1, modify.
    cbv beta iota. rewrite Hr. destruct r; reflexivity. }
  rewrite E.
  assert (Hnow2 : now s2 == settles p).
  { unfold s2. cbn [now set_now push_request]. apply Q.max_r. exact Hlo. }
  destruct r as [response | e].
  - destruct (Hk response _ _ (Hcut response eq_refl) s2) as (Hcfg & Hlo' & Hhi');
      [exact Hc |].
    split; [exact Hcfg |]. split; [lra |].
    eapply Qle_trans; [exact Hhi' |]. apply Q.max_lub; lra.
  - cbn [snd]. split; [exact Hc |]. split; lra.
Qed.

Lemma still_by {T} (m : M T) :
  takes c 0 m -> forall (d : Q), ends_by c d m.
Proof. intros H d. apply ends_by_still, H. Qed.

(** [AbortSignal.timeout] with a delay in range, or an exception at once. *)
Lemma timeout_cases (ms : Q) (s : State) :
  AbortSignal_timeout w ms s = (Normal (SigTimeout (truncate ms)), s)
  /\ (0 <= truncate ms)%Z
  \/ exists e, AbortSignal_timeout w ms s = (Throw e, s).
Proof.
  unfold AbortSignal_timeout.
  destruct (hasAbortSignalTimeout w); [| right; eexists; reflexivity].
  cbv zeta. destruct (0 <=? truncate ms)%Z eqn:E0; cbn [andb];
    [| right; eexists; reflexivity].
  destruct (truncate ms <=? 2 ^ 53 - 1)%Z; [| right; eexists; reflexivity].
  left. split; [reflexivity | apply Z.leb_le, E0].
Qed.

(** The pattern of every probe and transfer: a signal is made, the request
    goes out with it and is awaited. *)
Lemma takes_timed_request {T} (ms b : Q) (mk : Signal -> Request)
    (k : Response -> M T) :
  (forall sig, signal (mk sig) = sig) ->
  inject_Z (truncate ms) <= b -> 0 <= b ->
  (forall response d why, cutoff response = Some (d, why) -> ends_by c d (k response)) ->
  takes c b (sig <- AbortSignal_timeout w ms ;;
             p <- fetch w (mk sig) ;;
             response <- await p ;;
             k response).
Proof.
  intros Hmk Hms Hb Hk s Hc.
  destruct (timeout_cases ms s) as [[E Hn] | [e E]].
  - assert (Erun : (sig <- AbortSignal_timeout w ms ;;
                    p <- fetch w (mk sig) ;;
                    response <- await p ;;
                    k response) s
                   = (p <- fetch w (mk (SigTimeout (truncate ms))) ;;
                      response <- await p ;;
                      k response) s)
      by (unfold bind at 1; rewrite E; reflexivity).
    rewrite Erun.
    destruct (takes_fetch_await (mk (SigTimeout (truncate ms))) (truncate ms) k
                (Hmk _) Hn Hk s Hc) as (Hcfg & Hlo & Hhi).
    split; [exact Hcfg |]. split; [exact Hlo |].
    eapply Qle_trans; [exact Hhi | lra].
  - assert (Erun : (sig <- AbortSignal_timeout w ms ;;
                    p <- fetch w (mk sig) ;;
                    response <- await p ;;
                    k response) s
                   = (Throw e, s))
      by (unfold bind at 1; rewrite E; reflexivity).
    rewrite Erun. cbn [snd]. split; [exact Hc |]. split; [apply Qle_refl | lra].
Qed.

Lemma takes_quickPing url_ : takes c 2000 (quickPing w url_).
Proof.
  unfold quickPing. apply takes_caught; [| intros; still].
  apply takes_then; [still | intros start | discriminate].
  apply (takes_timed_request 2000 2000
           (fun sig => {| url := url_; method := HEAD; mode := Some "no-cors";
                          cache := Some "no-cache"; bodyBytes := 0; signal := sig |}));
    [reflexivity | apply Qle_refl | discriminate |].
  intros response d why _. apply still_by. stills.
Qed.

Lemma takes_measurePing : takes c 3000 (measurePing w).
Proof.
  unfold measurePing. apply takes_first; [| intros; stills].
  apply (takes_weaken c (Qlen (seq 0 3) * 1000)); [| apply Qle_refl].
  apply takes_for; [discriminate |]. intros i acc.
  apply takes_caught; [| intros; stills].
  apply takes_then; [still | intros start | discriminate].
  apply (takes_timed_request 1000 1000
           (fun sig => {| url := "https://www.google.com/favicon.ico"; method := HEAD;
                          mode := Some "no-cors"; cache := Some "no-cache";
                          bodyBytes := 0; signal := sig |}));
    [reflexivity | apply Qle_refl | discriminate |].
  intros response d why _. apply still_by. stills.
Qed.

Lemma ends_by_response_json (response : Response) (d : Q) (why : Exn) :
  cutoff response = Some (d, why) -> ends_by c d (response_json response).
Proof.
  intros Hcut. unfold response_json. rewrite Hcut.
  apply ends_by_bind.
  - destruct (body (answer response)); [apply ends_by_drain | apply still_by; still].
  - intros _. apply still_by. destruct (payload (answer response)); still.
Qed.

Lemma takes_getUserLocation : takes c 2000 (getUserLocation w).
Proof.
  unfold getUserLocation. apply takes_caught; [| intros; still].
  apply (takes_timed_request 2000 2000
           (fun sig => {| url := "https://ipapi.co/json/"; method := GET; mode := None;
                          cache := None; bodyBytes := 0; signal := sig |}));
    [reflexivity | apply Qle_refl | discriminate |].
  intros response d why Hcut.
  apply ends_by_bind; [apply (ends_by_response_json response d why Hcut) | intros data].
  apply still_by. stills.
Qed.

Lemma allowance_covers : inject_Z (deadline c) <= allowance c.
Proof. unfold allowance. rewrite <- Zle_Qle. apply Z.le_max_r. Qed.

(** A setting read from the configuration. *)
Lemma takes_config {T U} (b : Q) (f : TestConfig -> T) (k : T -> M U) :
  takes c b (k (f c)) -> takes c b (bind (gets (fun s => f (config s))) k).
Proof.
  intros H s Hc.
  assert (E : bind (gets (fun s => f (config s))) k s = k (f c) s)
    by (unfold bind, gets; rewrite Hc; reflexivity).
  rewrite E. apply H, Hc.
Qed.

Lemma takes_fetch (req : Request) : takes c 0 (fetch w req).
Proof. apply takes_still. intros s. split; reflexivity. Qed.

Lemma takes_modify (f : State -> State) :
  (forall s, config (f s) = config s /\ now (f s) = now s) -> takes c 0 (modify f).
Proof. intros H. apply takes_still. intros s. apply H. Qed.

(** ** The transfers *)

Lemma takes_downloadTask startTime url_ index :
  takes c (allowance c) (downloadTask w startTime url_ index).
Proof.
  unfold downloadTask. apply takes_caught; [| intros; stills].
  apply takes_then; [still | intros requestStart | apply allowance_nonneg].
  apply (takes_config (allowance c) duration). cbv beta.
  apply (takes_timed_request (duration c * 1000) (allowance c)
           (fun sig => {| url := url_; method := GET; mode := None;
                          cache := Some "no-store"; bodyBytes := 0; signal := sig |}));
    [reflexivity | exact allowance_covers | apply allowance_nonneg |].
  intros response d why Hcut.
  destruct (negb (ok (answer response))); [apply still_by; still |].
  destruct (body (answer response)) as [reader |]; [| apply still_by; still].
  rewrite Hcut. apply ends_by_bind; [apply ends_by_readLoop | intros downloadedBytes].
  apply still_by. stills.
Qed.

Lemma takes_uploadTask startTime index :
  takes c (allowance c) (uploadTask w startTime index).
Proof.
  unfold uploadTask. apply takes_caught; [| intros; stills].
  cbv zeta.
  apply takes_then; [still | intros _ | apply allowance_nonneg].
  apply takes_then; [still | intros requestStart | apply allowance_nonneg].
  apply (takes_config (allowance c) duration). cbv beta.
  apply (takes_timed_request (duration c * 1000) (allowance c)
           (fun sig => {| url := nth (index mod List.length uploadEndpoints)
                                     uploadEndpoints "";
                          method := POST; mode := None; cache := Some "no-store";
                          bodyBytes := (1 * 1024 * 1024)%N; signal := sig |}));
    [reflexivity | exact allowance_covers | apply allowance_nonneg |].
  intros response d why Hcut.
  destruct (negb (ok (answer response))); apply still_by; [still |].
  apply takes_then; [still | intros requestEnd | apply Qle_refl].
  apply takes_then; [| intros; still | apply Qle_refl].
  destruct (Nat.eqb index 0); [| still].
  apply takes_then; [still | intros _ | apply Qle_refl]. still.
Qed.

(** ** Tasks side by side, and the wait for all of them *)

Lemma spawn_all_due {T U} (task : T -> nat -> M U) (b : Q) :
  (forall x i, takes c b (task x i)) ->
  forall l i0 s, config s = c ->
    exists r s',
      map_ (fun x i => spawn (task x i)) l i0 s = (r, s')
      /\ config s' = c /\ now s' = now s
      /\ match r with
         | Normal ps => Forall (due c (now s + b)) ps
         | Throw _ => True
         end.
Proof.
  intros Htask l. induction l as [| x l IH]; intros i0 s Hc.
  - exists (Normal []), s. cbn. repeat split; [exact Hc | constructor].
  - cbn [map_]. destruct (Htask x i0 s Hc) as (Hcfg & Hlo & Hhi).
    destruct (task x i0 s) as [r s1] eqn:E. cbn [snd] in *.
    unfold bind at 1, spawn at 1. rewrite E. cbv beta iota.
    destruct (IH (S i0) (set_now (now s) s1) Hcfg)
      as (r' & s' & E' & Hcfg' & Hnow' & Hall).
    unfold bind at 1. rewrite E'. destruct r' as [ps | e]; cbv beta iota.
    + unfold ret. do 2 eexists. split; [reflexivity |]. split; [exact Hcfg' |].
      split; [exact Hnow' |].
      constructor; [| exact Hall].
      split; [exact Hhi | intros s0 H0; exact H0].
    + do 2 eexists. split; [reflexivity |]. split; [exact Hcfg' |].
      split; [exact Hnow' | exact I].
Qed.

Lemma settle_each_config {T} (t : Q) (l : list (nat * Promise T)) :
  Forall (fun y => due c t (snd y)) l ->
  forall s, config s = c -> config (snd (settle_each l s)) = c.
Proof.
  induction 1 as [| [i p] l [_ Hp] Hl IH]; intros s Hc; cbn [settle_each];
    [exact Hc |].
  cbn [snd] in Hp. specialize (Hp (set_now (settles p) s) Hc).
  destruct (reaction p (set_now (settles p) s)) as [r s1]. cbn [snd] in Hp.
  specialize (IH s1 Hp). destruct (settle_each l s1) as [rs s2]. exact IH.
Qed.

Lemma fold_settles_due {T} (t : Q) (ps : list (Promise T)) :
  Forall (due c t) ps ->
  forall a, fold_left (fun t p => Qmax t (settles p)) ps a <= Qmax a t.
Proof.
  induction 1 as [| p ps [Hp _] Hps IH]; intros a; cbn [fold_left].
  - apply Q.le_max_l.
  - eapply Qle_trans; [apply IH |].
    apply Q.max_lub; [| apply Q.le_max_r].
    apply Q.max_lub; [apply Q.le_max_l |].
    eapply Qle_trans; [exact Hp | apply Q.le_max_r].
Qed.

(** The moment a join ends is the moment one of its promises settles, or
    the moment the last of them does. *)
Lemma settled_at_due {T} (t : Q) (l : list (nat * Promise T))
    (rs : list (nat * Completion T)) (latest : Q) :
  Forall (fun y => settles (snd y) <= t) l -> latest <= t ->
  settled_at l rs latest <= t.
Proof.
  intros Hl Hlatest. revert rs.
  induction Hl as [| [i p] l Hp _ IH]; intros rs; cbn [settled_at]; [exact Hlatest |].
  destruct rs as [| [j [v | e]] rs]; [exact Hlatest | apply IH | exact Hp].
Qed.

(** Waiting for all of some promises ends when the last of them is due, or
    sooner. *)
Lemma join_ends {T} (d : Q) (ps : list (Promise T)) :
  Forall (due c d) ps -> ends_by c d (await_all ps).
Proof.
  intros Hps s Hc.
  set (latest := fold_left (fun t p => Qmax t (settles p)) ps (now s)).
  assert (Hlatest : latest <= Qmax (now s) d) by (apply fold_settles_due; exact Hps).
  pose proof (settle_each_config d (by_time ps) (by_time_Forall _ _ Hps) s Hc) as Hcfg.
  assert (Hdue : Forall (fun y : nat * Promise T => settles (snd y) <= Qmax (now s) d)
                        (by_time ps)).
  { eapply Forall_impl; [| apply (by_time_Forall _ _ Hps)].
    intros y [Hy _]. eapply Qle_trans; [exact Hy | apply Q.le_max_r]. }
  unfold await_all. cbv zeta. fold latest.
  destruct (settle_each (by_time ps) s) as [rs s2]. cbn [snd] in Hcfg.
  pose proof (settled_at_due _ _ rs latest Hdue Hlatest) as Hat.
  destruct (first_rejection rs); cbn [snd config now set_now];
    (split; [exact Hcfg |]); (split; [apply Q.le_max_l |]);
    (apply Q.max_lub; [apply Q.le_max_l | exact Hat]).
Qed.

(** Promises made in no time and all due within [b], then awaited. *)
Lemma takes_join {U V} (m : M (list (Promise U))) (b : Q) (k : list U -> M V) :
  0 <= b ->
  (forall s, config s = c ->
     exists r s',
       m s = (r, s') /\ config s' = c /\ now s' = now s
       /\ match r with
          | Normal ps => Forall (due c (now s + b)) ps
          | Throw _ => True
          end) ->
  (forall vs, takes c 0 (k vs)) ->
  takes c b (promises <- m ;;
             results <- await_all promises ;;
             k results).
Proof.
  intros Hb Hm Hk s Hc.
  destruct (Hm s Hc) as (r & s' & E & Hcfg & Hnow & Hall).
  destruct r as [ps | e].
  - rewrite (bind_normal _ _ _ _ _ E).
    destruct (ends_by_bind (now s + b) _ k (join_ends _ ps Hall)
                (fun v => ends_by_still _ _ (Hk v)) s' Hcfg) as (Hc' & Hlo & Hhi).
    rewrite Hnow in Hlo, Hhi.
    split; [exact Hc' |]. split; [exact Hlo |].
    eapply Qle_trans; [exact Hhi |]. apply Q.max_lub; lra.
  - rewrite (bind_throw _ _ _ _ _ E). cbn [snd]. rewrite Hnow.
    split; [exact Hcfg |]. split; [apply Qle_refl | lra].
Qed.

Lemma takes_fanout {T U V} (task : T -> nat -> M U) (b : Q) (l : list T) (i0 : nat)
    (k : list U -> M V) :
  0 <= b -> (forall x i, takes c b (task x i)) -> (forall vs, takes c 0 (k vs)) ->
  takes c b (promises <- map_ (fun x i => spawn (task x i)) l i0 ;;
             results <- await_all promises ;;
             k results).
Proof.
  intros Hb Htask Hk. apply takes_join; [exact Hb | | exact Hk].
  intros s Hc. apply spawn_all_due; assumption.
Qed.

Lemma takes_measureDownloadSpeed : takes c (allowance c) (measureDownloadSpeed w).
Proof.
  unfold measureDownloadSpeed.
  apply takes_then; [still | intros startTime | apply allowance_nonneg].
  apply (takes_config (allowance c) parallelConnections). cbv beta.
  apply takes_then; [still | intros n | apply allowance_nonneg].
  cbv zeta.
  apply (takes_fanout (fun url_ index => downloadTask w startTime url_ index));
    [apply allowance_nonneg | intros; apply takes_downloadTask | intros results].
  stills.
Qed.

Lemma takes_measureUploadSpeed : takes c (allowance c) (measureUploadSpeed w).
Proof.
  unfold measureUploadSpeed.
  apply takes_then; [still | intros startTime | apply allowance_nonneg].
  apply (takes_config (allowance c) parallelConnections). cbv beta.
  apply takes_then; [still | intros n | apply allowance_nonneg].
  apply (takes_fanout (fun (_ : unit) index => uploadTask w startTime index));
    [apply allowance_nonneg | intros; apply takes_uploadTask | intros results].
  stills.
Qed.

Lemma takes_findBestServer : takes c 2000 (findBestServer w).
Proof.
  unfold findBestServer. cbv zeta.
  apply (takes_fanout
           (fun server (_ : nat) =>
              try_catch (latency <- quickPing w (host server) ;;
                         ret (with_latency server latency))
                        (fun _ => ret (with_latency server 999))));
    [discriminate | | intros; still].
  intros server i. apply takes_caught; [| intros; still].
  apply takes_first; [apply takes_quickPing | intros; still].
Qed.

(** ** Packet loss and bufferbloat *)

Lemma packet_due (p : Promise Response) (pr t : Q) :
  inert p -> settles p <= t ->
  due c t
    (finally_
       (catch_
          (then_ p (fun _ =>
             modify (fun s => set_receivedPackets (S (receivedPackets s)) s) ;;
             ret true))
          (fun _ => ret false))
       (updateProgress w packetLoss pr 0)).
Proof.
  intros [r Hr] Ht. split; [exact Ht |]. intros s Hc.
  unfold finally_, catch_, then_; cbn [reaction].
  unfold try_catch, bind at 1. rewrite Hr.
  destruct r as [resp | e]; run; rewrite updateProgress_eq;
    destruct (if onProgress _ then _ else _); cbn [snd];
    rewrite emit_config; exact Hc.
Qed.

(** A loop that makes its promises in no time. *)
Lemma for_instant {T} (I : Q -> T -> Prop) (body : nat -> T -> M T) :
  (forall i acc s, config s = c -> I (now s) acc ->
     exists r s',
       body i acc s = (r, s') /\ config s' = c /\ now s' = now s
       /\ match r with Normal v => I (now s) v | Throw _ => True end) ->
  forall indices acc s, config s = c -> I (now s) acc ->
    exists r s',
      for_ indices acc body s = (r, s') /\ config s' = c /\ now s' = now s
      /\ match r with Normal v => I (now s) v | Throw _ => True end.
Proof.
  intros H indices. induction indices as [| i rest IH]; intros acc s Hc HI; cbn [for_].
  - exists (Normal acc), s. repeat split; assumption.
  - destruct (H i acc s Hc HI) as (r & s1 & E & Hc1 & Hn1 & HI1).
    unfold bind. rewrite E. destruct r as [v | e].
    + rewrite <- Hn1 in HI1.
      destruct (IH v s1 Hc1 HI1) as (r' & s2 & E' & Hc2 & Hn2 & HI2).
      exists r', s2. split; [exact E' |]. split; [exact Hc2 |].
      split; [congruence |]. rewrite <- Hn1. exact HI2.
    + exists (Throw e), s1. repeat split; assumption.
Qed.

Lemma takes_measurePacketLoss : takes c 1500 (measurePacketLoss w).
Proof.
  unfold measurePacketLoss.
  apply takes_then; [still | intros _ | discriminate].
  apply takes_then;
    [apply takes_modify; intros; split; reflexivity | intros _ | discriminate].
  cbv zeta. apply takes_caught; [| intros; still].
  apply takes_join; [discriminate | | intros; stills].
  intros s Hc.
  apply (for_instant (fun t acc => Forall (due c (t + 1500)) acc));
    [| exact Hc | constructor].
  clear s Hc. intros i acc s Hc Hacc.
  unfold bind at 1, Date_now, gets. cbv beta iota.
  assert (Etr : truncate 1500 = 1500%Z) by reflexivity.
  destruct (timeout_cases 1500 s) as [[Et Hn] | [e Et]].
  - unfold bind at 1. rewrite Et. cbv beta iota.
    match goal with
    | |- context [fetch w ?req] =>
        destruct (fetch_timed req (truncate 1500) s eq_refl Hn)
          as (p & r & Ef & Hr & Hlo & Hhi & _)
    end.
    unfold bind at 1. rewrite Ef. cbv beta iota. unfold ret.
    do 2 eexists. split; [reflexivity |]. split; [exact Hc |].
    split; [reflexivity |].
    apply Forall_app; split; [exact Hacc |]. constructor; [| constructor].
    apply packet_due; [exists r; exact Hr |].
    rewrite Etr in Hhi. exact Hhi.
  - unfold bind at 1. rewrite Et.
    do 2 eexists. split; [reflexivity |]. split; [exact Hc |].
    split; [reflexivity | exact I].
Qed.

Lemma takes_measureBufferbloat basePing :
  takes c 15000 (measureBufferbloat w basePing).
Proof.
  unfold measureBufferbloat.
  apply takes_then; [still | intros enabled | discriminate].
  destruct (negb enabled); [apply (takes_weaken c 0); [still | discriminate] |].
  apply takes_then; [still | intros _ | discriminate].
  apply takes_caught; [| intros; stills].
  apply takes_then; [| intros loadPromises | discriminate].
  - apply (takes_weaken c (Qlen (seq 0 3) * 0)); [| vm_compute; discriminate].
    apply takes_for; [apply Qle_refl |]. intros i acc.
    apply takes_then; [apply takes_fetch | intros; still | apply Qle_refl].
  - apply takes_first; [| intros; stills].
    apply (takes_weaken c (Qlen (seq 0 5) * 3000)); [| vm_compute; discriminate].
    apply takes_for; [discriminate |]. intros i acc.
    apply takes_first; [apply takes_measurePing | intros; stills].
Qed.

(** ** The run *)

Lemma takes_runSpeedTest : takes c (37500 + 2 * allowance c) (runSpeedTest w).
Proof.
  pose proof (allowance_nonneg c) as Ha.
  unfold runSpeedTest.
  apply takes_then;
    [apply takes_modify; intros; split; reflexivity | intros _ | lra].
  apply takes_then;
    [apply takes_modify; intros; split; reflexivity | intros _ | lra].
  apply takes_then; [still | intros startTime | lra].
  apply (takes_weaken c ((35500 + 2 * allowance c) + 2000)); [| lra].
  apply takes_try; [| | discriminate].
  - apply takes_then; [still | intros _ | lra].
    apply (takes_weaken c (2000 + (33500 + 2 * allowance c))); [| lra].
    apply takes_bind; [apply takes_findBestServer | intros bestServer | lra].
    apply takes_then; [still | intros _ | lra].
    apply (takes_weaken c (15000 + (18500 + 2 * allowance c))); [| lra].
    apply takes_bind; [| intros pings | lra].
    { apply (takes_weaken c (Qlen (seq 0 5) * 3000)); [| vm_compute; discriminate].
      apply takes_for; [discriminate |]. intros i acc.
      apply takes_first; [apply takes_measurePing | intros; stills]. }
    apply takes_then; [still | intros total_ | lra].
    cbv zeta.
    apply takes_then; [apply takes_measureJitter | intros jitter_ | lra].
    apply takes_then; [still | intros _ | lra].
    apply (takes_weaken c (allowance c + (18500 + allowance c))); [| lra].
    apply takes_bind; [apply takes_measureDownloadSpeed | intros downloadSpeed_ | lra].
    apply takes_then; [still | intros _ | lra].
    apply (takes_weaken c (allowance c + 18500)); [| lra].
    apply takes_bind; [apply takes_measureUploadSpeed | intros uploadSpeed_ | lra].
    apply takes_then; [still | intros _ | lra].
    apply (takes_weaken c (1500 + 17000)); [| lra].
    apply takes_bind; [apply takes_measurePacketLoss | intros packetLoss_ | lra].
    apply takes_then; [still | intros enabled | lra].
    apply (takes_weaken c (15000 + 2000)); [| lra].
    apply takes_bind; [| intros bufferbloat_ | lra].
    { destruct enabled.
      - apply takes_first; [apply takes_measureBufferbloat | intros; still].
      - apply (takes_weaken c 0); [still | discriminate]. }
    apply takes_first; [apply takes_getUserLocation | intros; stills].
  - intros e.
    do 6 (apply takes_then; [still | intros ? | discriminate]).
    apply takes_first; [apply takes_getUserLocation | intros; stills].
Qed.

End TakesMethods.

(** ** The duration that a run reports *)

Lemma elapsed_return (w : World) (t0 : Q) (mk : Q -> SpeedTestResult) :
  (forall t, testDuration (mk t) = (t - t0) / 1000) ->
  ensures (end_ <- performance_now ;; updateProgress w complete 100 0 ;; ret (mk end_))
          (fun r s' => testDuration r = (now s' - t0) / 1000).
Proof.
  intros H s v s' E. unfold bind at 1, performance_now, gets in E.
  cbv beta iota in E. unfold bind at 1 in E. rewrite updateProgress_eq in E.
  destruct (if onProgress s then _ else _) in E; [discriminate E |].
  injection E as <- <-. rewrite emit_now. apply H.
Qed.

Lemma elapsed_fallback {T} (w : World) (t0 : Q) (f : State -> T)
    (mk : Q -> T -> SpeedTestResult) :
  (forall t x, testDuration (mk t x) = (t - t0) / 1000) ->
  ensures (end_ <- performance_now ;;
           x <- gets f ;;
           updateProgress w complete 100 0 ;; ret (mk end_ x))
          (fun r s' => testDuration r = (now s' - t0) / 1000).
Proof.
  intros H s v s' E. unfold bind at 1, performance_now, gets at 1 in E.
  cbv beta iota in E. unfold bind at 1, gets in E. cbv beta iota in E.
  unfold bind at 1 in E. rewrite updateProgress_eq in E.
  destruct (if onProgress s then _ else _) in E; [discriminate E |].
  injection E as <- <-. rewrite emit_now. apply H.
Qed.

Lemma runSpeedTest_elapsed (w : World) (s : State) r s' :
  runSpeedTest w s = (Normal r, s') -> testDuration r = (now s' - now s) / 1000.
Proof.
  unfold runSpeedTest.
  unfold bind at 1, modify at 1. cbv beta iota.
  unfold bind at 1, modify at 1. cbv beta iota.
  unfold bind at 1, performance_now at 1, gets at 1. cbv beta iota.
  cbn [now set_graphData set_abortController].
  match goal with
  | |- try_catch ?m ?h ?s0 = _ -> _ =>
      apply (ensures_try m h (fun r s' => testDuration r = (now s' - now s) / 1000))
  end.
  - do 17 (apply ensures_bind; intros ?). cbv zeta.
    apply (elapsed_return w (now s) (fun end_ => _)). reflexivity.
  - intros e. do 7 (apply ensures_bind; intros ?). cbv zeta.
    apply (elapsed_fallback w (now s) _ (fun end_ enabled => _)). reflexivity.
Qed.

(** X18. The [testDuration] of a result that [runSpeedTest] returns is the
    time that passed on the clock between the call and the return, in
    seconds; it is never negative. *)
Theorem runSpeedTest_testDuration (w : World) (s : State) (r : SpeedTestResult)
    (s' : State) :
  runSpeedTest w s = (Normal r, s') ->
  testDuration r = (now s' - now s) / 1000 /\ 0 <= testDuration r.
Proof.
  intros E.
  pose proof (runSpeedTest_elapsed w s r s' E) as Hd.
  destruct (takes_runSpeedTest w (config s) s eq_refl) as (_ & Hlo & _).
  rewrite E in Hlo. cbn [snd] in Hlo.
  split; [exact Hd |]. rewrite Hd.
  apply Qle_shift_div_l; [reflexivity | lra].
Qed.

Lemma runSpeedTest_testDuration_witness :
  match runSpeedTest Sample.offline Sample.fresh with
  | (Normal r, s') =>
      testDuration r = (now s' - now Sample.fresh) / 1000 /\ 0 <= testDuration r
  | (Throw _, _) => False
  end.
Proof.
  destruct (runSpeedTest Sample.offline Sample.fresh) as [[r | e] s'] eqn:E.
  - exact (runSpeedTest_testDuration Sample.offline Sample.fresh r s' E).
  - vm_compute in E. discriminate E.
Defined.

(** X19. Whatever the network does, each phase ends within a fixed time of
    its start: the server choice and the location lookup within 2 s, one
    ping measurement within 3 s, the packet-loss batch within 1.5 s, the
    bufferbloat phase within 15 s, and each throughput phase within the
    transfer allowance of the configuration. *)
Theorem phase_deadlines (w : World) (s : State) :
  within s 2000 (findBestServer w)
  /\ within s 3000 (measurePing w)
  /\ within s (allowance (config s)) (measureDownloadSpeed w)
  /\ within s (allowance (config s)) (measureUploadSpeed w)
  /\ within s 1500 (measurePacketLoss w)
  /\ (forall basePing, within s 15000 (measureBufferbloat w basePing))
  /\ within s 2000 (getUserLocation w).
Proof.
  unfold within. repeat split; intros;
    first [ apply (takes_findBestServer w (config s) s eq_refl)
          | apply (takes_measurePing w (config s) s eq_refl)
          | apply (takes_measureDownloadSpeed w (config s) s eq_refl)
          | apply (takes_measureUploadSpeed w (config s) s eq_refl)
          | apply (takes_measurePacketLoss w (config s) s eq_refl)
          | apply (takes_measureBufferbloat w (config s) _ s eq_refl)
          | apply (takes_getUserLocation w (config s) s eq_refl) ].
Qed.
